(** * Osiris: the command safety-and-execution pipeline

    A shallow embedding of
      - [kshitij_safety_gate/safety_gate.py]   (class [SafetyGate]) and
      - [shiv_command_execution/command_executor.py] (class [CommandExecutor])
    together with the properties of the pipeline that the specification
    states about them.

    Conventions of the embedding.
      - A Python [str] is a [string]; each character is a code point below
        256, and [isspace]/[lower] follow Python on that range.
      - Python exceptions are explicit: a computation that may raise returns
        [Res A]; list indexing is partial exactly as in Python.
      - The operating system (clock, process spawning) is an explicit
        environment, and what the code does to it is recorded as events.
      - Calls to the logger are not modelled. *)

From Stdlib Require Import Bool Arith ZArith QArith List Ascii String Lia
  DecimalString.
Import ListNotations.

Close Scope Q_scope.

Local Open Scope list_scope.
Local Open Scope string_scope.

(* ================================================================== *)
(** ** Python values used by both classes *)

Module Py.

(** The one-character string holding a double quote (code point 34). *)
Definition dq : string := String (ascii_of_nat 34) EmptyString.

(** [str.isspace] on one character, for code points below 256. *)
Definition isspace (c : ascii) : bool :=
  let n := nat_of_ascii c in
  (((9 <=? n) && (n <=? 13)) || ((28 <=? n) && (n <=? 32))
   || (n =? 133) || (n =? 160))%nat.

(** [str.lower] on one character, for code points below 256:
    A-Z and the Latin-1 capitals (all of 192..222 but the times sign). *)
Definition lower_char (c : ascii) : ascii :=
  let n := nat_of_ascii c in
  if (((65 <=? n) && (n <=? 90))
      || ((192 <=? n) && (n <=? 222) && negb (n =? 215)))%nat
  then ascii_of_nat (n + 32) else c.

(** [str.lower] on a string of code points below 256: there it works
    character by character (the one rule of [str.lower] that looks at the
    neighbours of a character is about the Greek capital sigma). *)
Fixpoint lower (s : string) : string :=
  match s with
  | EmptyString => EmptyString
  | String c s' => String (lower_char c) (lower s')
  end.

(** [pat in s]: substring test. *)
Fixpoint contains (pat s : string) : bool :=
  match s with
  | EmptyString => prefix pat EmptyString
  | String _ s' => prefix pat s || contains pat s'
  end.

(** [c in s] for a single character [c]. *)
Fixpoint has_char (c : ascii) (s : string) : bool :=
  match s with
  | EmptyString => false
  | String d s' => Ascii.eqb c d || has_char c s'
  end.

Fixpoint lstrip (s : string) : string :=
  match s with
  | EmptyString => EmptyString
  | String c s' => if isspace c then lstrip s' else s
  end.

Definition rev_string (s : string) : string :=
  string_of_list_ascii (rev (list_ascii_of_string s)).

Definition rstrip (s : string) : string :=
  rev_string (lstrip (rev_string s)).

(** [s] is empty or holds whitespace only. *)
Fixpoint all_space (s : string) : bool :=
  match s with
  | EmptyString => true
  | String c s' => isspace c && all_space s'
  end.

(** [s.strip()] *)
Definition strip (s : string) : string := lstrip (rstrip s).

(** [s.split()]: the maximal runs of non-whitespace characters. [cur] is the
    run being read. *)
Fixpoint split_from (cur : string) (s : string) : list string :=
  match s with
  | EmptyString => match cur with EmptyString => [] | _ => [cur] end
  | String c s' =>
      if isspace c
      then match cur with
           | EmptyString => split_from EmptyString s'
           | _ => cur :: split_from EmptyString s'
           end
      else split_from (cur ++ String c EmptyString) s'
  end.

Definition split (s : string) : list string := split_from EmptyString s.

(** [sep.join(l)] *)
Definition join (sep : string) (l : list string) : string := concat sep l.

(** Truthiness of a string, of a list and of an optional string. *)
Definition truthy_str (s : string) : bool :=
  match s with EmptyString => false | _ => true end.

Definition truthy_list {A} (l : list A) : bool :=
  match l with [] => false | _ => true end.

(** [x or ""] for [x] a string or [None]. *)
Definition or_empty (x : option string) : string :=
  match x with Some s => s | None => EmptyString end.

(** [str(n)] for an integer. *)
Definition str_of_Z (n : Z) : string := NilZero.string_of_int (Z.to_int n).

(** Exceptions carry the text that [str(e)] yields. *)
Inductive Exn : Type := Exception (msg : string).

Definition str_of_exn (e : Exn) : string :=
  match e with Exception m => m end.

Definition IndexError : Exn := Exception "list index out of range".

(** A computation that returns or raises. *)
Inductive Res (A : Type) : Type :=
| Ok (a : A)
| Raise (e : Exn).
Arguments Ok {A} a.
Arguments Raise {A} e.

Definition bind {A B} (m : Res A) (k : A -> Res B) : Res B :=
  match m with Ok a => k a | Raise e => Raise e end.

(** [l[i]], negative indices counting from the end. *)
Definition index {A} (l : list A) (i : Z) : Res A :=
  let n := Z.of_nat (List.length l) in
  let j := (if i <? 0 then i + n else i)%Z in
  if ((0 <=? j) && (j <? n))%Z
  then match nth_error l (Z.to_nat j) with
       | Some a => Ok a
       | None => Raise IndexError
       end
  else Raise IndexError.

(** [d.get(k, dflt)] for a dictionary written as its list of items. *)
Fixpoint dict_get {A} (d : list (string * A)) (k : string) (dflt : A) : A :=
  match d with
  | [] => dflt
  | (k', v) :: d' => if String.eqb k k' then v else dict_get d' k dflt
  end.

(** [l[i:]]: a negative [i] counts from the end, and an [i] out of range is
    clipped. *)
Definition slice_from {A} (l : list A) (i : Z) : list A :=
  let n := Z.of_nat (List.length l) in
  let start := (if i <? 0 then Z.max (n + i) 0 else Z.min i n)%Z in
  skipn (Z.to_nat start) l.

(** [s[n:]] for a length [n] that is not negative. *)
Fixpoint drop (n : nat) (s : string) : string :=
  match n, s with
  | O, _ => s
  | S n', String _ s' => drop n' s'
  | S _, EmptyString => EmptyString
  end.

(** [s.startswith(p)] *)
Definition startswith (s p : string) : bool := prefix p s.

(** The characters [str.splitlines] breaks a line at, for code points below
    256: line feed, vertical tab, form feed, carriage return, the file,
    group and record separators and the next-line character. *)
Definition is_linebreak (c : ascii) : bool :=
  let n := nat_of_ascii c in
  (((10 <=? n) && (n <=? 13)) || ((28 <=? n) && (n <=? 30))
   || (n =? 133))%nat.

(** [s.splitlines()]; [cur] is the line being read. A carriage return that
    is followed by a line feed ends the line together with it. *)
Fixpoint splitlines_from (cur : string) (s : string) : list string :=
  match s with
  | EmptyString => match cur with EmptyString => [] | _ => [cur] end
  | String c s' =>
      if is_linebreak c then
        match s' with
        | String d s'' =>
            if ((nat_of_ascii c =? 13) && (nat_of_ascii d =? 10))%nat
            then cur :: splitlines_from EmptyString s''
            else cur :: splitlines_from EmptyString s'
        | EmptyString => cur :: splitlines_from EmptyString s'
        end
      else splitlines_from (cur ++ String c EmptyString) s'
  end.

Definition splitlines (s : string) : list string :=
  splitlines_from EmptyString s.

(** [template.format(name=value)] for a template whose only braces are
    those of the field [{name}]: every [{name}] is replaced by [value].
    [fuel] bounds the scan and is the length of the template. *)
Fixpoint format_name_from (fuel : nat) (template value : string) : string :=
  match fuel with
  | O => template
  | S fuel' =>
      if prefix "{name}" template
      then value ++ format_name_from fuel' (drop 6 template) value
      else match template with
           | EmptyString => EmptyString
           | String c t' => String c (format_name_from fuel' t' value)
           end
  end.

Definition format_name (template value : string) : string :=
  format_name_from (String.length template) template value.

(** [s] holds no whitespace. *)
Fixpoint no_space (s : string) : bool :=
  match s with
  | EmptyString => true
  | String c s' => negb (isspace c) && no_space s'
  end.

End Py.

Notation "x <- m ;; k" := (Py.bind m (fun x => k))
  (at level 61, m at next level, right associativity).

(* ================================================================== *)
(** ** [safety_gate.py] *)

Module SafetyGate.
Import Py.

Inductive RiskLevel : Type := SAFE | LOW | MEDIUM | HIGH | CRITICAL.

(** The string constant each level stands for in [class RiskLevel]. *)
Definition RiskLevel_value (r : RiskLevel) : string :=
  match r with
  | SAFE => "safe" | LOW => "low" | MEDIUM => "medium"
  | HIGH => "high" | CRITICAL => "critical"
  end.

(** The settings dictionary, one optional entry per key that is read. *)
Record Config : Type := mkConfig {
  cfg_enabled : option bool;
  cfg_sandbox_mode : option bool;
  cfg_dangerous_commands : option (list string);
  cfg_sensitive_paths : option (list string)
}.

Definition empty_config : Config := mkConfig None None None None.

Record SafetyGate : Type := mkSafetyGate {
  enabled : bool;
  sandbox_mode : bool;
  dangerous_commands : list string;
  sensitive_paths : list string
}.

Definition get {A} (x : option A) (dflt : A) : A :=
  match x with Some a => a | None => dflt end.

(** [SafetyGate.__init__(config=None)] *)
Definition __init__ (config : option Config) : SafetyGate :=
  let config := get config empty_config in
  {| enabled := get (cfg_enabled config) true;
     sandbox_mode := get (cfg_sandbox_mode config) false;
     dangerous_commands := get (cfg_dangerous_commands config) [];
     sensitive_paths := get (cfg_sensitive_paths config) [] |}.

(** The dictionary [evaluate_command] returns. *)
Record Verdict : Type := mkVerdict {
  allowed : bool;
  risk_level : RiskLevel;
  reason : string;
  warnings : list string
}.

Definition _is_critical_command (self : SafetyGate) (command : string)
  : bool * string :=
  let command_lower := lower command in
  if contains ":(){" command || contains ":|:&" command then
    (true, "Fork bomb detected - would crash system")
  else if contains "rm -rf /" command || contains "rm -fr /" command then
    (true, "Attempting to delete root directory")
  else if contains "mkfs" command_lower || contains "format" command_lower then
    (true, "Attempting to format hard drive")
  else if contains "dd if=/dev/zero" command_lower
          || contains "dd if=/dev/random" command_lower then
    (true, "Attempting to overwrite hard drive")
  else if existsb (fun path => contains path command_lower)
                  ["/boot"; "/dev/sda"; "/dev/nvme"]
          && (contains "rm" command_lower || contains "dd" command_lower
              || contains ">" command) then
    (true, "Attempting to destroy boot partition")
  else
    match find (fun dangerous => contains (lower dangerous) command_lower)
               (dangerous_commands self) with
    | Some dangerous => (true, "Matches dangerous pattern: " ++ dangerous)
    | None => (false, "")
    end.

Definition _is_high_risk_command (self : SafetyGate) (command : string)
  : bool * string :=
  let command_lower := lower command in
  if (contains "rm -rf" command || contains "rm -fr" command)
     && negb (contains "/" command) then
    (true, "Recursive delete detected")
  else if contains "chmod -r" command_lower
          || contains "chown -r" command_lower then
    (true, "Recursive permission change detected")
  else if contains "kill" command_lower
          && (contains " 1" command || contains "-9 1" command) then
    (true, "Attempting to kill init process")
  else if existsb (fun path => contains path command_lower)
                  ["c:\windows"; "c:\program files"]
          && (contains "rm" command_lower || contains "del" command_lower) then
    (true, "Attempting to delete Windows system folder")
  else (false, "").

Definition _is_medium_risk_command (self : SafetyGate) (command : string)
  : bool * string :=
  let command_lower := lower command in
  if (contains "rm" command_lower || contains "del" command_lower)
     && contains "*" command then
    (true, "Deleting multiple files with wildcard")
  else if contains "chmod" command_lower || contains "icacls" command_lower then
    (true, "Changing file permissions")
  else
    match find (fun sensitive_path =>
                  contains (lower sensitive_path) command_lower)
               (sensitive_paths self) with
    | Some sensitive_path =>
        (true, "Accessing sensitive path: " ++ sensitive_path)
    | None => (false, "")
    end.

Definition confirm_commands : list string :=
  ["rm"; "del"; "kill"; "chmod"; "chown"; "rmdir"].

Definition _needs_confirmation (self : SafetyGate) (command : string)
  : bool * string :=
  let command_lower := lower command in
  match split command_lower with
  | [] => (false, "")
  | cmd :: _ =>
      if existsb (String.eqb cmd) confirm_commands
      then (true, "'" ++ cmd ++ "' command requires confirmation")
      else (false, "")
  end.

(** The four checks [evaluate_command] can call, by name. *)
Inductive Check : Type :=
| CriticalCheck | HighRiskCheck | MediumRiskCheck | ConfirmationCheck.

Definition run_check (k : Check) : SafetyGate -> string -> bool * string :=
  match k with
  | CriticalCheck => _is_critical_command
  | HighRiskCheck => _is_high_risk_command
  | MediumRiskCheck => _is_medium_risk_command
  | ConfirmationCheck => _needs_confirmation
  end.

(** A computation that records which checks it called, in call order. *)
Definition Traced (A : Type) : Type := (A * list Check)%type.

Definition ret {A} (a : A) : Traced A := (a, []).

Definition call (k : Check) (self : SafetyGate) (command : string)
  : Traced (bool * string) := (run_check k self command, [k]).

Definition then_ {A B} (m : Traced A) (f : A -> Traced B) : Traced B :=
  let (b, t) := f (fst m) in (b, (snd m ++ t)%list).

(** [SafetyGate.evaluate_command], with the calls it makes. *)
Definition evaluate_command_traced (self : SafetyGate) (command : string)
  : Traced Verdict :=
  if negb (enabled self) then
    ret (mkVerdict true SAFE "Safety gate disabled" [])
  else
  then_ (call CriticalCheck self command) (fun '(is_critical, critical_reason) =>
  if is_critical then
    ret (mkVerdict false CRITICAL critical_reason
           ["This command could destroy your system!"])
  else
  then_ (call HighRiskCheck self command) (fun '(is_high_risk, high_risk_reason) =>
  if is_high_risk then
    ret (mkVerdict false HIGH high_risk_reason
           ["This command is very dangerous!"])
  else
  then_ (call MediumRiskCheck self command) (fun '(is_medium_risk, medium_risk_reason) =>
  if is_medium_risk then
    ret (mkVerdict true MEDIUM "" [medium_risk_reason])
  else
  then_ (call ConfirmationCheck self command) (fun '(needs_confirm, confirm_reason) =>
  if needs_confirm then
    ret (mkVerdict true LOW "" [confirm_reason])
  else
    ret (mkVerdict true SAFE "" []))))).

(** [SafetyGate.evaluate_command]: the dictionary returned. *)
Definition evaluate_command (self : SafetyGate) (command : string) : Verdict :=
  fst (evaluate_command_traced self command).

(** The checks [evaluate_command] called, in order. *)
Definition checks_called (self : SafetyGate) (command : string) : list Check :=
  snd (evaluate_command_traced self command).

(** The verdict of a gate that is switched off. *)
Definition disabled_verdict : Verdict :=
  mkVerdict true SAFE "Safety gate disabled" [].

(** The [descriptions] dictionary of [_describe_command]. *)
Definition descriptions : list (string * string) :=
  [("rm", "Removes/deletes files or directories");
   ("del", "Deletes files");
   ("kill", "Terminates a running process");
   ("chmod", "Changes file permissions");
   ("chown", "Changes file owner");
   ("mkfs", "Creates a new filesystem (formats a drive)");
   ("dd", "Copies data at a low level");
   ("format", "Formats a hard drive");
   ("mkdir", "Creates a new directory");
   ("cp", "Copies files or directories");
   ("mv", "Moves or renames files");
   ("cat", "Displays file contents");
   ("ls", "Lists files and directories")].

Definition _describe_command (cmd : string) : string :=
  dict_get descriptions (lower cmd) ("Executes the '" ++ cmd ++ "' command").

(** The dictionary [simulate_command] returns. *)
Record Simulation : Type := mkSimulation {
  sim_command : string;
  would_execute : bool;
  sim_risk_level : RiskLevel;
  blocked_reason : option string;
  sim_warnings : list string;
  description : string
}.

Definition simulate_command (self : SafetyGate) (command : string)
  : Simulation :=
  let evaluation := evaluate_command self command in
  let parts := split command in
  let cmd := match parts with [] => "" | cmd :: _ => cmd end in
  {| sim_command := command;
     would_execute := allowed evaluation;
     sim_risk_level := risk_level evaluation;
     blocked_reason := if negb (allowed evaluation)
                       then Some (reason evaluation) else None;
     sim_warnings := warnings evaluation;
     description := _describe_command cmd |}.

End SafetyGate.

(* ================================================================== *)
(** ** [command_executor.py] *)

Module CommandExecutor.
Import Py.

(** *** The translator *)

Definition linux_commands : list string :=
  ["ls"; "cat"; "pwd"; "touch"; "mkdir"; "rm"; "cp"; "mv";
   "echo"; "clear"; "ps"; "kill"; "grep"; "find"; "df";
   "whoami"; "hostname"; "date"; "head"; "tail"; "wc"].

Definition _is_linux_command (command : string) : Res bool :=
  first_word <- (if truthy_str (strip command)
                 then index (split (strip command)) 0
                 else Ok "") ;;
  Ok (existsb (String.eqb first_word) linux_commands).

(** [f'"{s}"'] *)
Definition quoted (s : string) : string := dq ++ s ++ dq.

(** The [if cmd == ... elif ...] chain of [_translate_to_windows]. *)
Definition translate_chain (command cmd : string) (args : list string)
  : Res string :=
  if cmd =? "ls" then Ok "Get-ChildItem"
  else if cmd =? "pwd" then Ok "Get-Location"
  else if cmd =? "cat" then
    if truthy_list args then
      a <- index args 0 ;; Ok ("Get-Content " ++ quoted a)
    else Ok ("Write-Host " ++ quoted "cat: missing file name")
  else if cmd =? "head" then
    if truthy_list args then
      a <- index args (-1) ;;
      Ok ("Get-Content " ++ quoted a ++ " | Select-Object -First 10")
    else Ok ("Write-Host " ++ quoted "head: missing file name")
  else if cmd =? "tail" then
    if truthy_list args then
      a <- index args (-1) ;;
      Ok ("Get-Content " ++ quoted a ++ " | Select-Object -Last 10")
    else Ok ("Write-Host " ++ quoted "tail: missing file name")
  else if cmd =? "touch" then
    if truthy_list args then
      filename <- index args 0 ;;
      Ok ("if (Test-Path " ++ quoted filename ++ ") { (Get-Item "
          ++ quoted filename
          ++ ").LastWriteTime = Get-Date } else { New-Item -ItemType File "
          ++ quoted filename ++ " | Out-Null }")
    else Ok ("Write-Host " ++ quoted "touch: missing file name")
  else if cmd =? "mkdir" then
    if truthy_list args then
      a <- index args 0 ;;
      Ok ("New-Item -ItemType Directory " ++ quoted a ++ " -Force")
    else Ok ("Write-Host " ++ quoted "mkdir: missing directory name")
  else if cmd =? "rm" then
    if truthy_list args then
      a <- index args 0 ;; Ok ("Remove-Item " ++ quoted a ++ " -Force")
    else Ok ("Write-Host " ++ quoted "rm: missing file name")
  else if cmd =? "cp" then
    if (2 <=? Z.of_nat (List.length args))%Z then
      a <- index args 0 ;; b <- index args 1 ;;
      Ok ("Copy-Item " ++ quoted a ++ " " ++ quoted b)
    else Ok ("Write-Host " ++ quoted "cp: need source and destination")
  else if cmd =? "mv" then
    if (2 <=? Z.of_nat (List.length args))%Z then
      a <- index args 0 ;; b <- index args 1 ;;
      Ok ("Move-Item " ++ quoted a ++ " " ++ quoted b)
    else Ok ("Write-Host " ++ quoted "mv: need source and destination")
  else if cmd =? "echo" then
    if truthy_list args then Ok ("Write-Output " ++ join " " args)
    else Ok ("Write-Output " ++ quoted "")
  else if cmd =? "clear" then Ok "Clear-Host"
  else if cmd =? "ps" then Ok "Get-Process | Select-Object ProcessName,Id,CPU"
  else if cmd =? "kill" then
    if truthy_list args then
      a <- index args 0 ;; Ok ("Stop-Process -Id " ++ a ++ " -Force")
    else Ok ("Write-Host " ++ quoted "kill: missing process ID")
  else if cmd =? "grep" then
    if truthy_list args then Ok ("Select-String " ++ join " " args)
    else Ok ("Write-Host " ++ quoted "grep: missing search pattern")
  else if cmd =? "find" then
    path <- (if truthy_list args then index args 0 else Ok ".") ;;
    Ok ("Get-ChildItem -Path " ++ quoted path ++ " -Recurse")
  else if cmd =? "df" then Ok "Get-PSDrive -PSProvider FileSystem"
  else if cmd =? "whoami" then Ok "$env:USERNAME"
  else if cmd =? "hostname" then Ok "$env:COMPUTERNAME"
  else if cmd =? "date" then Ok "Get-Date"
  else if cmd =? "wc" then
    if truthy_list args then
      a <- index args 0 ;;
      Ok ("Get-Content " ++ quoted a
          ++ " | Measure-Object -Line -Word -Character")
    else Ok ("Write-Host " ++ quoted "wc: missing file name")
  else Ok command.

Definition _translate_to_windows (command : string) : Res string :=
  let parts := split (strip command) in
  if negb (truthy_list parts) then Ok command
  else
    cmd <- index parts 0 ;;
    let args := if (1 <? Z.of_nat (List.length parts))%Z
                then skipn 1 parts else [] in
    translate_chain command cmd args.

(** *** The operating system, as the executor sees it *)

(** What [process.communicate(timeout=t)] does. *)
Inductive WaitOutcome : Type :=
| Exited (stdout stderr : option string) (returncode : Z)
| TimeoutExpired
| WaitRaises (e : Exn).

(** What [process.kill()] followed by [process.communicate()] does:
    the buffered output and the return code of the killed child. *)
Inductive KillOutcome : Type :=
| Reaped (stdout stderr : option string) (returncode : Z)
| KillRaises (e : Exn).

Record Process : Type := mkProcess {
  communicate : Z -> WaitOutcome;
  kill_communicate : KillOutcome
}.

(** What [subprocess.Popen(argv, ..., cwd=cwd)] does. *)
Inductive PopenOutcome : Type :=
| Started (process : Process)
| PopenRaises (e : Exn).

Record Env : Type := mkEnv {
  (** the n-th reading of [datetime.now()], in microseconds *)
  clock : nat -> Z;
  (** [Popen argv cwd capture_output] *)
  Popen : list string -> option string -> bool -> PopenOutcome;
  (** [shutil.which(name) is not None] *)
  which : string -> bool;
  (** [subprocess.run(argv, timeout=t)]: return code and stderr *)
  run : list string -> Z -> Res (Z * option string)
}.

(** What a call did to the operating system. *)
Inductive Event : Type :=
| Spawn (argv : list string) (cwd : option string) (capture_output : bool)
| Wait (timeout : option Z)
| Kill.

Record World : Type := mkWorld {
  ticks : nat;
  events : list Event
}.

(** [datetime.now()] *)
Definition now (env : Env) (w : World) : Z * World :=
  (clock env (ticks w), mkWorld (S (ticks w)) (events w)).

Definition emit (ev : Event) (w : World) : World :=
  mkWorld (ticks w) (events w ++ [ev])%list.

(** *** The executor *)

Record Config : Type := mkConfig {
  cfg_timeout : option Z;
  cfg_use_wsl : option bool
}.

(** The dictionary [execute] returns; times in microseconds. *)
Record ExecutionResult : Type := mkResult {
  command : string;
  output : string;
  error : string;
  exit_code : Z;
  success : bool;
  duration : Z;
  start_time : Z;
  end_time : Z
}.

Record CommandExecutor : Type := mkExecutor {
  timeout : Z;
  use_wsl : bool;
  _wsl_available : bool;
  execution_history : list ExecutionResult
}.

Definition set_history (self : CommandExecutor) (h : list ExecutionResult)
  : CommandExecutor :=
  mkExecutor (timeout self) (use_wsl self) (_wsl_available self) h.

Definition _detect_wsl (env : Env) : bool :=
  if negb (which env "wsl") then false
  else
    match run env ["wsl"; "bash"; "-lc"; "exit"] 5 with
    | Raise _ => false
    | Ok (returncode, stderr) =>
        if negb (returncode =? 0)%Z then
          let error_text := lower (or_empty stderr) in
          if existsb (fun pattern => contains pattern error_text)
               ["bash: not found"; "no installed distributions";
                "wsl is not enabled"]
          then false else true
        else true
    end.

(** [CommandExecutor.__init__(config=None)] *)
Definition __init__ (env : Env) (config : option Config) : CommandExecutor :=
  let config := match config with Some c => c | None => mkConfig None None end in
  let timeout := match cfg_timeout config with Some t => t | None => 300%Z end in
  let use_wsl := match cfg_use_wsl config with Some b => b | None => false end in
  let wsl_available := _detect_wsl env in
  let use_wsl := if use_wsl && negb wsl_available then false else use_wsl in
  mkExecutor timeout use_wsl wsl_available [].

Definition fallback_tokens : list string :=
  ["bash: not found"; "no installed distributions";
   "wsl.exe was not found"; "the system cannot find the file specified"].

Definition _should_fallback_to_powershell (stderr : option string) : bool :=
  if negb (truthy_str (or_empty stderr)) then false
  else
    let message := lower (or_empty stderr) in
    existsb (fun token => contains token message) fallback_tokens.

(** The newline character. *)
Definition nl : string := String (ascii_of_nat 10) EmptyString.

(** [f"Command timeout after {timeout} seconds\n"] *)
Definition timeout_notice (timeout : Z) : string :=
  "Command timeout after " ++ str_of_Z timeout ++ " seconds" ++ nl.

(** The dictionary built in step 5. *)
Definition completed_result (original_command : string)
    (stdout stderr : option string) (exit_code start_time end_time : Z)
  : ExecutionResult :=
  {| command := original_command;
     output := or_empty stdout;
     error := or_empty stderr;
     exit_code := exit_code;
     success := (exit_code =? 0)%Z;
     duration := (end_time - start_time)%Z;
     start_time := start_time;
     end_time := end_time |}.

(** The dictionary built in the [except Exception as e] handler. *)
Definition failed_result (original_command : string) (e : Exn)
    (start_time end_time : Z) : ExecutionResult :=
  {| command := original_command;
     output := "";
     error := str_of_exn e;
     exit_code := (-1)%Z;
     success := false;
     duration := (end_time - start_time)%Z;
     start_time := start_time;
     end_time := end_time |}.

(** The result of a call: what it returned or raised, the executor and the
    world afterwards. *)
Definition Outcome : Type := (Res ExecutionResult * CommandExecutor * World)%type.

(** [timeout or self.timeout] *)
Definition timeout_or (timeout : option Z) (dflt : Z) : Z :=
  match timeout with
  | Some t => if (t =? 0)%Z then dflt else t
  | None => dflt
  end.

(** The backend a call runs on: the [use_wsl] argument, else the executor's
    default, and never WSL when it is not available. *)
Definition resolve_use_wsl (self : CommandExecutor) (use_wsl : option bool)
  : bool :=
  let use_wsl := match use_wsl with
                 | None => CommandExecutor.use_wsl self
                 | Some b => b
                 end in
  if use_wsl && negb (_wsl_available self) then false else use_wsl.

(** Step 1: the command handed to the backend. *)
Definition backend_command (use_wsl : bool) (command : string) : Res string :=
  if negb use_wsl then
    is_linux <- _is_linux_command command ;;
    if is_linux then _translate_to_windows command else Ok command
  else Ok command.

(** Step 2: the argument vector of the child process. *)
Definition popen_cmd (use_wsl : bool) (command : string) : list string :=
  if use_wsl then ["wsl"; "bash"; "-lc"; command]
  else ["powershell.exe"; "-Command"; command].

(** Step 4: wait for the child; on expiry kill it, collect what it had
    written and put the timeout notice in front of its error text. *)
Definition wait_for (process : Process) (timeout : Z) (w : World)
  : Res (option string * option string * Z) * World :=
  let w := emit (Wait (Some timeout)) w in
  match communicate process timeout with
  | Exited stdout stderr returncode => (Ok (stdout, stderr, returncode), w)
  | WaitRaises e => (Raise e, w)
  | TimeoutExpired =>
      let w := emit (Wait None) (emit Kill w) in
      match kill_communicate process with
      | Reaped stdout stderr returncode =>
          let stderr := Some (timeout_notice timeout ++ or_empty stderr) in
          (Ok (stdout, stderr, returncode), w)
      | KillRaises e => (Raise e, w)
      end
  end.

Section Execute.

Variable env : Env.

(** The [except Exception as e] handler of [execute]. *)
Definition handler (original_command : string) (start_time : Z) (e : Exn)
    (self : CommandExecutor) (w : World) : Outcome :=
  let '(end_time, w) := now env w in
  (Ok (failed_result original_command e start_time end_time), self, w).

(** Steps 5 and 6: build the dictionary and save it to the history. *)
Definition record_result (original_command : string) (start_time : Z)
    (stdout stderr : option string) (exit_code : Z)
    (self : CommandExecutor) (w : World) : Outcome :=
  let '(end_time, w) := now env w in
  let result := completed_result original_command stdout stderr exit_code
                  start_time end_time in
  (Ok result, set_history self (execution_history self ++ [result])%list, w).

(** [CommandExecutor.execute]. [depth] bounds the nesting of calls of
    [execute] by itself; [None] stands for a nesting deeper than that. *)
Fixpoint execute_at_depth (depth : nat) (self : CommandExecutor)
    (w : World) (command : string) (working_dir : option string)
    (timeout : option Z) (capture_output : bool) (use_wsl : option bool)
  : option Outcome :=
  match depth with
  | O => None
  | S depth' =>
    let '(start_time, w) := now env w in
    let timeout := timeout_or timeout (CommandExecutor.timeout self) in
    let use_wsl := resolve_use_wsl self use_wsl in
    let original_command := command in
    match backend_command use_wsl command with
    | Raise e => Some (Raise e, self, w)
    | Ok command =>
      (* try: *)
      let w := emit (Spawn (popen_cmd use_wsl command) working_dir
                       capture_output) w in
      match Popen env (popen_cmd use_wsl command) working_dir
              capture_output with
      | PopenRaises e => Some (handler original_command start_time e self w)
      | Started process =>
        match wait_for process timeout w with
        | (Raise e, w) => Some (handler original_command start_time e self w)
        | (Ok (stdout, stderr, exit_code), w) =>
          if use_wsl && negb (exit_code =? 0)%Z
             && _should_fallback_to_powershell stderr then
            match execute_at_depth depth' self w original_command
                    working_dir (Some timeout) capture_output
                    (Some false) with
            | None => None
            | Some (Ok result, self, w) => Some (Ok result, self, w)
            | Some (Raise e, self, w) =>
                Some (handler original_command start_time e self w)
            end
          else
            Some (record_result original_command start_time stdout stderr
                    exit_code self w)
        end
      end
    end
  end.

(** [execute] calls itself at most once, so a depth of two is enough. *)
Definition execute (self : CommandExecutor) (w : World)
    (command : string) (working_dir : option string) (timeout : option Z)
    (capture_output : bool) (use_wsl : option bool) : option Outcome :=
  execute_at_depth 2 self w command working_dir timeout capture_output
    use_wsl.

End Execute.

(** [get_recent_executions(count)] for a count that is not negative:
    [self.execution_history[-count:]], the last [count] entries, and the
    whole history for a count of zero ([-0] is [0]). *)
Definition get_recent_executions (self : CommandExecutor) (count : nat)
  : list ExecutionResult :=
  let h := execution_history self in
  match count with
  | O => h
  | S _ => skipn (List.length h - count) h
  end.

(** [get_recent_executions(count)] for any integer [count]:
    [self.execution_history[-count:]]. *)
Definition get_recent_executions_int (self : CommandExecutor) (count : Z)
  : list ExecutionResult :=
  slice_from (execution_history self) (- count).

(** The [descriptions] dictionary of [preview_command]. *)
Definition preview_descriptions : list (string * string) :=
  [("ls", "Lists files and folders in current directory");
   ("pwd", "Shows current directory path");
   ("cat", "Displays contents of a file");
   ("head", "Shows first 10 lines of a file");
   ("tail", "Shows last 10 lines of a file");
   ("touch", "Creates a new empty file");
   ("mkdir", "Creates a new directory/folder");
   ("rm", "Deletes a file or directory");
   ("cp", "Copies a file");
   ("mv", "Moves or renames a file");
   ("echo", "Prints text to the screen");
   ("clear", "Clears the screen");
   ("ps", "Shows running processes/programs");
   ("kill", "Stops a running process");
   ("grep", "Searches for text in files");
   ("find", "Finds files and directories");
   ("df", "Shows disk space usage");
   ("whoami", "Shows your username");
   ("hostname", "Shows computer name");
   ("date", "Shows current date and time");
   ("wc", "Counts lines, words, and characters in a file")].

(** The dictionary [preview_command] returns. *)
Record Preview : Type := mkPreview {
  pv_command : string;
  pv_description : string;
  safe : bool
}.

Definition preview_command (command : string) : Preview :=
  match split (strip command) with
  | [] => mkPreview command "Empty command" false
  | cmd :: _ =>
      mkPreview command
        (dict_get preview_descriptions cmd ("Runs the command: " ++ cmd))
        true
  end.

(** *** Notions used to state the properties *)

(** The table entries that need arguments: leading token, number of
    arguments needed, and the message printed when there are fewer.
    ([echo] and [find] need none: they fall back to an empty line and
    to the current directory.) *)
Definition usage_errors : list (string * nat * string) :=
  [("cat", 1%nat, "cat: missing file name");
   ("head", 1%nat, "head: missing file name");
   ("tail", 1%nat, "tail: missing file name");
   ("touch", 1%nat, "touch: missing file name");
   ("mkdir", 1%nat, "mkdir: missing directory name");
   ("rm", 1%nat, "rm: missing file name");
   ("cp", 2%nat, "cp: need source and destination");
   ("mv", 2%nat, "mv: need source and destination");
   ("kill", 1%nat, "kill: missing process ID");
   ("grep", 1%nat, "grep: missing search pattern");
   ("wc", 1%nat, "wc: missing file name")].

(** The table entries that take no argument, with their translation. *)
Definition argument_free : list (string * string) :=
  [("ls", "Get-ChildItem");
   ("pwd", "Get-Location");
   ("clear", "Clear-Host");
   ("ps", "Get-Process | Select-Object ProcessName,Id,CPU");
   ("df", "Get-PSDrive -PSProvider FileSystem");
   ("whoami", "$env:USERNAME");
   ("hostname", "$env:COMPUTERNAME");
   ("date", "Get-Date")].

(** The table entries that read their first argument and no other. *)
Definition first_argument_only : list string :=
  ["cat"; "touch"; "mkdir"; "rm"; "kill"; "find"; "wc"].

(** The command that prints [msg]. *)
Definition print_command (msg : string) : string :=
  "Write-Host " ++ quoted msg.

(** The argument vectors of the processes started, oldest first. *)
Fixpoint spawned (evs : list Event) : list (list string) :=
  match evs with
  | [] => []
  | Spawn argv _ _ :: evs' => argv :: spawned evs'
  | _ :: evs' => spawned evs'
  end.

(** What every finished call looks like: it returned a dictionary for the
    command it was given, [success] says whether the exit code is zero, the
    duration is the difference of two clock readings, the later one taken
    after the earlier one and both during the call, and the history is
    either left alone (by the exception handler, with exit code -1) or
    extended by the returned dictionary. *)
Definition well_formed (env : Env) (self : CommandExecutor) (w : World)
    (cmd : string) (o : Outcome) : Prop :=
  exists r self' w' n m,
    o = (Ok r, self', w')
    /\ command r = cmd
    /\ success r = (exit_code r =? 0)%Z
    /\ duration r = (end_time r - start_time r)%Z
    /\ start_time r = clock env n /\ end_time r = clock env m
    /\ (ticks w <= n)%nat /\ (n < m)%nat /\ (m < ticks w')%nat
    /\ ((self' = self /\ exit_code r = (-1)%Z /\ output r = "")
        \/ self' = set_history self (execution_history self ++ [r])%list).

(** *** Sample environments *)

(** A machine on which no backend can be started. *)
Definition no_backend : Env :=
  mkEnv (fun n => Z.of_nat n)
        (fun _ _ _ =>
           PopenRaises
             (Exception "[WinError 2] The system cannot find the file specified"))
        (fun _ => false)
        (fun _ _ => Raise (Exception "not found")).


(** A child that ends by itself. *)
Definition ending (stdout stderr : string) (rc : Z) : Process :=
  mkProcess (fun _ => Exited (Some stdout) (Some stderr) rc)
            (Reaped (Some stdout) (Some stderr) rc).

(** A machine whose WSL children behave like [wsl_child] and whose
    PowerShell children behave like [native_child]. *)
Definition machine (wsl_child native_child : Process) : Env :=
  mkEnv (fun n => (1000 * Z.of_nat n)%Z)
        (fun argv _ _ =>
           match argv with
           | "wsl" :: _ => Started wsl_child
           | _ => Started native_child
           end)
        (fun _ => true)
        (fun _ _ => Ok (0%Z, None)).

(** A machine all of whose children behave like [child]. *)
Definition uniform (child : Process) : Env :=
  mkEnv (fun n => (1000 * Z.of_nat n)%Z)
        (fun _ _ _ => Started child)
        (fun _ => true)
        (fun _ _ => Ok (0%Z, None)).


Definition fresh : World := mkWorld 0 [].

(** An executor that prefers WSL on a machine that has it, with a timeout
    of five seconds. *)
Definition wsl_executor : CommandExecutor := mkExecutor 5 true true [].

(** An executor on the native backend, with a timeout of five seconds. *)
Definition native_executor : CommandExecutor := mkExecutor 5 false false [].

End CommandExecutor.

(* ================================================================== *)
(** ** [iris_cli_framework/cli_interface.py] *)

Module CLIFramework.
Import Py.

(** What is shown on the console, one constructor per place in the code
    that prints; the text that varies is kept, the markup is not. *)
Inductive Output : Type :=
| PanelWelcome (shell_name version : string)
| InterruptHint
| Goodbye
| PanelHelp
| ErrorMessage (error_message : string)
| StatusLine (line : string)
| Warning (warning : string)
| HighLoad
| Text (text : string)
| RedText (text : string)
| TeamTable
| StatusTable (rows : list (string * string * bool))
| WarningsHeading
| WarningItem (warning : string)
| MetricsTable (rows : list (string * string))
| Suggestion (command explanation confidence : string)
| ConfirmPrompt
| Cancelled.

(** The dictionary [_parse_input] returns. *)
Record ParsedCommand : Type := mkParsed {
  raw : string;
  command : string;
  args : list string;
  is_builtin : bool
}.

Definition builtins : list string :=
  ["exit"; "quit"; "help"; "team"; "status"; "metrics"; "r"].

Definition _parse_input (user_input : string) : ParsedCommand :=
  match split user_input with
  | [] => mkParsed user_input "" [] false
  | command :: args =>
      mkParsed user_input command args
        (existsb (String.eqb command) builtins)
  end.

Record Config : Type := mkConfig {
  cfg_shell_name : option string;
  cfg_version : option string;
  cfg_prompt_symbol : option string
}.

Record CLIFramework : Type := mkCLI {
  shell_name : string;
  version : string;
  prompt_symbol : string;
  running : bool;
  current_directory : string
}.

(** [CLIFramework.__init__(config)]; [cwd] is what [os.getcwd()] returns. *)
Definition __init__ (config : option Config) (cwd : string) : CLIFramework :=
  let config := match config with
                | Some c => c
                | None => mkConfig None None None
                end in
  {| shell_name := match cfg_shell_name config with
                   | Some x => x | None => "Osiris" end;
     version := match cfg_version config with
                | Some x => x | None => "0.1.0" end;
     prompt_symbol := match cfg_prompt_symbol config with
                      | Some x => x | None => "osiris>" end;
     running := false;
     current_directory := cwd |}.

Definition set_running (self : CLIFramework) (b : bool) : CLIFramework :=
  mkCLI (shell_name self) (version self) (prompt_symbol self) b
    (current_directory self).

Definition display_error (error_message : string) : list Output :=
  [ErrorMessage error_message].

(** [handle_builtin(command, args)]: what it returns, the framework and what
    it prints. *)
Definition handle_builtin (self : CLIFramework) (command : string)
    (args : list string) : bool * CLIFramework * list Output :=
  if (command =? "exit") || (command =? "quit") then
    (true, set_running self false, [Goodbye])
  else if command =? "help" then (true, self, [PanelHelp])
  else if command =? "team" then (false, self, [])
  else if command =? "status" then (false, self, [])
  else if command =? "metrics" then (false, self, [])
  else (false, self, []).

End CLIFramework.

(* ================================================================== *)
(** ** [shared/utils.py]: the command history *)

Module CommandHistory.
Import Py.

Record CommandHistory : Type := mkHistory {
  history_file : string;
  max_history : Z;
  commands : list string
}.

(** The history file: its text, or [None] when it does not exist; and
    whether it can be opened for reading and for writing. *)
Record File : Type := mkFile {
  content : option string;
  readable : bool;
  writable : bool
}.

Definition newline : string := String (ascii_of_nat 10) EmptyString.

Definition _load_history (history_file : string) (max_history : Z)
    (f : File) : list string :=
  match content f with
  | None => []
  | Some text =>
      if readable f then slice_from (splitlines text) (- max_history)
      else []
  end.

(** [CommandHistory.__init__(history_file, max_history)] *)
Definition __init__ (history_file : string) (max_history : Z) (f : File)
  : CommandHistory :=
  mkHistory history_file max_history
    (_load_history history_file max_history f).

(** [_save_history]: a file that cannot be opened is left as it is. *)
Definition _save_history (self : CommandHistory) (f : File) : File :=
  if writable f
  then mkFile (Some (join newline (commands self))) (readable f) (writable f)
  else f.

Definition add (self : CommandHistory) (command : string) (f : File)
  : CommandHistory * File :=
  let commands := (commands self ++ [command])%list in
  let commands :=
    if (max_history self <? Z.of_nat (List.length commands))%Z
    then slice_from commands (- max_history self)
    else commands in
  let self := mkHistory (history_file self) (max_history self) commands in
  (self, _save_history self f).

Definition get_recent (self : CommandHistory) (count : Z) : list string :=
  if truthy_list (commands self)
  then slice_from (commands self) (- count) else [].

Definition search (self : CommandHistory) (pattern : string)
  : list string :=
  filter (fun cmd => contains pattern cmd) (commands self).

Definition clear (self : CommandHistory) (f : File)
  : CommandHistory * File :=
  let self := mkHistory (history_file self) (max_history self) [] in
  (self, _save_history self f).

(** A text without any of the characters that end a line. *)
Fixpoint no_linebreak (s : string) : bool :=
  match s with
  | EmptyString => true
  | String c s' => negb (is_linebreak c) && no_linebreak s'
  end.

(** How many of the oldest commands [add] drops. *)
Definition dropped_by_add (self : CommandHistory.CommandHistory) : nat :=
  if (CommandHistory.max_history self =? 0)%Z then 0
  else S (List.length (CommandHistory.commands self))
       - Z.to_nat (CommandHistory.max_history self).

End CommandHistory.

(* ================================================================== *)
(** ** The machine the shell runs on *)

Module Machine.
Import Py.

(** What [psutil] reads in one sampling; floating-point numbers are
    rationals. *)
Record Reading : Type := mkReading {
  r_cpu_percent : Q;
  r_cpu_count : Z;
  r_memory_percent : Q;
  r_memory_available : Z;
  r_memory_total : Z;
  r_disk_percent : Q;
  r_disk_free : Z;
  r_pids : list Z
}.

Record Env : Type := mkEnv {
  (** clock and processes, as the executor sees them *)
  os : CommandExecutor.Env;
  (** the n-th sampling of [psutil]; [None] when one of its calls raises *)
  psutil : nat -> option Reading;
  (** [f"{x:.1f}"] and [f"{x:.2f}"] *)
  format_1f : Q -> string;
  format_2f : Q -> string;
  (** the exchange with the local model: the [command] and [explanation]
      entries of the JSON object in its answer, or [None] when the request
      fails, the answer holds no object, or [command] is not a string *)
  ollama : string -> option (string * string)
}.

Record World : Type := mkWorld {
  exec : CommandExecutor.World;
  samples : nat;
  file : CommandHistory.File;
  console : list CLIFramework.Output
}.

(** A machine with the operating system [os] on which every sampling of
    [psutil] gives [reading], numbers are shown by [show], and the local
    model answers [answer]. *)
Definition plain (os : CommandExecutor.Env) (reading : option Reading)
    (show : Q -> string) (answer : option (string * string)) : Env :=
  mkEnv os (fun _ => reading) show show (fun _ => answer).

(** A world in which nothing has happened yet. *)
Definition fresh : World :=
  mkWorld CommandExecutor.fresh 0 (CommandHistory.mkFile None true true) [].

Definition print (out : list CLIFramework.Output) (w : World) : World :=
  mkWorld (exec w) (samples w) (file w) (console w ++ out)%list.

Definition set_exec (w : World) (e : CommandExecutor.World) : World :=
  mkWorld e (samples w) (file w) (console w).

Definition set_file (w : World) (f : CommandHistory.File) : World :=
  mkWorld (exec w) (samples w) f (console w).

End Machine.

(* ================================================================== *)
(** ** [prabal_efficiency_metrics/system_monitor.py] *)

Module SystemMonitor.
Import Py Machine.

Record Config : Type := mkConfig {
  cfg_cpu_high : option Q;
  cfg_memory_high : option Q;
  cfg_disk_high : option Q
}.

Record SystemMonitor : Type := mkMonitor {
  cpu_high_threshold : Q;
  memory_high_threshold : Q;
  disk_high_threshold : Q
}.

Definition __init__ (config : option Config) : SystemMonitor :=
  let config := match config with
                | Some c => c
                | None => mkConfig None None None
                end in
  {| cpu_high_threshold :=
       match cfg_cpu_high config with Some x => x | None => 80%Q end;
     memory_high_threshold :=
       match cfg_memory_high config with Some x => x | None => 85%Q end;
     disk_high_threshold :=
       match cfg_disk_high config with Some x => x | None => 90%Q end |}.

(** The dictionary [get_current_metrics] returns. *)
Record Metrics : Type := mkMetrics {
  timestamp : Z;
  cpu_percent : Q;
  cpu_count : Z;
  memory_percent : Q;
  memory_available_gb : Q;
  memory_total_gb : Q;
  disk_percent : Q;
  disk_free_gb : Q;
  process_count : Z
}.

(** [1024 ** 3] *)
Definition gib : Q := inject_Z (1024 ^ 3).

Definition get_current_metrics (env : Env) (w : World)
  : option Metrics * World :=
  match psutil env (samples w) with
  | None => (None, mkWorld (exec w) (S (samples w)) (file w) (console w))
  | Some r =>
      let '(now, e) := CommandExecutor.now (os env) (exec w) in
      (Some {| timestamp := now;
               cpu_percent := r_cpu_percent r;
               cpu_count := r_cpu_count r;
               memory_percent := r_memory_percent r;
               memory_available_gb :=
                 (inject_Z (r_memory_available r) / gib)%Q;
               memory_total_gb := (inject_Z (r_memory_total r) / gib)%Q;
               disk_percent := r_disk_percent r;
               disk_free_gb := (inject_Z (r_disk_free r) / gib)%Q;
               process_count := Z.of_nat (List.length (r_pids r)) |},
       mkWorld e (S (samples w)) (file w) (console w))
  end.

(** The dictionary [check_resource_pressure] returns. *)
Record Pressure : Type := mkPressure {
  cpu_pressure : bool;
  memory_pressure : bool;
  disk_pressure : bool;
  warnings : list string
}.

(** [a > b] on floating-point numbers. *)
Definition gt (a b : Q) : bool := negb (Qle_bool a b).

Definition check_resource_pressure (env : Env) (self : SystemMonitor)
    (metrics : option Metrics) (w : World) : Pressure * World :=
  let '(metrics, w) := match metrics with
                       | None => get_current_metrics env w
                       | Some m => (Some m, w)
                       end in
  match metrics with
  | None => (mkPressure false false false ["Could not get system metrics"], w)
  | Some metrics =>
      let cpu_high := gt (cpu_percent metrics) (cpu_high_threshold self) in
      let memory_high :=
        gt (memory_percent metrics) (memory_high_threshold self) in
      let disk_high :=
        gt (disk_percent metrics) (disk_high_threshold self) in
      let cpu_warning :=
        "High CPU usage: " ++ format_1f env (cpu_percent metrics) ++ "%" in
      let memory_warning :=
        "High memory usage: " ++ format_1f env (memory_percent metrics)
        ++ "%" in
      let disk_warning :=
        "High disk usage: " ++ format_1f env (disk_percent metrics) ++ "%" in
      let warnings :=
        ((if cpu_high then [cpu_warning] else [])
         ++ (if memory_high then [memory_warning] else [])
         ++ (if disk_high then [disk_warning] else []))%list in
      (mkPressure cpu_high memory_high disk_high warnings, w)
  end.

(** [format_metrics_display]: the line it builds, with ["HIGH"] and ["OK"]
    for the red and the green mark and ["?"] for the cross. *)
Definition format_metrics_display (env : Env) (self : SystemMonitor)
    (metrics : option Metrics) (w : World) : string * World :=
  let '(metrics, w) := match metrics with
                       | None => get_current_metrics env w
                       | Some m => (Some m, w)
                       end in
  match metrics with
  | None => ("? Could not get system metrics", w)
  | Some m =>
      let '(pressure, w) := check_resource_pressure env self (Some m) w in
      let icon (b : bool) := if b then "HIGH" else "OK" in
      (icon (cpu_pressure pressure) ++ " CPU: "
       ++ format_1f env (cpu_percent m) ++ "% | "
       ++ icon (memory_pressure pressure) ++ " MEM: "
       ++ format_1f env (memory_percent m) ++ "% | "
       ++ icon (disk_pressure pressure) ++ " DISK: "
       ++ format_1f env (disk_percent m) ++ "% | "
       ++ "Processes: " ++ str_of_Z (process_count m), w)
  end.

End SystemMonitor.

(* ================================================================== *)
(** ** [shared/command_r.py] *)

Module CommandR.
Import Py Machine.

Record CommandSuggestion : Type := mkSuggestion {
  command : string;
  explanation : string;
  confidence : Q
}.

(** One entry of [self.examples]; an entry of the dictionary that is not
    there is [None]. *)
Record Example : Type := mkExample {
  patterns : list string;
  template : option string;
  default_name : option string;
  ex_command : option string;
  ex_explanation : option string
}.

Record CommandRModel : Type := mkModel {
  enabled : bool;
  examples : list Example
}.

Definition builtin_examples : list Example :=
  [mkExample ["make a folder"; "create a folder"; "new folder"]
     (Some "mkdir {name}") (Some "new_folder") None
     (Some "Creates a new directory.");
   mkExample ["list files"; "show files"; "show directory"; "show folders"]
     None None (Some "ls")
     (Some "Lists files and directories in the current folder.");
   mkExample ["where am i"; "current directory"; "show current directory"]
     None None (Some "pwd")
     (Some "Shows the current working directory.");
   mkExample ["delete folder"; "remove folder"]
     (Some "rm {name}") (Some "folder_to_delete") None
     (Some "Deletes a folder or file.")].

(** [CommandRModel.__init__(config)]; reading the documents and building
    the index touch nothing that is modelled. *)
Definition __init__ (cfg_enabled : option bool) : CommandRModel :=
  mkModel (match cfg_enabled with Some b => b | None => true end)
    builtin_examples.

Definition KeyError (key : string) : Exn := Exception ("'" ++ key ++ "'").

Definition _extract_name (text prefix default : string) : string :=
  let rest := strip (drop (String.length prefix) text) in
  if negb (truthy_str rest) then default
  else match split rest with
       | w :: _ => w
       | [] => default
       end.

(** The inner loop of [_pattern_match]: the first pattern of [example]
    that [text] starts with decides. *)
Fixpoint match_patterns (example : Example) (pats : list string)
    (text : string) : Res (option CommandSuggestion) :=
  match pats with
  | [] => Ok None
  | pat :: pats' =>
      if startswith text pat then
        cmd <- match template example with
               | Some template =>
                   let name := _extract_name text pat
                                 (match default_name example with
                                  | Some d => d | None => "item" end) in
                   Ok (format_name template name)
               | None =>
                   match ex_command example with
                   | Some c => Ok c
                   | None => Raise (KeyError "command")
                   end
               end ;;
        Ok (Some (mkSuggestion cmd
                    (match ex_explanation example with
                     | Some e => e | None => "" end)
                    (8 # 10)))
      else match_patterns example pats' text
  end.

Fixpoint _pattern_match_in (exs : list Example) (text : string)
  : Res (option CommandSuggestion) :=
  match exs with
  | [] => Ok None
  | example :: exs' =>
      r <- match_patterns example (patterns example) text ;;
      match r with
      | Some s => Ok (Some s)
      | None => _pattern_match_in exs' text
      end
  end.

Definition _pattern_match (self : CommandRModel) (text : string)
  : Res (option CommandSuggestion) :=
  _pattern_match_in (examples self) text.

Definition _rag_suggest (env : Env) (text : string)
  : option CommandSuggestion :=
  match ollama env text with
  | Some (cmd, expl) =>
      if negb (truthy_str cmd) then None
      else Some (mkSuggestion cmd expl (7 # 10))
  | None => None
  end.

Definition suggest (env : Env) (self : CommandRModel) (instruction : string)
  : Res (option CommandSuggestion) :=
  if negb (enabled self) then Ok None
  else
    let text := lower (strip instruction) in
    if negb (truthy_str text) then Ok None
    else
      suggestion <- _pattern_match self text ;;
      match suggestion with
      | Some s => Ok (Some s)
      | None => Ok (_rag_suggest env text)
      end.

End CommandR.

(* ================================================================== *)
(** ** [osiris_team.py] *)

Module OsirisTeamShell.
Import Py Machine CLIFramework.

Record OsirisTeamShell : Type := mkShell {
  history : CommandHistory.CommandHistory;
  command_r : CommandR.CommandRModel;
  cli : CLIFramework.CLIFramework;
  executor : CommandExecutor.CommandExecutor;
  safety_gate : SafetyGate.SafetyGate;
  system_monitor : SystemMonitor.SystemMonitor
}.

Definition set_history (sh : OsirisTeamShell)
    (h : CommandHistory.CommandHistory) : OsirisTeamShell :=
  mkShell h (command_r sh) (cli sh) (executor sh) (safety_gate sh)
    (system_monitor sh).

Definition set_cli (sh : OsirisTeamShell) (c : CLIFramework.CLIFramework)
  : OsirisTeamShell :=
  mkShell (history sh) (command_r sh) c (executor sh) (safety_gate sh)
    (system_monitor sh).

Definition set_executor (sh : OsirisTeamShell)
    (e : CommandExecutor.CommandExecutor) : OsirisTeamShell :=
  mkShell (history sh) (command_r sh) (cli sh) e (safety_gate sh)
    (system_monitor sh).

(** What the user does when the shell reads a line: type one, or press
    Ctrl+C. The end of the input is the end of the list. *)
Inductive UserAction : Type :=
| Typed (line : string)
| Interrupt.

(** How [run] ends: its loop ends, a [KeyboardInterrupt] leaves it, or an
    exception does. *)
Inductive Ending : Type :=
| Finished
| Interrupted
| Failed (e : Exn).

(** After one command: go on with the loop, or leave [run]. *)
Inductive Flow : Type :=
| Continue
| Leave (how : Ending).

(** Step 5 of [run]: show the result. *)
Definition show_result (result : CommandExecutor.ExecutionResult)
  : list Output :=
  if CommandExecutor.success result then
    if truthy_str (strip (CommandExecutor.output result))
    then [Text (CommandExecutor.output result)] else []
  else
    (display_error ("Command failed (exit code: "
                    ++ str_of_Z (CommandExecutor.exit_code result) ++ ")")
     ++ (if truthy_str (strip (CommandExecutor.error result))
         then [RedText (CommandExecutor.error result)] else []))%list.

Definition show_warnings (warnings : list string) : list Output :=
  map Warning warnings.

Definition _display_welcome (env : Env) (sh : OsirisTeamShell) (w : World)
  : World :=
  let '(metrics, w) :=
    SystemMonitor.get_current_metrics env w in
  let '(status_line, w) :=
    SystemMonitor.format_metrics_display env (system_monitor sh) metrics w in
  print [StatusLine status_line] w.

Definition _show_team_info (w : World) : World := print [TeamTable] w.

Definition _show_status (env : Env) (sh : OsirisTeamShell) (w : World)
  : World :=
  let '(metrics, w) := SystemMonitor.get_current_metrics env w in
  match metrics with
  | None => print (display_error "Could not get system metrics") w
  | Some m =>
      let '(pressure, w) :=
        SystemMonitor.check_resource_pressure env (system_monitor sh)
          (Some m) w in
      let cpu := format_1f env (SystemMonitor.cpu_percent m) ++ "%" in
      let mem := format_1f env (SystemMonitor.memory_percent m) ++ "%" in
      let disk := format_1f env (SystemMonitor.disk_percent m) ++ "%" in
      let procs := str_of_Z (SystemMonitor.process_count m) in
      let table :=
        StatusTable
          [("CPU", cpu, SystemMonitor.cpu_pressure pressure);
           ("Memory", mem, SystemMonitor.memory_pressure pressure);
           ("Disk", disk, SystemMonitor.disk_pressure pressure);
           ("Processes", procs, false)] in
      let w := print [table] w in
      if truthy_list (SystemMonitor.warnings pressure)
      then print (WarningsHeading
                  :: map WarningItem (SystemMonitor.warnings pressure)) w
      else w
  end.

Definition _show_metrics (env : Env) (sh : OsirisTeamShell) (w : World)
  : World :=
  let '(metrics, w) := SystemMonitor.get_current_metrics env w in
  match metrics with
  | None => print (display_error "Could not get system metrics") w
  | Some m =>
      let pct (x : Q) := format_1f env x ++ "%" in
      let gb (x : Q) := format_2f env x ++ " GB" in
      print
        [MetricsTable
           [("CPU Usage", pct (SystemMonitor.cpu_percent m));
            ("CPU Cores", str_of_Z (SystemMonitor.cpu_count m));
            ("Memory Usage", pct (SystemMonitor.memory_percent m));
            ("Memory Available", gb (SystemMonitor.memory_available_gb m));
            ("Memory Total", gb (SystemMonitor.memory_total_gb m));
            ("Disk Usage", pct (SystemMonitor.disk_percent m));
            ("Disk Free", gb (SystemMonitor.disk_free_gb m));
            ("Running Processes",
             str_of_Z (SystemMonitor.process_count m))]] w
  end.

(** What a step hands back: how to go on, the shell, the world, and whether
    it read the next user action. [None] is a nesting of [execute] deeper
    than modelled. *)
Definition Step : Type :=
  option (Flow * OsirisTeamShell * World * bool).

(** [_handle_rag_command(args)]; [next] is what the user does next, read
    by [input()] when the suggestion is to be confirmed. *)
Definition _handle_rag_command (env : Env) (sh : OsirisTeamShell)
    (w : World) (args : list string) (next : option UserAction) : Step :=
  if negb (truthy_list args) then
    Some (Continue, sh,
          print (display_error "Usage: r <natural language instruction>") w,
          false)
  else
    let instruction := strip (lower (join " " args)) in
    match CommandR.suggest env (command_r sh) instruction with
    | Raise e => Some (Leave (Failed e), sh, w, false)
    | Ok None =>
        Some (Continue, sh,
              print (display_error
                       "Command R could not understand that request yet.") w,
              false)
    | Ok (Some suggestion) =>
        let command := CommandR.command suggestion in
        let w := print [Suggestion command (CommandR.explanation suggestion)
                          (format_2f env (CommandR.confidence suggestion));
                        ConfirmPrompt] w in
        match next with
        | Some Interrupt => Some (Leave Interrupted, sh, w, true)
        | _ =>
          let choice := match next with
                        | Some (Typed line) => lower (strip line)
                        | _ => "n"
                        end in
          let consumed := match next with Some _ => true | None => false end in
          if negb (existsb (String.eqb choice) ["y"; "yes"]) then
            Some (Continue, sh, print [Cancelled] w, consumed)
          else
            let safety_result :=
              SafetyGate.evaluate_command (safety_gate sh) command in
            if negb (SafetyGate.allowed safety_result) then
              Some (Continue, sh,
                    print (display_error
                             ("BLOCKED: "
                              ++ SafetyGate.reason safety_result)) w,
                    consumed)
            else
              let w := print (show_warnings
                                (SafetyGate.warnings safety_result)) w in
              match CommandExecutor.execute (os env) (executor sh) (exec w)
                      command None None true (Some false) with
              | None => None
              | Some (Raise e, ex, e_world) =>
                  Some (Leave (Failed e), set_executor sh ex,
                        set_exec w e_world, consumed)
              | Some (Ok result, ex, e_world) =>
                  Some (Continue, set_executor sh ex,
                        print (show_result result) (set_exec w e_world),
                        consumed)
              end
        end
    end.

(** [_handle_special_command(parsed_command)] *)
Definition _handle_special_command (env : Env) (sh : OsirisTeamShell)
    (w : World) (parsed_command : ParsedCommand)
    (next : option UserAction) : Step :=
  let cmd := command parsed_command in
  if cmd =? "team" then Some (Continue, sh, _show_team_info w, false)
  else if cmd =? "status" then Some (Continue, sh, _show_status env sh w, false)
  else if cmd =? "metrics" then
    Some (Continue, sh, _show_metrics env sh w, false)
  else if cmd =? "r" then
    _handle_rag_command env sh w (args parsed_command) next
  else Some (Continue, sh, w, false).

(** The body of the loop of [run], for one parsed command. *)
Definition process_command (env : Env) (sh : OsirisTeamShell) (w : World)
    (parsed_command : ParsedCommand) (next : option UserAction) : Step :=
  (* save command to history *)
  let '(h, f) := CommandHistory.add (history sh) (raw parsed_command)
                   (file w) in
  let sh := set_history sh h in
  let w := set_file w f in
  (* step 1 *)
  if is_builtin parsed_command then
    if existsb (String.eqb (command parsed_command)) ["exit"; "quit"; "help"]
    then
      let '(_, c, out) := handle_builtin (cli sh) (command parsed_command)
                            (args parsed_command) in
      Some (Continue, set_cli sh c, print out w, false)
    else _handle_special_command env sh w parsed_command next
  else
    (* step 2 *)
    let safety_result :=
      SafetyGate.evaluate_command (safety_gate sh) (raw parsed_command) in
    if negb (SafetyGate.allowed safety_result) then
      Some (Continue, sh,
            print (display_error
                     ("BLOCKED: " ++ SafetyGate.reason safety_result)) w,
            false)
    else
      let w := print (show_warnings (SafetyGate.warnings safety_result)) w in
      (* step 3 *)
      let '(metrics, w) := SystemMonitor.get_current_metrics env w in
      let '(pressure, w) :=
        SystemMonitor.check_resource_pressure env (system_monitor sh)
          metrics w in
      let w := if SystemMonitor.cpu_pressure pressure
                  || SystemMonitor.memory_pressure pressure
               then print [HighLoad] w else w in
      (* step 4 *)
      match CommandExecutor.execute (os env) (executor sh) (exec w)
              (raw parsed_command) None None true None with
      | None => None
      | Some (Raise e, ex, e_world) =>
          Some (Leave (Failed e), set_executor sh ex, set_exec w e_world,
                false)
      | Some (Ok result, ex, e_world) =>
          (* step 5 *)
          Some (Continue, set_executor sh ex,
                print (show_result result) (set_exec w e_world), false)
      end.

(** The loop of [CLIFramework.start] with the body of [run] at its
    [yield]. *)
Fixpoint loop (env : Env) (inputs : list UserAction) (sh : OsirisTeamShell)
    (w : World) : option (Ending * OsirisTeamShell * World) :=
  if negb (running (cli sh)) then Some (Finished, sh, w)
  else
    match inputs with
    | [] => Some (Finished, set_cli sh (set_running (cli sh) false), w)
    | Interrupt :: rest => loop env rest sh (print [InterruptHint] w)
    | Typed user_input :: rest =>
        if negb (truthy_str user_input) || (strip user_input =? "")
        then loop env rest sh w
        else
          let parsed := _parse_input (strip user_input) in
          match rest with
          | [] =>
              match process_command env sh w parsed None with
              | None => None
              | Some (Leave how, sh, w, _) => Some (how, sh, w)
              | Some (Continue, sh, w, _) => loop env rest sh w
              end
          | next :: rest' =>
              match process_command env sh w parsed (Some next) with
              | None => None
              | Some (Leave how, sh, w, _) => Some (how, sh, w)
              | Some (Continue, sh, w, consumed) =>
                  if consumed then loop env rest' sh w
                  else loop env rest sh w
              end
          end
    end.

(** [OsirisTeamShell.run] on the user actions [inputs]. *)
Definition run (env : Env) (inputs : list UserAction) (sh : OsirisTeamShell)
    (w : World) : option (Ending * OsirisTeamShell * World) :=
  let w := _display_welcome env sh w in
  let sh := set_cli sh (set_running (cli sh) true) in
  let w := print [PanelWelcome (shell_name (cli sh)) (version (cli sh))] w in
  loop env inputs sh w.

(** A shell as [OsirisTeamShell()] sets it up with no configuration, on a
    machine without WSL, and with its prompt loop running. *)
Definition sample_shell : OsirisTeamShell :=
  mkShell (CommandHistory.mkHistory ".osiris_history" 1000 [])
    (CommandR.__init__ None)
    (set_running (CLIFramework.__init__ None "C:/") true)
    CommandExecutor.native_executor
    (SafetyGate.__init__ None)
    (SystemMonitor.__init__ None).

(** A machine all of whose children print "ok" and end with code zero,
    whose monitor cannot be read and whose local model does not answer. *)
Definition sample_env : Env :=
  plain (CommandExecutor.uniform (CommandExecutor.ending "ok" "" 0)) None
    (fun _ => "") None.

(** [argv] is what [execute] starts for [command], and [gate] allows
    [command]: the command itself under WSL, or its translation under
    PowerShell. *)
Definition started_for (gate : SafetyGate.SafetyGate) (command : string)
    (argv : list string) : Prop :=
  SafetyGate.allowed (SafetyGate.evaluate_command gate command) = true
  /\ (argv = CommandExecutor.popen_cmd true command
      \/ exists c,
           CommandExecutor.backend_command false command = Ok c
           /\ argv = CommandExecutor.popen_cmd false c).

(** [command] is what one turn of the loop of [run] is asked to run: the
    line typed, when it is not a built-in, or, for the built-in [r], the
    suggestion of Command R for its arguments, which the user confirms with
    "y" or "yes" in what is typed next. *)
Definition requested_by (env : Env) (model : CommandR.CommandRModel)
    (parsed_command : ParsedCommand) (next : option UserAction)
    (command : string) : Prop :=
  (is_builtin parsed_command = false /\ command = raw parsed_command)
  \/ (CLIFramework.command parsed_command = "r"
      /\ exists suggestion answer,
           CommandR.suggest env model
             (strip (lower (join " " (args parsed_command))))
           = Ok (Some suggestion)
           /\ command = CommandR.command suggestion
           /\ next = Some (Typed answer)
           /\ In (lower (strip answer)) ["y"; "yes"]).

(** [argv] was started for a line of [inputs]: the line is in [inputs],
    with what was typed after it, it asks for a command, the gate allows
    that command, and [argv] is what [execute] starts for it. *)
Definition started_in_session (env : Env) (gate : SafetyGate.SafetyGate)
    (model : CommandR.CommandRModel) (inputs : list UserAction)
    (argv : list string) : Prop :=
  exists before line after command,
    inputs = (before ++ Typed line :: after)%list
    /\ requested_by env model (_parse_input (strip line)) (hd_error after)
         command
    /\ started_for gate command argv.

(** What a step may change of the world besides the console: sampling the
    monitor reads the clock and starts nothing. *)
Definition quiet (w w' : Machine.World) : Prop :=
  CommandExecutor.events (Machine.exec w')
  = CommandExecutor.events (Machine.exec w)
  /\ Machine.file w' = Machine.file w.

End OsirisTeamShell.

(* ================================================================== *)
(** ** Facts about Python strings *)

Module PyFacts.
Import Py.

Lemma contains_head (c : ascii) (p s : string) :
  contains (String c p) s = true -> has_char c s = true.
Proof.
  induction s as [|d s IH]; simpl.
  - discriminate.
  - intros H. apply orb_true_iff in H. destruct H as [H|H].
    + destruct (ascii_dec c d) as [->|]; [|discriminate].
      now rewrite Ascii.eqb_refl.
    + rewrite (IH H). apply orb_true_r.
Qed.

Lemma all_space_has_char (c : ascii) (s : string) :
  all_space s = true -> has_char c s = true -> isspace c = true.
Proof.
  induction s as [|d s IH]; simpl; [discriminate|].
  intros Hs Hc. apply andb_true_iff in Hs. destruct Hs as [Hd Hs].
  apply orb_true_iff in Hc. destruct Hc as [Hc|Hc]; [|now apply IH].
  apply Ascii.eqb_eq in Hc. now subst.
Qed.

(** A pattern that starts with a visible character does not occur in a
    blank string. *)
Lemma blank_no_match (c : ascii) (p s : string) :
  isspace c = false -> all_space s = true -> contains (String c p) s = false.
Proof.
  intros Hc Hs. destruct (contains (String c p) s) eqn:E; [|reflexivity].
  apply contains_head in E. apply (all_space_has_char _ _ Hs) in E. congruence.
Qed.

Lemma isspace_lower_char (c : ascii) : isspace c = true -> lower_char c = c.
Proof.
  destruct c as [[] [] [] [] [] [] [] []]; vm_compute;
    intros H; try reflexivity; discriminate H.
Qed.

Lemma blank_lower (s : string) : all_space s = true -> lower s = s.
Proof.
  induction s as [|c s IH]; simpl; [reflexivity|].
  intros H. apply andb_true_iff in H. destruct H as [Hc Hs].
  now rewrite (isspace_lower_char _ Hc), (IH Hs).
Qed.

Lemma blank_split (s : string) : all_space s = true -> split s = [].
Proof.
  unfold split. induction s as [|c s IH]; simpl; [reflexivity|].
  intros H. apply andb_true_iff in H. destruct H as [Hc Hs].
  rewrite Hc. now apply IH.
Qed.

(** Reading on after a non-empty run yields at least one word. *)
Lemma split_from_nonempty (s cur : string) :
  cur <> EmptyString -> split_from cur s <> [].
Proof.
  revert cur. induction s as [|c s IH]; intros cur Hcur; simpl.
  - destruct cur; [congruence|discriminate].
  - destruct (isspace c).
    + destruct cur; [congruence|discriminate].
    + apply IH. destruct cur; discriminate.
Qed.

Lemma lstrip_head (s : string) :
  lstrip s = EmptyString \/
  exists c s', lstrip s = String c s' /\ isspace c = false.
Proof.
  induction s as [|c s IH]; simpl; [now left|].
  destruct (isspace c) eqn:E; [exact IH|].
  right. now exists c, s.
Qed.

(** A stripped string that is not empty splits into at least one word. *)
Lemma split_strip_nonempty (s : string) :
  truthy_str (strip s) = true -> split (strip s) <> [].
Proof.
  unfold strip. destruct (lstrip_head (rstrip s)) as [E|(c & s' & E & Hc)];
    rewrite E; simpl; [discriminate|].
  intros _. unfold split. simpl. rewrite Hc. simpl.
  apply split_from_nonempty. discriminate.
Qed.

Lemma index_0_cons {A} (a : A) (l : list A) : index (a :: l) 0 = Ok a.
Proof.
  unfold index. cbn [List.length Z.ltb Z.compare].
  replace ((0 <=? 0)%Z && (0 <? Z.of_nat (S (List.length l)))%Z) with true.
  - reflexivity.
  - symmetry. apply andb_true_iff. split; [reflexivity|]. apply Z.ltb_lt. lia.
Qed.

Lemma index_1_cons {A} (a b : A) (l : list A) : index (a :: b :: l) 1 = Ok b.
Proof.
  unfold index. cbn [List.length Z.ltb Z.compare].
  replace ((0 <=? 1)%Z && (1 <? Z.of_nat (S (S (List.length l))))%Z) with true.
  - reflexivity.
  - symmetry. apply andb_true_iff. split; [reflexivity|]. apply Z.ltb_lt. lia.
Qed.

(** Indexing a non-empty list from the end with [-1] yields its last
    element. *)
Lemma index_last {A} (l : list A) :
  l <> [] -> exists a, index l (-1) = Ok a.
Proof.
  intros Hl. unfold index. cbn [Z.ltb Z.compare].
  assert (Hlen : (0 < List.length l)%nat)
    by (destruct l; [congruence|simpl; lia]).
  replace ((0 <=? -1 + Z.of_nat (List.length l))%Z
           && (-1 + Z.of_nat (List.length l) <? Z.of_nat (List.length l))%Z)
    with true.
  - destruct (nth_error l (Z.to_nat (-1 + Z.of_nat (List.length l)))) eqn:E.
    + now exists a.
    + apply nth_error_None in E. lia.
  - symmetry. apply andb_true_iff. split; [apply Z.leb_le|apply Z.ltb_lt]; lia.
Qed.

End PyFacts.

(* ================================================================== *)
(** ** The risk classifier *)

Module SafetyGateFacts.
Import Py PyFacts SafetyGate.

(** What [evaluate_command] does once the gate is known to be on: the four
    checks in turn, each one only when the ones before it did not match. *)
Lemma evaluate_command_traced_enabled (self : SafetyGate) (command : string) :
  enabled self = true ->
  evaluate_command_traced self command =
    if fst (_is_critical_command self command) then
      (mkVerdict false CRITICAL (snd (_is_critical_command self command))
         ["This command could destroy your system!"],
       [CriticalCheck])
    else if fst (_is_high_risk_command self command) then
      (mkVerdict false HIGH (snd (_is_high_risk_command self command))
         ["This command is very dangerous!"],
       [CriticalCheck; HighRiskCheck])
    else if fst (_is_medium_risk_command self command) then
      (mkVerdict true MEDIUM "" [snd (_is_medium_risk_command self command)],
       [CriticalCheck; HighRiskCheck; MediumRiskCheck])
    else if fst (_needs_confirmation self command) then
      (mkVerdict true LOW "" [snd (_needs_confirmation self command)],
       [CriticalCheck; HighRiskCheck; MediumRiskCheck; ConfirmationCheck])
    else
      (mkVerdict true SAFE "" [],
       [CriticalCheck; HighRiskCheck; MediumRiskCheck; ConfirmationCheck]).
Proof.
  intros Hen. unfold evaluate_command_traced, then_, call, ret.
  rewrite Hen. cbn [negb run_check fst snd].
  destruct (_is_critical_command self command) as [[] ?]; cbn; [reflexivity|].
  destruct (_is_high_risk_command self command) as [[] ?]; cbn; [reflexivity|].
  destruct (_is_medium_risk_command self command) as [[] ?]; cbn;
    [reflexivity|].
  destruct (_needs_confirmation self command) as [[] ?]; reflexivity.
Qed.

Lemma evaluate_command_disabled (self : SafetyGate) (command : string) :
  enabled self = false ->
  evaluate_command_traced self command = (disabled_verdict, []).
Proof.
  intros Hen. unfold evaluate_command_traced. now rewrite Hen.
Qed.

(** No check matches a blank command when the two configured lists are
    empty. *)
Ltac blank_patterns Hs :=
  repeat (match goal with
          | |- context [contains (String ?c ?p) ?s] =>
              rewrite (blank_no_match c p s (eq_refl false) Hs)
          end; cbn [andb orb]).

Lemma critical_blank (self : SafetyGate) (command : string) :
  dangerous_commands self = [] -> all_space command = true ->
  _is_critical_command self command = (false, "").
Proof.
  intros Hd Hs. unfold _is_critical_command.
  rewrite (blank_lower _ Hs), Hd. cbn [existsb find].
  blank_patterns Hs. reflexivity.
Qed.

Lemma high_risk_blank (self : SafetyGate) (command : string) :
  all_space command = true -> _is_high_risk_command self command = (false, "").
Proof.
  intros Hs. unfold _is_high_risk_command.
  rewrite (blank_lower _ Hs). cbn [existsb].
  blank_patterns Hs. reflexivity.
Qed.

Lemma medium_risk_blank (self : SafetyGate) (command : string) :
  sensitive_paths self = [] -> all_space command = true ->
  _is_medium_risk_command self command = (false, "").
Proof.
  intros Hp Hs. unfold _is_medium_risk_command.
  rewrite (blank_lower _ Hs), Hp. cbn [find].
  blank_patterns Hs. reflexivity.
Qed.

Lemma confirmation_blank (self : SafetyGate) (command : string) :
  all_space command = true -> _needs_confirmation self command = (false, "").
Proof.
  intros Hs. unfold _needs_confirmation.
  now rewrite (blank_lower _ Hs), (blank_split _ Hs).
Qed.

(** The recursive-delete rule of [_is_high_risk_command] is the only one
    that gives this reason. *)
Lemma recursive_delete_rule (self : SafetyGate) (command : string) :
  snd (_is_high_risk_command self command) = "Recursive delete detected" <->
  (contains "rm -rf" command || contains "rm -fr" command = true
   /\ contains "/" command = false).
Proof.
  unfold _is_high_risk_command.
  destruct (contains "rm -rf" command || contains "rm -fr" command);
    destruct (contains "/" command); cbn [andb negb].
  2: { split; [now split | reflexivity]. }
  all: split; [| intros [H1 H2]; discriminate ].
  all: repeat match goal with
              | |- context [if ?b then _ else _] => destruct b
              end; cbn [snd]; intros H; discriminate H.
Qed.

(** C2. With the default configuration (classifier on), ["rm -rf foo"] is
    blocked as HIGH by the recursive-delete rule, ["rm -rf sub/dir"] is not
    HIGH and not blocked (it only asks for confirmation), and for every gate
    and command the recursive-delete rule fires exactly when the command has
    a recursive-force flag and no path separator at all. *)
Theorem recursive_delete_fires_only_without_separator :
  evaluate_command (__init__ None) "rm -rf foo"
    = mkVerdict false HIGH "Recursive delete detected"
        ["This command is very dangerous!"]
  /\ evaluate_command (__init__ None) "rm -rf sub/dir"
    = mkVerdict true LOW "" ["'rm' command requires confirmation"]
  /\ risk_level (evaluate_command (__init__ None) "rm -rf sub/dir") <> HIGH
  /\ forall self command,
       snd (_is_high_risk_command self command) = "Recursive delete detected"
       -> contains "/" command = false.
Proof.
  repeat split; try reflexivity.
  - vm_compute. discriminate.
  - intros self command H. now apply recursive_delete_rule in H.
Qed.

Lemma recursive_delete_fires_only_without_separator_witness :
  snd (_is_high_risk_command (__init__ None) "rm -rf foo")
    = "Recursive delete detected"
  /\ contains "/" "rm -rf foo" = false.
Proof.
  split; [reflexivity|].
  apply (proj2 (proj2 (proj2 recursive_delete_fires_only_without_separator))
           (__init__ None) "rm -rf foo").
  reflexivity.
Defined.

(** C3, as stated: for every command and configuration, a command that
    matches both a CRITICAL and a MEDIUM pattern classifies as CRITICAL.
    A gate that is switched off refutes it: ["rm -rf /*"] matches the
    root-delete pattern and the wildcard-delete pattern and is SAFE. *)
Lemma priority_for_every_configuration_fails :
  ~ (forall (self : SafetyGate) (command : string),
       fst (_is_critical_command self command) = true ->
       fst (_is_medium_risk_command self command) = true ->
       risk_level (evaluate_command self command) = CRITICAL).
Proof.
  intros H.
  specialize (H (mkSafetyGate false false [] []) "rm -rf /*"
                eq_refl eq_refl).
  discriminate H.
Qed.

(** C3, amended. For every command and every configuration with the
    classifier on, the checks run in the order CRITICAL, HIGH, MEDIUM,
    confirmation, and the first one that matches decides: the verdict is
    that check's level, and the checks called are exactly those up to and
    including it; SAFE is returned only when none matched. In particular a
    command matching both a CRITICAL and a MEDIUM pattern is CRITICAL and
    the MEDIUM check is not called for it. *)
Theorem first_matching_check_wins (self : SafetyGate) (command : string) :
  enabled self = true ->
  let v := evaluate_command self command in
  let called := checks_called self command in
  let critical := fst (_is_critical_command self command) in
  let high := fst (_is_high_risk_command self command) in
  let medium := fst (_is_medium_risk_command self command) in
  let confirm := fst (_needs_confirmation self command) in
  (critical = true ->
     risk_level v = CRITICAL /\ allowed v = false
     /\ called = [CriticalCheck])
  /\ (critical = false -> high = true ->
     risk_level v = HIGH /\ allowed v = false
     /\ called = [CriticalCheck; HighRiskCheck])
  /\ (critical = false -> high = false -> medium = true ->
     risk_level v = MEDIUM /\ allowed v = true
     /\ called = [CriticalCheck; HighRiskCheck; MediumRiskCheck])
  /\ (critical = false -> high = false -> medium = false -> confirm = true ->
     risk_level v = LOW /\ allowed v = true
     /\ called = [CriticalCheck; HighRiskCheck; MediumRiskCheck;
                  ConfirmationCheck])
  /\ (critical = false -> high = false -> medium = false -> confirm = false ->
     risk_level v = SAFE /\ allowed v = true
     /\ called = [CriticalCheck; HighRiskCheck; MediumRiskCheck;
                  ConfirmationCheck])
  /\ (critical = true -> medium = true ->
     risk_level v = CRITICAL /\ ~ In MediumRiskCheck called).
Proof.
  intros Hen. unfold evaluate_command, checks_called.
  rewrite (evaluate_command_traced_enabled _ _ Hen). cbv zeta.
  repeat split; intros;
    repeat match goal with
           | H : _ = _ |- _ => rewrite H; clear H
           end; cbn; try reflexivity.
  intros [E|[]]. discriminate E.
Qed.

Lemma first_matching_check_wins_witness :
  enabled (__init__ None) = true
  /\ risk_level (evaluate_command (__init__ None) "rm -rf /*") = CRITICAL
  /\ ~ In MediumRiskCheck (checks_called (__init__ None) "rm -rf /*").
Proof.
  split; [reflexivity|].
  apply (first_matching_check_wins (__init__ None) "rm -rf /*" eq_refl);
    reflexivity.
Defined.

(** C4. A gate that is switched off returns the same verdict for every
    command, allowed and SAFE with the reason "Safety gate disabled", and
    calls no check, also for a command that is CRITICAL otherwise. Switching
    the gate off is the only bypass: that verdict is returned only by a gate
    that is off, a gate that is on always runs the checks, and a command
    that a CRITICAL or HIGH check matches is allowed only by a gate that is
    off, whatever [sandbox_mode] says. *)
Theorem disabled_gate_is_the_only_bypass (self : SafetyGate)
    (command : string) :
  (enabled self = false ->
     evaluate_command self command = disabled_verdict
     /\ allowed (evaluate_command self command) = true
     /\ risk_level (evaluate_command self command) = SAFE
     /\ checks_called self command = [])
  /\ (evaluate_command self command = disabled_verdict ->
      enabled self = false)
  /\ (enabled self = true ->
      hd_error (checks_called self command) = Some CriticalCheck)
  /\ (fst (_is_critical_command self command) = true
      \/ fst (_is_high_risk_command self command) = true ->
      allowed (evaluate_command self command) = true ->
      enabled self = false).
Proof.
  unfold evaluate_command, checks_called.
  destruct (enabled self) eqn:Hen.
  - rewrite (evaluate_command_traced_enabled _ _ Hen).
    destruct (fst (_is_critical_command self command));
      destruct (fst (_is_high_risk_command self command));
      destruct (fst (_is_medium_risk_command self command));
      destruct (fst (_needs_confirmation self command)); cbn;
      repeat split; try discriminate; try reflexivity;
      intros [H|H]; discriminate.
  - rewrite (evaluate_command_disabled _ _ Hen). cbn.
    repeat split; intros; try reflexivity; discriminate.
Qed.

Lemma disabled_gate_is_the_only_bypass_witness :
  enabled (mkSafetyGate false false [] []) = false
  /\ evaluate_command (mkSafetyGate false false [] []) "rm -rf /"
     = disabled_verdict
  /\ risk_level (evaluate_command (__init__ None) "rm -rf /") = CRITICAL.
Proof.
  split; [reflexivity|]. split; [|reflexivity].
  apply (disabled_gate_is_the_only_bypass
           (mkSafetyGate false false [] []) "rm -rf /").
  reflexivity.
Defined.

(** C10. With the classifier on and no configured dangerous commands or
    sensitive paths, a command that is empty or holds whitespace only is
    SAFE, allowed, with no reason and no warning: none of the four checks
    matches it, the confirmation check because the command splits into no
    word at all. *)
Theorem blank_command_is_safe (self : SafetyGate) (command : string) :
  enabled self = true ->
  dangerous_commands self = [] ->
  sensitive_paths self = [] ->
  all_space command = true ->
  evaluate_command self command = mkVerdict true SAFE "" []
  /\ split (lower command) = []
  /\ _needs_confirmation self command = (false, "").
Proof.
  intros Hen Hd Hp Hs. unfold evaluate_command.
  rewrite (evaluate_command_traced_enabled _ _ Hen).
  rewrite (critical_blank _ _ Hd Hs), (high_risk_blank _ _ Hs),
    (medium_risk_blank _ _ Hp Hs), (confirmation_blank _ _ Hs).
  rewrite (blank_lower _ Hs), (blank_split _ Hs). now repeat split.
Qed.

Lemma blank_command_is_safe_witness :
  all_space "   " = true
  /\ evaluate_command (__init__ None) "   " = mkVerdict true SAFE "" []
  /\ evaluate_command (__init__ None) "" = mkVerdict true SAFE "" [].
Proof.
  split; [reflexivity|]. split.
  - apply (blank_command_is_safe (__init__ None) "   ");
      reflexivity.
  - reflexivity.
Defined.

End SafetyGateFacts.

(* ================================================================== *)
(** ** The translator *)

Module TranslatorFacts.
Import Py PyFacts CommandExecutor.

Lemma args_of_parts {A} (cmd : A) (rest : list A) :
  (if (1 <? Z.of_nat (List.length (cmd :: rest)))%Z
   then skipn 1 (cmd :: rest) else []) = rest.
Proof.
  destruct rest as [|a r]; [reflexivity|].
  replace (1 <? Z.of_nat (List.length (cmd :: a :: r)))%Z with true;
    [reflexivity|].
  symmetry. apply Z.ltb_lt. cbn [List.length]. lia.
Qed.

Lemma two_args {A} (a b : A) (r : list A) :
  (2 <=? Z.of_nat (List.length (a :: b :: r)))%Z = true.
Proof. apply Z.leb_le. cbn [List.length]. lia. Qed.

(** The translation is decided by the words of the stripped command. *)
Lemma translate_words (command cmd : string) (args : list string) :
  split (strip command) = cmd :: args ->
  _translate_to_windows command = translate_chain command cmd args.
Proof.
  intros E. unfold _translate_to_windows. rewrite E.
  cbn [truthy_list negb]. rewrite index_0_cons. cbn [bind].
  now rewrite args_of_parts.
Qed.

Lemma translate_no_words (command : string) :
  split (strip command) = [] -> _translate_to_windows command = Ok command.
Proof.
  intros E. unfold _translate_to_windows. now rewrite E.
Qed.

Ltac split_chain cmd :=
  repeat match goal with
         | |- context [if (cmd =? ?s) then _ else _] =>
             destruct (cmd =? s)
         end.

Lemma translate_chain_total (command cmd : string) (args : list string) :
  exists s, translate_chain command cmd args = Ok s.
Proof.
  unfold translate_chain. split_chain cmd;
    try (eexists; reflexivity);
    try (destruct args as [|a [|b r]]; cbn [truthy_list];
         rewrite ?two_args, ?index_0_cons, ?index_1_cons; cbn [bind];
         eexists; reflexivity).
  all: destruct args as [|a r]; cbn [truthy_list];
    [eexists; reflexivity|].
  all: destruct (index_last (a :: r)) as [x Hx]; [discriminate|];
    rewrite Hx; cbn [bind]; eexists; reflexivity.
Qed.

(** Translation never raises. *)
Lemma translate_total (command : string) :
  exists s, _translate_to_windows command = Ok s.
Proof.
  destruct (split (strip command)) as [|cmd args] eqn:E.
  - exists command. now apply translate_no_words.
  - rewrite (translate_words _ _ _ E). apply translate_chain_total.
Qed.

(** The leading-token test never raises. *)
Lemma is_linux_command_total (command : string) :
  exists b, _is_linux_command command = Ok b.
Proof.
  unfold _is_linux_command.
  destruct (truthy_str (strip command)) eqn:E; cbn [bind].
  - destruct (split (strip command)) as [|w ws] eqn:Es.
    + now apply split_strip_nonempty in E.
    + rewrite index_0_cons. cbn [bind]. eexists; reflexivity.
  - eexists; reflexivity.
Qed.

(** A leading token outside the table leaves the chain at its last branch. *)
Lemma translate_chain_unmapped (command cmd : string) (args : list string) :
  existsb (String.eqb cmd) linux_commands = false ->
  translate_chain command cmd args = Ok command.
Proof.
  intros H. cbn [existsb linux_commands] in H.
  repeat (apply orb_false_iff in H; destruct H as [? H]).
  unfold translate_chain.
  repeat match goal with
         | E : (cmd =? ?s) = false |- _ => rewrite E; clear E
         end.
  reflexivity.
Qed.

Lemma translate_unmapped (command : string) :
  _is_linux_command command = Ok false ->
  _translate_to_windows command = Ok command.
Proof.
  intros H. destruct (split (strip command)) as [|cmd args] eqn:E.
  - now apply translate_no_words.
  - rewrite (translate_words _ _ _ E). apply translate_chain_unmapped.
    unfold _is_linux_command in H. rewrite E in H.
    destruct (strip command) as [|c s]; [discriminate E|].
    cbn [truthy_str] in H. rewrite index_0_cons in H. cbn [bind] in H.
    now injection H.
Qed.

(** The text [quoted] builds, character by character: a double quote
    (code point 34), the argument, a double quote, and what follows. *)
Lemma quoted_then (a rest : string) :
  quoted a ++ rest = String "034"%char (a ++ String "034"%char rest).
Proof.
  unfold quoted, dq. cbn [append]. f_equal.
  induction a as [|x a IH]; cbn [append]; [reflexivity|now rewrite IH].
Qed.

(** C8. Translation looks the leading word up by exact match and falls back
    to the identity: ["ls"] becomes [Get-ChildItem]; ["cp a b"] becomes
    [Copy-Item] followed by the two arguments, each between its own pair of
    double quotes (code point 34) and a space between them, and so does
    every [cp] with two arguments or more; ["unknowncmd x"] comes back
    unchanged, and so does every command whose leading word is not in the
    table, also one that only starts like a table word or differs from it
    in case. For every input the translation returns a string and never
    raises. *)
Theorem translation_is_lookup_with_identity_fallback :
  let q := "034"%char in
  _translate_to_windows "ls" = Ok "Get-ChildItem"
  /\ _translate_to_windows "cp a b"
     = Ok ("Copy-Item " ++ String q "a" ++ String q " " ++ String q "b"
           ++ String q "")
  /\ _translate_to_windows "unknowncmd x" = Ok "unknowncmd x"
  /\ _translate_to_windows "lsblk -f" = Ok "lsblk -f"
  /\ _translate_to_windows "LS" = Ok "LS"
  /\ (forall command a b rest,
        split (strip command) = "cp" :: a :: b :: rest ->
        _translate_to_windows command
        = Ok ("Copy-Item " ++ String q a ++ String q " " ++ String q b
              ++ String q ""))
  /\ (forall command,
        _is_linux_command command = Ok false ->
        _translate_to_windows command = Ok command)
  /\ (forall command, exists s, _translate_to_windows command = Ok s).
Proof.
  cbv zeta. do 5 (split; [reflexivity|]).
  split; [|split; [exact translate_unmapped | exact translate_total]].
  intros command a b rest E. rewrite (translate_words _ _ _ E).
  unfold translate_chain. cbn [String.eqb Ascii.eqb Bool.eqb].
  rewrite two_args, index_0_cons, index_1_cons. cbn [bind].
  now rewrite quoted_then.
Qed.

Lemma translation_is_lookup_with_identity_fallback_witness :
  _is_linux_command "unknowncmd x" = Ok false
  /\ _translate_to_windows "unknowncmd x" = Ok "unknowncmd x"
  /\ _translate_to_windows "  cp  src.txt   dst.txt  extra"
     = Ok ("Copy-Item " ++ String "034"%char "src.txt"
           ++ String "034"%char " " ++ String "034"%char "dst.txt"
           ++ String "034"%char "").
Proof.
  pose proof translation_is_lookup_with_identity_fallback
    as (_ & _ & _ & _ & _ & Hcp & Hid & _).
  split; [reflexivity|]. split.
  - apply (Hid "unknowncmd x"). reflexivity.
  - apply (Hcp "  cp  src.txt   dst.txt  extra" "src.txt" "dst.txt"
             ["extra"]).
    reflexivity.
Defined.

(** C9. When the leading word is a table entry that needs arguments (cat,
    head, tail, touch, mkdir, rm, kill, grep, wc need one; cp and mv need
    two) and the command has fewer, the translation does not raise: it is
    the command that prints the entry's usage message. So ["cat"], ["cp a"]
    and ["rm"] translate to such print commands, and every translation is a
    string. *)
Theorem missing_arguments_give_usage_command (command cmd : string)
    (args : list string) (n : nat) (msg : string) :
  split (strip command) = cmd :: args ->
  In (cmd, n, msg) usage_errors ->
  (List.length args < n)%nat ->
  _translate_to_windows command = Ok (print_command msg)
  /\ prefix (cmd ++ ": ") msg = true
  /\ exists s, _translate_to_windows command = Ok s.
Proof.
  intros E Hin Hlen.
  assert (H : _translate_to_windows command = Ok (print_command msg)
              /\ prefix (cmd ++ ": ") msg = true).
  { rewrite (translate_words _ _ _ E). unfold usage_errors in Hin.
    cbn [In] in Hin.
    repeat (destruct Hin as [Hin|Hin];
            [injection Hin as <- <- <-;
             destruct args as [|a [|b r]];
             solve [ split; reflexivity | cbn [List.length] in Hlen; lia ]
            |]).
    destruct Hin. }
  destruct H as [H1 H2]. repeat split; [exact H1 | exact H2 |].
  eexists; exact H1.
Qed.

Lemma missing_arguments_give_usage_command_witness :
  _translate_to_windows "cat"
    = Ok (print_command "cat: missing file name")
  /\ _translate_to_windows "cp a"
    = Ok (print_command "cp: need source and destination")
  /\ _translate_to_windows "rm"
    = Ok (print_command "rm: missing file name").
Proof.
  split; [|split].
  - apply (missing_arguments_give_usage_command "cat" "cat" [] 1
             "cat: missing file name"); [reflexivity| |simpl; lia].
    simpl. tauto.
  - apply (missing_arguments_give_usage_command "cp a" "cp" ["a"] 2
             "cp: need source and destination"); [reflexivity| |simpl; lia].
    simpl. tauto.
  - apply (missing_arguments_give_usage_command "rm" "rm" [] 1
             "rm: missing file name"); [reflexivity| |simpl; lia].
    simpl. tauto.
Defined.

End TranslatorFacts.

(* ================================================================== *)
(** ** The execution engine *)

Module ExecutorFacts.
Import Py PyFacts CommandExecutor TranslatorFacts.

Lemma spawned_app (evs evs' : list Event) :
  spawned (evs ++ evs')%list = (spawned evs ++ spawned evs')%list.
Proof.
  induction evs as [|[argv cwd cap | t | ] evs IH]; simpl;
    [reflexivity | now rewrite IH | exact IH | exact IH].
Qed.

Lemma backend_command_total (use_wsl : bool) (command : string) :
  exists c, backend_command use_wsl command = Ok c.
Proof.
  unfold backend_command. destruct use_wsl; cbn [negb].
  - now exists command.
  - destruct (is_linux_command_total command) as [[] ->]; cbn [bind].
    + apply translate_total.
    + now exists command.
Qed.

(** On the WSL backend the command is passed on as it is. *)
Lemma backend_command_wsl (command : string) :
  backend_command true command = Ok command.
Proof. reflexivity. Qed.

Lemma resolve_use_wsl_native (self : CommandExecutor) :
  resolve_use_wsl self (Some false) = false.
Proof. reflexivity. Qed.

(** Waiting reads no clock and only adds events. *)
Lemma wait_for_world (p : Process) (T : Z) (w : World) :
  ticks (snd (wait_for p T w)) = ticks w
  /\ exists evs, events (snd (wait_for p T w)) = (events w ++ evs)%list
                 /\ spawned evs = [].
Proof.
  unfold wait_for. destruct (communicate p T).
  - split; [reflexivity|]. now exists [Wait (Some T)].
  - destruct (kill_communicate p); (split; [reflexivity|]);
      exists [Wait (Some T); Kill; Wait None]; cbn;
      now rewrite <- !app_assoc.
  - split; [reflexivity|]. now exists [Wait (Some T)].
Qed.

Section OnePass.

Variable env : Env.
Variables (self : CommandExecutor) (w : World) (command : string).
Variables (working_dir : option string) (timeout : option Z).
Variables (capture_output : bool) (use_wsl : option bool).

Let T := timeout_or timeout (CommandExecutor.timeout self).
Let t0 := clock env (ticks w).
Let w1 := mkWorld (S (ticks w)) (events w).

(** A call on the native backend is one pass: it never calls [execute]
    again. *)
Lemma execute_native (depth : nat) (c : string) :
  resolve_use_wsl self use_wsl = false ->
  backend_command false command = Ok c ->
  let w2 := emit (Spawn (popen_cmd false c) working_dir capture_output) w1 in
  execute_at_depth env (S depth) self w command working_dir timeout
    capture_output use_wsl
  = Some match Popen env (popen_cmd false c) working_dir capture_output with
         | PopenRaises e => handler env command t0 e self w2
         | Started p =>
             match wait_for p T w2 with
             | (Raise e, w3) => handler env command t0 e self w3
             | (Ok (stdout, stderr, rc), w3) =>
                 record_result env command t0 stdout stderr rc self w3
             end
         end.
Proof.
  intros Hb Hc. cbn [execute_at_depth now]. rewrite Hb, Hc.
  cbn [andb]. fold w1 t0 T.
  destruct (Popen env (popen_cmd false c) working_dir capture_output);
    [|reflexivity].
  destruct (wait_for process T _) as [[[[o e] rc]|e] w3]; reflexivity.
Qed.

(** A call on the WSL backend is one pass, followed by one call on the
    native backend when the pass ends with a non-zero code and a fallback
    signature. *)
Lemma execute_wsl (depth : nat) :
  resolve_use_wsl self use_wsl = true ->
  let w2 := emit (Spawn (popen_cmd true command) working_dir capture_output)
              w1 in
  execute_at_depth env (S depth) self w command working_dir timeout
    capture_output use_wsl
  = match Popen env (popen_cmd true command) working_dir capture_output with
    | PopenRaises e => Some (handler env command t0 e self w2)
    | Started p =>
        match wait_for p T w2 with
        | (Raise e, w3) => Some (handler env command t0 e self w3)
        | (Ok (stdout, stderr, rc), w3) =>
            if negb (rc =? 0)%Z && _should_fallback_to_powershell stderr then
              match execute_at_depth env depth self w3 command working_dir
                      (Some T) capture_output (Some false) with
              | None => None
              | Some (Ok result, self', w') => Some (Ok result, self', w')
              | Some (Raise e, self', w') =>
                  Some (handler env command t0 e self' w')
              end
            else Some (record_result env command t0 stdout stderr rc self w3)
        end
    end.
Proof.
  intros Hb. cbn [execute_at_depth now]. rewrite Hb.
  rewrite backend_command_wsl. cbn [andb]. fold w1 t0 T.
  destruct (Popen env (popen_cmd true command) working_dir capture_output);
    [|reflexivity].
  destruct (wait_for process T _) as [[[[o e] rc]|e] w3]; reflexivity.
Qed.

End OnePass.

Lemma handler_well_formed env self w w3 cmd e :
  ticks w3 = S (ticks w) ->
  well_formed env self w cmd (handler env cmd (clock env (ticks w)) e self w3).
Proof.
  intros Ht. unfold handler, now.
  eexists _, _, _, (ticks w), (ticks w3).
  repeat (split; [reflexivity|]). cbn [ticks].
  repeat (split; [lia|]). left. now repeat split.
Qed.

Lemma record_well_formed env self w w3 cmd out err rc :
  ticks w3 = S (ticks w) ->
  well_formed env self w cmd
    (record_result env cmd (clock env (ticks w)) out err rc self w3).
Proof.
  intros Ht. unfold record_result, now.
  eexists _, _, _, (ticks w), (ticks w3).
  repeat (split; [reflexivity|]). cbn [ticks].
  repeat (split; [lia|]). now right.
Qed.

Lemma well_formed_later env self w w0 cmd o :
  (ticks w0 <= ticks w)%nat ->
  well_formed env self w cmd o -> well_formed env self w0 cmd o.
Proof.
  intros Hle (r & self' & w' & n & m & H & H1 & H2 & H3 & H4 & H5 & H6 & H7).
  exists r, self', w', n, m. repeat (split; [assumption|]).
  split; [lia|exact H7].
Qed.

(** One pass on the native backend ends well. *)
Lemma native_pass_well_formed env self w w2 cmd c wd cap T :
  ticks w2 = S (ticks w) ->
  well_formed env self w cmd
    match Popen env (popen_cmd false c) wd cap with
    | PopenRaises e => handler env cmd (clock env (ticks w)) e self w2
    | Started p =>
        match wait_for p T w2 with
        | (Raise e, w3) => handler env cmd (clock env (ticks w)) e self w3
        | (Ok (stdout, stderr, rc), w3) =>
            record_result env cmd (clock env (ticks w)) stdout stderr rc
              self w3
        end
    end.
Proof.
  intros Ht. destruct (Popen env _ wd cap) as [p|e].
  - pose proof (wait_for_world p T w2) as [Hw _].
    destruct (wait_for p T w2) as [[[[o e] rc]|e] w3]; cbn [snd] in Hw;
      [apply record_well_formed | apply handler_well_formed]; lia.
  - now apply handler_well_formed.
Qed.

(** A call on the native backend returns, never raises, and ends well,
    at any depth. *)
Lemma execute_native_well_formed env depth self w cmd wd t cap uw :
  resolve_use_wsl self uw = false ->
  exists o, execute_at_depth env (S depth) self w cmd wd t cap uw = Some o
            /\ well_formed env self w cmd o.
Proof.
  intros Hb. destruct (backend_command_total false cmd) as [c Hc].
  rewrite (execute_native _ _ _ _ _ _ _ _ _ c Hb Hc). cbv zeta.
  eexists. split; [reflexivity|].
  now apply native_pass_well_formed.
Qed.

(** Every call of [execute] returns, never raises, and ends well. *)
Lemma execute_well_formed env self w cmd wd t cap uw :
  exists o, execute env self w cmd wd t cap uw = Some o
            /\ well_formed env self w cmd o.
Proof.
  unfold execute. destruct (resolve_use_wsl self uw) eqn:Hb;
    [|now apply execute_native_well_formed].
  rewrite (execute_wsl _ _ _ _ _ _ _ _ _ Hb). cbv zeta.
  destruct (Popen env _ wd cap) as [p|e].
  - match goal with
    | |- context [wait_for p ?T ?w2] =>
        pose proof (wait_for_world p T w2) as [Hw _];
        destruct (wait_for p T w2) as [[[[o e] rc]|e] w3]
    end; cbn [snd emit ticks] in Hw.
    + destruct (negb (rc =? 0)%Z && _should_fallback_to_powershell e).
      * match goal with
        | |- context [execute_at_depth env 1 self w3 cmd wd ?t' cap ?u] =>
            destruct (execute_native_well_formed env 0 self w3 cmd wd t' cap
                        u (resolve_use_wsl_native self)) as (x & -> & Hx)
        end.
        pose proof Hx as (r & s' & w' & n & m & -> & _).
        eexists. split; [reflexivity|].
        apply (well_formed_later env self w3 w); [lia|exact Hx].
      * eexists. split; [reflexivity|].
        apply record_well_formed. exact Hw.
    + eexists. split; [reflexivity|]. apply handler_well_formed. exact Hw.
  - eexists. split; [reflexivity|]. now apply handler_well_formed.
Qed.

(** When the child cannot be started the handler answers, and the executor
    is left as it was. *)
Lemma execute_spawn_failure env self w cmd wd t cap uw c e :
  backend_command (resolve_use_wsl self uw) cmd = Ok c ->
  Popen env (popen_cmd (resolve_use_wsl self uw) c) wd cap = PopenRaises e ->
  execute env self w cmd wd t cap uw
  = Some (Ok (failed_result cmd e (clock env (ticks w))
                (clock env (S (ticks w)))),
          self,
          mkWorld (S (S (ticks w)))
            (events w
             ++ [Spawn (popen_cmd (resolve_use_wsl self uw) c) wd cap])%list).
Proof.
  unfold execute. destruct (resolve_use_wsl self uw) eqn:Hb; intros Hc Hp.
  - rewrite backend_command_wsl in Hc. injection Hc as <-.
    rewrite (execute_wsl _ _ _ _ _ _ _ _ _ Hb). cbv zeta.
    now rewrite Hp.
  - rewrite (execute_native _ _ _ _ _ _ _ _ _ c Hb Hc). cbv zeta.
    now rewrite Hp.
Qed.

(** A call on the native backend starts exactly one process. *)
Lemma execute_native_spawned env depth self w cmd wd t cap uw c o :
  resolve_use_wsl self uw = false ->
  backend_command false cmd = Ok c ->
  execute_at_depth env (S depth) self w cmd wd t cap uw = Some o ->
  spawned (events (snd o))
  = (spawned (events w) ++ [popen_cmd false c])%list.
Proof.
  intros Hb Hc. rewrite (execute_native _ _ _ _ _ _ _ _ _ c Hb Hc).
  cbv zeta. intros [= <-].
  destruct (Popen env _ wd cap) as [p|e].
  - match goal with
    | |- context [wait_for p ?T ?w2] =>
        pose proof (wait_for_world p T w2) as (_ & evs & Hev & Hsp);
        destruct (wait_for p T w2) as [[[[so se] rc]|e] w3]
    end; cbn [snd] in Hev; cbn [handler record_result now snd events];
      rewrite Hev, spawned_app, Hsp, app_nil_r; cbn [emit events];
      now rewrite spawned_app.
  - cbn [handler now snd events emit]. now rewrite spawned_app.
Qed.

(** The outcome of a call on the native backend does not depend on the
    depth allowed. *)
Lemma execute_native_any_depth env depth self w cmd wd t cap uw :
  resolve_use_wsl self uw = false ->
  execute_at_depth env (S depth) self w cmd wd t cap uw
  = execute_at_depth env 1 self w cmd wd t cap uw.
Proof.
  intros Hb. destruct (backend_command_total false cmd) as [c Hc].
  now rewrite !(execute_native _ _ _ _ _ _ _ _ _ c Hb Hc).
Qed.

(** What waiting for a child adds to the events: no process is started, and
    a kill only after the child ran out of time. *)
Lemma wait_for_events (p : Process) (T : Z) (w : World) :
  exists evs,
    events (snd (wait_for p T w)) = (events w ++ evs)%list
    /\ spawned evs = []
    /\ (In Kill evs -> communicate p T = TimeoutExpired).
Proof.
  unfold wait_for. destruct (communicate p T).
  - exists [Wait (Some T)]. repeat split.
    intros [H|[]]. discriminate H.
  - destruct (kill_communicate p);
      exists [Wait (Some T); Kill; Wait None]; cbn;
      rewrite <- !app_assoc; now repeat split.
  - exists [Wait (Some T)]. repeat split.
    intros [H|[]]. discriminate H.
Qed.

(** The events of one call on the native backend. *)
Lemma execute_native_events env depth self w cmd wd t cap uw c o :
  resolve_use_wsl self uw = false ->
  backend_command false cmd = Ok c ->
  execute_at_depth env (S depth) self w cmd wd t cap uw = Some o ->
  exists evs,
    events (snd o)
    = (events w ++ Spawn (popen_cmd false c) wd cap :: evs)%list
    /\ spawned evs = []
    /\ (In Kill evs ->
        exists p, Popen env (popen_cmd false c) wd cap = Started p
                  /\ communicate p (timeout_or t (timeout self))
                     = TimeoutExpired).
Proof.
  intros Hb Hc. rewrite (execute_native _ _ _ _ _ _ _ _ _ c Hb Hc).
  cbv zeta. intros [= <-].
  destruct (Popen env _ wd cap) as [p|e].
  - match goal with
    | |- context [wait_for p ?T ?w2] =>
        destruct (wait_for_events p T w2) as (evs & Hev & Hsp & Hk);
        destruct (wait_for p T w2) as [[[[so se] rc]|e] w3]
    end; cbn [snd] in Hev; exists evs;
      cbn [handler record_result now snd events];
      rewrite Hev; cbn [emit events]; rewrite <- app_assoc;
      (split; [reflexivity|]); (split; [exact Hsp|]);
      intros Hin; exists p; split; [reflexivity | now apply Hk
                                   | reflexivity | now apply Hk].
  - exists []. cbn [handler now snd events emit].
    split; [reflexivity|]. split; [reflexivity|]. intros [].
Qed.

(** A pass on the WSL backend that ends with a non-zero code and a fallback
    signature hands the call over to the native backend. *)
Lemma execute_wsl_fallback env self w cmd wd t cap uw p out err rc w3 :
  resolve_use_wsl self uw = true ->
  Popen env (popen_cmd true cmd) wd cap = Started p ->
  wait_for p (timeout_or t (timeout self))
    (emit (Spawn (popen_cmd true cmd) wd cap) (snd (now env w)))
  = (Ok (out, err, rc), w3) ->
  rc <> 0%Z ->
  _should_fallback_to_powershell err = true ->
  execute env self w cmd wd t cap uw
  = execute env self w3 cmd wd (Some (timeout_or t (timeout self))) cap
      (Some false).
Proof.
  intros Hb Hp Hw Hrc Hf. unfold execute at 1.
  rewrite (execute_wsl _ _ _ _ _ _ _ _ _ Hb). cbv zeta.
  rewrite Hp. unfold now in Hw. cbn [snd] in Hw. rewrite Hw.
  apply Z.eqb_neq in Hrc. rewrite Hrc, Hf. cbn [negb andb].
  unfold execute.
  rewrite (execute_native_any_depth env 1 _ _ _ _ _ _ _
             (resolve_use_wsl_native self)).
  destruct (execute_native_well_formed env 0 self w3 cmd wd
              (Some (timeout_or t (timeout self))) cap (Some false)
              (resolve_use_wsl_native self))
    as (o & -> & r & s' & w' & n & m & -> & _).
  reflexivity.
Qed.

(** *** The claims *)

(** C1. Every call of [execute] returns a dictionary with all eight
    entries and never raises. The dictionary is appended to
    [execution_history] when the child was started and waited for; but when
    the child cannot be started (or waiting for it raises) the handler
    returns its dictionary without appending it: the history is left as it
    was, against the claim. *)
Theorem spawn_failure_is_not_recorded env self w cmd wd t cap uw :
  (exists r self' w',
     execute env self w cmd wd t cap uw = Some (Ok r, self', w')
     /\ (self' = set_history self (execution_history self ++ [r])%list
         \/ self' = self /\ exit_code r = (-1)%Z))
  /\ forall c e,
       backend_command (resolve_use_wsl self uw) cmd = Ok c ->
       Popen env (popen_cmd (resolve_use_wsl self uw) c) wd cap
         = PopenRaises e ->
       exists r self' w',
         execute env self w cmd wd t cap uw = Some (Ok r, self', w')
         /\ r = failed_result cmd e (clock env (ticks w))
                  (clock env (S (ticks w)))
         /\ execution_history self' = execution_history self
         /\ execution_history self' <> (execution_history self ++ [r])%list.
Proof.
  split.
  - destruct (execute_well_formed env self w cmd wd t cap uw)
      as (o & Ho & r & s' & w' & n & m & -> & _ & _ & _ & _ & _ & _ & _ & _
          & Hh).
    exists r, s', w'. split; [exact Ho|].
    destruct Hh as [(-> & Hrc & _) | -> ]; [right; now split | now left].
  - intros c e Hc Hp. rewrite (execute_spawn_failure _ _ _ _ _ _ _ _ c e Hc Hp).
    eexists _, _, _. split; [reflexivity|]. split; [reflexivity|].
    split; [reflexivity|].
    intros H. apply (f_equal (@List.length _)) in H.
    rewrite length_app in H. cbn [List.length] in H. lia.
Qed.

Lemma spawn_failure_is_not_recorded_witness :
  exists r self' w',
    execute no_backend native_executor fresh "ls" None None true None
    = Some (Ok r, self', w')
    /\ exit_code r = (-1)%Z
    /\ execution_history self' = [].
Proof.
  destruct (proj2 (spawn_failure_is_not_recorded no_backend native_executor
                     fresh "ls" None None true None)
              "Get-ChildItem"
              (Exception "[WinError 2] The system cannot find the file specified")
              eq_refl eq_refl)
    as (r & s' & w' & H & Hr & Hh & _).
  exists r, s', w'. split; [exact H|]. split; [now rewrite Hr | exact Hh].
Defined.





(** The return code of the killed child decides [success]: a child that
    reports zero after the kill gives a successful dictionary that carries
    the timeout notice. *)
Remark killed_child_reporting_zero :
  exists r self' w',
    execute (machine (ending "" "" 0)
               (mkProcess (fun _ => TimeoutExpired) (Reaped None None 0)))
      native_executor fresh "ls" None None true None
    = Some (Ok r, self', w')
    /\ success r = true /\ error r = timeout_notice 5.
Proof. eexists _, _, _. repeat split. Qed.



(** C7. When a command run on the WSL backend exits with a non-zero code
    and a fallback signature in its error text, [execute] runs the command
    it was given (on WSL no rewriting has taken place) once more on the
    native backend, where it is translated, and hands the caller the outcome
    of that run and nothing of the WSL failure. The retry starts one
    process and does not retry again: two processes in all, the WSL one and
    the native one. *)
Theorem wsl_failure_is_retried_once_natively
    env self w cmd wd t cap uw p out err rc :
  let T := timeout_or t (timeout self) in
  let w3 := emit (Wait (Some T))
              (emit (Spawn (popen_cmd true cmd) wd cap) (snd (now env w))) in
  resolve_use_wsl self uw = true ->
  Popen env (popen_cmd true cmd) wd cap = Started p ->
  communicate p T = Exited out err rc ->
  rc <> 0%Z ->
  _should_fallback_to_powershell err = true ->
  backend_command true cmd = Ok cmd
  /\ execute env self w cmd wd t cap uw
     = execute env self w3 cmd wd (Some T) cap (Some false)
  /\ exists c r self' w',
       backend_command false cmd = Ok c
       /\ execute env self w cmd wd t cap uw = Some (Ok r, self', w')
       /\ command r = cmd
       /\ spawned (events w')
          = (spawned (events w)
             ++ [popen_cmd true cmd; popen_cmd false c])%list
       /\ (self' = set_history self (execution_history self ++ [r])%list
           \/ self' = self /\ exit_code r = (-1)%Z).
Proof.
  intros T w3 Hb Hp Hcomm Hrc Hf.
  assert (Hfb : execute env self w cmd wd t cap uw
                = execute env self w3 cmd wd (Some T) cap (Some false)).
  { apply (execute_wsl_fallback env self w cmd wd t cap uw p out err rc w3
             Hb Hp); try assumption.
    unfold wait_for. fold T. now rewrite Hcomm. }
  split; [reflexivity|]. split; [exact Hfb|].
  destruct (backend_command_total false cmd) as [c Hc]. rewrite Hfb.
  destruct (execute_native_well_formed env 1 self w3 cmd wd (Some T) cap
              (Some false) (resolve_use_wsl_native self)) as (o & Ho & Hwf).
  pose proof (execute_native_spawned env 1 self w3 cmd wd (Some T) cap
                (Some false) c o (resolve_use_wsl_native self) Hc Ho) as Hsp.
  destruct Hwf as (r & s' & w' & n & m & -> & Hcmd & _ & _ & _ & _ & _ & _
                   & _ & Hh).
  unfold execute. rewrite Ho. exists c, r, s', w'.
  split; [exact Hc|]. split; [reflexivity|]. split; [exact Hcmd|]. split.
  - cbn [snd] in Hsp. rewrite Hsp. unfold w3. cbn [emit events now snd].
    rewrite !spawned_app. cbn [spawned]. now rewrite app_nil_r, <- app_assoc.
  - destruct Hh as [(-> & Hx1 & _) | -> ]; [right; now split | now left].
Qed.

Lemma wsl_failure_is_retried_once_natively_witness :
  exists r self' w',
    execute (machine (ending "" "bash: not found" 127) (ending "a.txt" "" 0))
      wsl_executor fresh "ls" None None true None
    = Some (Ok r, self', w')
    /\ command r = "ls"
    /\ spawned (events w')
       = [["wsl"; "bash"; "-lc"; "ls"];
          ["powershell.exe"; "-Command"; "Get-ChildItem"]].
Proof.
  destruct (wsl_failure_is_retried_once_natively
              (machine (ending "" "bash: not found" 127)
                 (ending "a.txt" "" 0))
              wsl_executor fresh "ls" None None true None
              (ending "" "bash: not found" 127)
              (Some "") (Some "bash: not found") 127
              eq_refl eq_refl eq_refl)
    as (_ & _ & c & r & s' & w' & Hc & H & Hcmd & Hsp & _).
  - discriminate.
  - reflexivity.
  - exists r, s', w'. split; [exact H|]. split; [exact Hcmd|].
    injection Hc as <-. exact Hsp.
Defined.

End ExecutorFacts.

(* ================================================================== *)
(** ** More facts about Python strings and lists *)

Module StringFacts.
Import Py PyFacts.

Lemma prefix_app (p s b : string) :
  prefix p s = true -> prefix p (s ++ b) = true.
Proof.
  revert s. induction p as [|c p IH]; intros s;
    [intros _; now destruct (s ++ b)|].
  destruct s as [|d s]; simpl; [discriminate|].
  destruct (ascii_dec c d); [apply IH|discriminate].
Qed.

Lemma contains_empty (s : string) : contains "" s = true.
Proof. now destruct s. Qed.

Lemma contains_app_r (p s b : string) :
  contains p s = true -> contains p (s ++ b) = true.
Proof.
  induction s as [|c s IH]; cbn [contains append].
  - destruct p; [intros _; apply contains_empty|discriminate].
  - intros H. apply orb_true_iff in H. destruct H as [H|H].
    + apply (prefix_app _ _ b) in H. cbn [append] in H. now rewrite H.
    + rewrite (IH H). apply orb_true_r.
Qed.

Lemma contains_app_l (p a s : string) :
  contains p s = true -> contains p (a ++ s) = true.
Proof.
  intros H. induction a as [|c a IH]; cbn [contains append]; [exact H|].
  rewrite IH. apply orb_true_r.
Qed.

(** A pattern found in a text is found in every text around it. *)
Lemma contains_wrap (p a s b : string) :
  contains p s = true -> contains p (a ++ s ++ b) = true.
Proof.
  intros H. apply contains_app_l. apply contains_app_r. exact H.
Qed.

Lemma lower_app (a b : string) : lower (a ++ b) = lower a ++ lower b.
Proof. induction a as [|c a IH]; simpl; [reflexivity|now rewrite IH]. Qed.

Lemma lower_char_idem (c : ascii) : lower_char (lower_char c) = lower_char c.
Proof. destruct c as [[] [] [] [] [] [] [] []]; reflexivity. Qed.

Lemma lower_idem (s : string) : lower (lower s) = lower s.
Proof.
  induction s as [|c s IH]; simpl; [reflexivity|].
  now rewrite lower_char_idem, IH.
Qed.

Lemma find_existsb {A} (f : A -> bool) (l : list A) :
  match find f l with Some _ => true | None => false end = existsb f l.
Proof.
  induction l as [|x l IH]; simpl; [reflexivity|].
  destruct (f x); [reflexivity|exact IH].
Qed.

Lemma existsb_mono {A} (f g : A -> bool) (l : list A) :
  (forall x, f x = true -> g x = true) ->
  existsb f l = true -> existsb g l = true.
Proof.
  intros Hfg H. apply existsb_exists in H. destruct H as (x & Hin & Hx).
  apply existsb_exists. exists x. split; [exact Hin|now apply Hfg].
Qed.

End StringFacts.

(* ================================================================== *)
(** ** More about the risk classifier *)

Module GateProperties.
Import Py PyFacts StringFacts SafetyGate SafetyGateFacts.

(** When the critical check matches: one of its five built-in rules or a
    configured pattern. *)
Lemma critical_flag (self : SafetyGate) (c : string) :
  fst (_is_critical_command self c)
  = (contains ":(){" c || contains ":|:&" c)
    || (contains "rm -rf /" c || contains "rm -fr /" c)
    || (contains "mkfs" (lower c) || contains "format" (lower c))
    || (contains "dd if=/dev/zero" (lower c)
        || contains "dd if=/dev/random" (lower c))
    || (existsb (fun path => contains path (lower c))
          ["/boot"; "/dev/sda"; "/dev/nvme"]
        && (contains "rm" (lower c) || contains "dd" (lower c)
            || contains ">" c))
    || existsb (fun d => contains (lower d) (lower c))
         (dangerous_commands self).
Proof.
  unfold _is_critical_command.
  repeat match goal with
         | |- context [if ?b then _ else _] =>
             destruct b; cbn [fst orb]; try reflexivity
         end.
  rewrite <- find_existsb.
  now destruct (find _ (dangerous_commands self)).
Qed.

(** The reason given with a match is never empty. *)
Lemma critical_reason_nonempty (self : SafetyGate) (c : string) :
  fst (_is_critical_command self c) = true ->
  snd (_is_critical_command self c) <> "".
Proof.
  unfold _is_critical_command.
  repeat match goal with
         | |- context [if ?b then _ else _] =>
             destruct b; cbn [fst snd]; try discriminate
         end.
  destruct (find _ _); cbn [fst snd]; discriminate.
Qed.

Lemma high_risk_reason_nonempty (self : SafetyGate) (c : string) :
  fst (_is_high_risk_command self c) = true ->
  snd (_is_high_risk_command self c) <> "".
Proof.
  unfold _is_high_risk_command.
  repeat match goal with
         | |- context [if ?b then _ else _] =>
             destruct b; cbn [fst snd]; try discriminate
         end.
Qed.

(** A configured sensitive path found in the command makes the medium check
    match. *)
Lemma medium_flag_sensitive (self : SafetyGate) (c p : string) :
  In p (sensitive_paths self) ->
  contains (lower p) (lower c) = true ->
  fst (_is_medium_risk_command self c) = true.
Proof.
  intros Hin Hp. unfold _is_medium_risk_command.
  repeat match goal with
         | |- context [if ?b then _ else _] =>
             destruct b; cbn [fst]; try reflexivity
         end.
  destruct (find _ (sensitive_paths self)) eqn:E; [reflexivity|].
  exfalso. apply (find_none _ _ E) in Hin. cbv beta in Hin. congruence.
Qed.

(** What the level of a verdict says about the gate and the checks. *)
Lemma critical_verdict (self : SafetyGate) (c : string) :
  risk_level (evaluate_command self c) = CRITICAL <->
  enabled self = true /\ fst (_is_critical_command self c) = true.
Proof.
  unfold evaluate_command. destruct (enabled self) eqn:Hen.
  - rewrite (evaluate_command_traced_enabled _ _ Hen).
    destruct (fst (_is_critical_command self c));
      [cbn; tauto|].
    destruct (fst (_is_high_risk_command self c));
      destruct (fst (_is_medium_risk_command self c));
      destruct (fst (_needs_confirmation self c)); cbn;
      (split; [discriminate | intros [_ H]; discriminate H]).
  - rewrite (evaluate_command_disabled _ _ Hen). cbn.
    split; [discriminate | intros [H _]; discriminate H].
Qed.

(** A CRITICAL match decides the verdict of a gate that is on. *)
Lemma critical_match_blocks (self : SafetyGate) (command : string) :
  enabled self = true ->
  fst (_is_critical_command self command) = true ->
  risk_level (evaluate_command self command) = CRITICAL
  /\ allowed (evaluate_command self command) = false.
Proof.
  intros Hen Hc. unfold evaluate_command.
  rewrite (evaluate_command_traced_enabled _ _ Hen), Hc. now split.
Qed.

(** A verdict that blocks always carries a reason. *)
Lemma blocking_verdict_has_a_reason (self : SafetyGate) (command : string) :
  allowed (evaluate_command self command) = false ->
  reason (evaluate_command self command) <> "".
Proof.
  unfold evaluate_command. destruct (enabled self) eqn:Hen.
  - rewrite (evaluate_command_traced_enabled _ _ Hen).
    pose proof (critical_reason_nonempty self command) as Hc.
    pose proof (high_risk_reason_nonempty self command) as Hh.
    destruct (fst (_is_critical_command self command)); [cbn; auto|].
    destruct (fst (_is_high_risk_command self command)); [cbn; auto|].
    destruct (fst (_is_medium_risk_command self command));
      [cbn; discriminate|].
    destruct (fst (_needs_confirmation self command)); cbn; discriminate.
  - rewrite (evaluate_command_disabled _ _ Hen). cbn. discriminate.
Qed.

(** X1. Every verdict is consistent: a command is blocked exactly when its
    level is HIGH or CRITICAL, a blocked command comes with a reason that
    is not empty, there is a warning exactly when the level is not SAFE,
    and there is never more than one warning. *)
Theorem verdict_is_consistent (self : SafetyGate) (command : string) :
  let v := evaluate_command self command in
  allowed v = match risk_level v with
              | HIGH | CRITICAL => false
              | _ => true
              end
  /\ (allowed v = false -> reason v <> "")
  /\ (risk_level v = SAFE <-> warnings v = [])
  /\ (List.length (warnings v) <= 1)%nat.
Proof.
  cbv zeta. unfold evaluate_command. destruct (enabled self) eqn:Hen.
  - rewrite (evaluate_command_traced_enabled _ _ Hen).
    pose proof (critical_reason_nonempty self command) as Hc.
    pose proof (high_risk_reason_nonempty self command) as Hh.
    destruct (fst (_is_critical_command self command));
      [cbn; repeat split; auto; discriminate|].
    destruct (fst (_is_high_risk_command self command));
      [cbn; repeat split; auto; discriminate|].
    destruct (fst (_is_medium_risk_command self command));
      [cbn; repeat split; auto; discriminate|].
    destruct (fst (_needs_confirmation self command));
      cbn; repeat split; auto; discriminate.
  - rewrite (evaluate_command_disabled _ _ Hen). cbn.
    repeat split; auto; discriminate.
Qed.

Lemma verdict_is_consistent_witness :
  allowed (evaluate_command (__init__ None) "chmod -R 777 /etc") = false
  /\ reason (evaluate_command (__init__ None) "chmod -R 777 /etc") <> "".
Proof.
  split; [reflexivity|].
  apply (verdict_is_consistent (__init__ None) "chmod -R 777 /etc").
  reflexivity.
Defined.

(** X2. [sandbox_mode] plays no part in the verdict: two gates that differ
    in it only give the same verdict for every command, so a command that is
    blocked stays blocked in sandbox mode. *)
Theorem sandbox_mode_does_not_change_the_verdict
    (en sb sb' : bool) (dc sp : list string) (command : string) :
  evaluate_command (mkSafetyGate en sb dc sp) command
  = evaluate_command (mkSafetyGate en sb' dc sp) command.
Proof.
  unfold evaluate_command.
  destruct en.
  - rewrite !evaluate_command_traced_enabled by reflexivity. reflexivity.
  - rewrite !evaluate_command_disabled by reflexivity. reflexivity.
Qed.

(** X3. With the classifier on, a command that contains a configured
    dangerous pattern, in any letter case, is blocked as CRITICAL. *)
Theorem configured_dangerous_pattern_blocks
    (self : SafetyGate) (command d : string) :
  enabled self = true ->
  In d (dangerous_commands self) ->
  contains (lower d) (lower command) = true ->
  risk_level (evaluate_command self command) = CRITICAL
  /\ allowed (evaluate_command self command) = false.
Proof.
  intros Hen Hin Hd.
  assert (Hc : fst (_is_critical_command self command) = true).
  { rewrite critical_flag. apply orb_true_iff. right.
    apply existsb_exists. now exists d. }
  exact (critical_match_blocks self command Hen Hc).
Qed.

Lemma configured_dangerous_pattern_blocks_witness :
  risk_level (evaluate_command (mkSafetyGate true false ["Shutdown"] [])
                "sudo SHUTDOWN now") = CRITICAL
  /\ allowed (evaluate_command (mkSafetyGate true false ["Shutdown"] [])
                "sudo SHUTDOWN now") = false.
Proof.
  apply (configured_dangerous_pattern_blocks
           (mkSafetyGate true false ["Shutdown"] []) "sudo SHUTDOWN now"
           "Shutdown"); [reflexivity | simpl; tauto | reflexivity].
Defined.

(** X4. With the classifier on, a command that contains a configured
    sensitive path, in any letter case, is never SAFE or LOW: it is MEDIUM
    at least, and comes with a warning. *)
Theorem configured_sensitive_path_warns
    (self : SafetyGate) (command p : string) :
  enabled self = true ->
  In p (sensitive_paths self) ->
  contains (lower p) (lower command) = true ->
  (risk_level (evaluate_command self command) = MEDIUM
   \/ risk_level (evaluate_command self command) = HIGH
   \/ risk_level (evaluate_command self command) = CRITICAL)
  /\ warnings (evaluate_command self command) <> [].
Proof.
  intros Hen Hin Hp.
  pose proof (medium_flag_sensitive self command p Hin Hp) as Hm.
  unfold evaluate_command.
  rewrite (evaluate_command_traced_enabled _ _ Hen), Hm.
  destruct (fst (_is_critical_command self command));
    [cbn; split; [tauto|discriminate]|].
  destruct (fst (_is_high_risk_command self command));
    cbn; (split; [tauto|discriminate]).
Qed.

Lemma configured_sensitive_path_warns_witness :
  risk_level (evaluate_command (mkSafetyGate true false [] ["/etc/passwd"])
                "cat /etc/passwd") = MEDIUM.
Proof.
  destruct (configured_sensitive_path_warns
              (mkSafetyGate true false [] ["/etc/passwd"]) "cat /etc/passwd"
              "/etc/passwd" eq_refl (or_introl eq_refl) eq_refl)
    as [[H|[H|H]] _]; [exact H | discriminate H | discriminate H].
Defined.

(** X5. The built-in CRITICAL rules cannot be escaped by wrapping: if a
    command is CRITICAL for the gate as [SafetyGate()] builds it, that is,
    by one of the five built-in rules, then every gate that is switched on,
    whatever its configuration, rates CRITICAL and blocks every command line
    that contains it, whatever is written before and after it. (The
    built-in patterns are plain ASCII, and lower-casing a longer text never
    changes the ASCII letters that lower-casing a part of it gave.) *)
Theorem critical_command_stays_critical_when_wrapped
    (self : SafetyGate) (before command after : string) :
  enabled self = true ->
  risk_level (evaluate_command (__init__ None) command) = CRITICAL ->
  risk_level (evaluate_command self (before ++ command ++ after)) = CRITICAL
  /\ allowed (evaluate_command self (before ++ command ++ after)) = false.
Proof.
  intros Hen H. apply critical_verdict in H. destruct H as [_ Hc].
  assert (Hw : fst (_is_critical_command self (before ++ command ++ after))
               = true).
  { rewrite critical_flag in Hc |- *. rewrite !lower_app.
    change (dangerous_commands (__init__ None)) with (@nil string) in Hc.
    cbn [existsb] in Hc |- *.
    assert (M : forall p s, contains p s = true ->
                  contains p (before ++ s ++ after) = true)
      by (intros; now apply contains_wrap).
    assert (L : forall p, contains p (lower command) = true ->
                  contains p (lower before ++ lower command ++ lower after)
                  = true)
      by (intros; now apply contains_wrap).
    repeat match goal with
           | H : (_ || _) = true |- _ =>
               apply orb_true_iff in H; destruct H as [H|H]
           | H : (_ && _) = true |- _ =>
               let H1 := fresh in
               apply andb_true_iff in H; destruct H as [H1 H]
           | H : false = true |- _ => discriminate H
           end;
      repeat match goal with
             | H : contains _ command = true |- _ =>
                 apply M in H; rewrite H; clear H
             | H : contains _ (lower command) = true |- _ =>
                 apply L in H; rewrite H; clear H
             end;
      rewrite ?orb_true_r; cbn [orb andb]; rewrite ?orb_true_r;
      reflexivity. }
  exact (critical_match_blocks self (before ++ command ++ after) Hen Hw).
Qed.

Lemma critical_command_stays_critical_when_wrapped_witness :
  risk_level (evaluate_command (mkSafetyGate true true ["shutdown"] ["/etc"])
                "sudo rm -rf / ; ls")
  = CRITICAL.
Proof.
  apply (critical_command_stays_critical_when_wrapped
           (mkSafetyGate true true ["shutdown"] ["/etc"])
           "sudo " "rm -rf /" " ; ls"); reflexivity.
Defined.

Lemma dict_get_absent {A} (d : list (string * A)) (k : string) (dflt : A) :
  (forall v, ~ In (k, v) d) -> dict_get d k dflt = dflt.
Proof.
  induction d as [|[k' v'] d IH]; intros H; cbn [dict_get]; [reflexivity|].
  destruct (String.eqb_spec k k') as [->|_].
  - exfalso. apply (H v'). now left.
  - apply IH. intros v Hv. apply (H v). now right.
Qed.

(** X6. [simulate_command] agrees with [evaluate_command] on whether the
    command would run, on its level and on its warnings; it reports a
    blocked reason exactly when the command would not run, and that reason
    is the verdict's and is not empty. For a gate that is off nothing is
    ever reported as blocked. *)
Theorem simulation_agrees_with_evaluation (self : SafetyGate)
    (command : string) :
  let sim := simulate_command self command in
  let v := evaluate_command self command in
  would_execute sim = allowed v
  /\ sim_risk_level sim = risk_level v
  /\ sim_warnings sim = warnings v
  /\ (blocked_reason sim = None <-> would_execute sim = true)
  /\ (forall r, blocked_reason sim = Some r -> r = reason v /\ r <> "")
  /\ (enabled self = false ->
      blocked_reason sim = None /\ would_execute sim = true).
Proof.
  cbv zeta. unfold simulate_command.
  cbn [would_execute sim_risk_level sim_warnings blocked_reason].
  pose proof (blocking_verdict_has_a_reason self command) as Hr.
  split; [reflexivity|]. split; [reflexivity|]. split; [reflexivity|].
  destruct (allowed (evaluate_command self command)) eqn:Ha; cbn [negb].
  - split; [tauto|]. split; [discriminate|]. now split.
  - split; [split; discriminate|]. split.
    + intros r [= <-]. split; [reflexivity|now apply Hr].
    + intros Hen. unfold evaluate_command in Ha.
      rewrite (evaluate_command_disabled _ _ Hen) in Ha. discriminate Ha.
Qed.

Lemma simulation_agrees_with_evaluation_witness :
  blocked_reason (simulate_command (__init__ None) "rm -rf /")
    = Some "Attempting to delete root directory"
  /\ "Attempting to delete root directory" <> "".
Proof.
  split; [reflexivity|].
  apply (proj1 (proj2 (proj2 (proj2 (proj2
           (simulation_agrees_with_evaluation (__init__ None) "rm -rf /")))))
           "Attempting to delete root directory").
  reflexivity.
Defined.

(** X7. The description of a command word is looked up without regard to
    letter case: a word whose lower-case form is in the table gets the
    table's text, and any other word gets the generic text, which quotes the
    word as it was typed. *)
Theorem description_lookup_ignores_case (cmd : string) :
  (forall d, In (lower cmd, d) descriptions -> _describe_command cmd = d)
  /\ ((forall d, ~ In (lower cmd, d) descriptions) ->
      _describe_command cmd = "Executes the '" ++ cmd ++ "' command").
Proof.
  split.
  - intros d Hin. unfold _describe_command. unfold descriptions in Hin.
    cbn [In] in Hin.
    repeat (destruct Hin as [Hin|Hin];
            [injection Hin as <- <-; reflexivity|]).
    destruct Hin.
  - intros H. unfold _describe_command. now apply dict_get_absent.
Qed.

Lemma description_lookup_ignores_case_witness :
  _describe_command "RM" = "Removes/deletes files or directories"
  /\ _describe_command "Htop" = "Executes the 'Htop' command".
Proof.
  split.
  - apply (proj1 (description_lookup_ignores_case "RM")). simpl. tauto.
  - apply (proj2 (description_lookup_ignores_case "Htop")).
    intros d H. simpl in H.
    repeat (destruct H as [H|H]; [discriminate H|]). exact H.
Defined.

End GateProperties.

(* ================================================================== *)
(** ** More about the execution engine *)

Module ExecutorProperties.
Import Py PyFacts StringFacts CommandExecutor TranslatorFacts ExecutorFacts.

Lemma timeout_or_idem (t : option Z) (d : Z) :
  timeout_or (Some (timeout_or t d)) d = timeout_or t d.
Proof.
  unfold timeout_or. destruct t as [t|].
  - destruct (t =? 0)%Z eqn:E.
    + now destruct (d =? 0)%Z.
    + now rewrite E.
  - now destruct (d =? 0)%Z.
Qed.

(** Every call, whatever the backend: it returns and ends well; it starts
    one process on the backend it resolved to, and after a WSL failure one
    more on the native backend; and it kills only a child it started and
    that ran out of time. *)
Lemma execute_events env self w cmd wd t cap uw :
  exists o evs,
    execute env self w cmd wd t cap uw = Some o
    /\ well_formed env self w cmd o
    /\ events (snd o) = (events w ++ evs)%list
    /\ (exists c, backend_command false cmd = Ok c
        /\ (spawned evs = [popen_cmd false c]
              /\ resolve_use_wsl self uw = false
            \/ (spawned evs = [popen_cmd true cmd]
                \/ spawned evs = [popen_cmd true cmd; popen_cmd false c])
               /\ resolve_use_wsl self uw = true))
    /\ (In Kill evs ->
        exists argv p,
          In argv (spawned evs)
          /\ Popen env argv wd cap = Started p
          /\ communicate p (timeout_or t (timeout self)) = TimeoutExpired).
Proof.
  destruct (backend_command_total false cmd) as [c Hc].
  destruct (resolve_use_wsl self uw) eqn:Hb.
  - unfold execute. rewrite (execute_wsl _ _ _ _ _ _ _ _ _ Hb). cbv zeta.
    destruct (Popen env (popen_cmd true cmd) wd cap) as [p|e] eqn:Hp.
    + match goal with
      | |- context [wait_for p ?T ?w2] =>
          pose proof (wait_for_world p T w2) as [Hw _];
          destruct (wait_for_events p T w2) as (evs & Hev & Hsp & Hk);
          destruct (wait_for p T w2) as [[[[so se] rc]|e] w3]
      end; cbn [snd emit ticks events] in Hw, Hev.
      * destruct (negb (rc =? 0)%Z && _should_fallback_to_powershell se).
        -- destruct (execute_native_well_formed env 0 self w3 cmd wd
                       (Some (timeout_or t (timeout self))) cap (Some false)
                       (resolve_use_wsl_native self)) as (o & Ho & Hwf).
           destruct (execute_native_events env 0 self w3 cmd wd
                       (Some (timeout_or t (timeout self))) cap (Some false)
                       c o (resolve_use_wsl_native self) Hc Ho)
             as (evs' & Hev' & Hsp' & Hk').
           rewrite timeout_or_idem in Hk'. rewrite Ho.
           pose proof Hwf as (r & s' & w' & n & m & -> & _).
           exists (Ok r, s', w'),
             (Spawn (popen_cmd true cmd) wd cap :: evs
              ++ Spawn (popen_cmd false c) wd cap :: evs')%list.
           split; [reflexivity|]. split.
           { apply (well_formed_later env self w3 w); [lia|exact Hwf]. }
           split.
           { rewrite Hev', Hev. now rewrite <- !app_assoc. }
           split.
           { exists c. split; [exact Hc|]. right. split; [|reflexivity].
             right. cbn [spawned]. rewrite spawned_app. cbn [spawned].
             now rewrite Hsp, Hsp'. }
           cbn [spawned]. rewrite spawned_app. cbn [spawned].
           rewrite Hsp, Hsp'. cbn [app].
           intros [H|H]; [discriminate H|].
           apply in_app_or in H. destruct H as [H|[H|H]].
           ++ exists (popen_cmd true cmd), p.
              split; [now left|]. split; [exact Hp|now apply Hk].
           ++ discriminate H.
           ++ destruct (Hk' H) as (p' & Hp' & Hc').
              exists (popen_cmd false c), p'.
              split; [right; now left|]. now split.
        -- eexists _, (Spawn (popen_cmd true cmd) wd cap :: evs).
           split; [reflexivity|]. split.
           { apply record_well_formed. exact Hw. }
           split.
           { cbn [record_result now snd events]. rewrite Hev.
             now rewrite <- app_assoc. }
           split.
           { exists c. split; [exact Hc|]. right. split; [|reflexivity].
             left. cbn [spawned]. now rewrite Hsp. }
           cbn [spawned]. rewrite Hsp.
           intros [H|H]; [discriminate H|].
           exists (popen_cmd true cmd), p.
           split; [now left|]. split; [exact Hp|now apply Hk].
      * eexists _, (Spawn (popen_cmd true cmd) wd cap :: evs).
        split; [reflexivity|]. split.
        { apply handler_well_formed. exact Hw. }
        split.
        { cbn [handler now snd events]. rewrite Hev.
          now rewrite <- app_assoc. }
        split.
        { exists c. split; [exact Hc|]. right. split; [|reflexivity].
          left. cbn [spawned]. now rewrite Hsp. }
        cbn [spawned]. rewrite Hsp.
        intros [H|H]; [discriminate H|].
        exists (popen_cmd true cmd), p.
        split; [now left|]. split; [exact Hp|now apply Hk].
    + eexists _, [Spawn (popen_cmd true cmd) wd cap].
      split; [reflexivity|]. split.
      { now apply handler_well_formed. }
      split; [reflexivity|]. split.
      { exists c. split; [exact Hc|]. right. split; [|reflexivity].
        now left. }
      intros [H|[]]. discriminate H.
  - destruct (execute_native_well_formed env 1 self w cmd wd t cap uw Hb)
      as (o & Ho & Hwf).
    destruct (execute_native_events env 1 self w cmd wd t cap uw c o Hb Hc
                Ho) as (evs & Hev & Hsp & Hk).
    exists o, (Spawn (popen_cmd false c) wd cap :: evs).
    split; [exact Ho|]. split; [exact Hwf|]. split; [exact Hev|]. split.
    + exists c. split; [exact Hc|]. left. split; [|reflexivity].
      cbn [spawned]. now rewrite Hsp.
    + cbn [spawned]. rewrite Hsp. intros [H|H]; [discriminate H|].
      destruct (Hk H) as (p & Hp & Hc'). exists (popen_cmd false c), p.
      split; [now left|]. now split.
Qed.

(** A call that resolves to the native backend starts exactly one process,
    PowerShell with the translated command. *)
Lemma native_route env self w cmd wd t cap uw :
  resolve_use_wsl self uw = false ->
  exists c r self' w',
    backend_command false cmd = Ok c
    /\ execute env self w cmd wd t cap uw = Some (Ok r, self', w')
    /\ spawned (events w')
       = (spawned (events w) ++ [["powershell.exe"; "-Command"; c]])%list.
Proof.
  intros Hb.
  destruct (execute_events env self w cmd wd t cap uw)
    as (o & evs & Ho & Hwf & Hev & (c & Hc & Hs) & _).
  destruct Hwf as (r & s' & w' & n & m & -> & _).
  exists c, r, s', w'. split; [exact Hc|]. split; [exact Ho|].
  cbn [snd] in Hev. rewrite Hev, spawned_app.
  destruct Hs as [[-> _]|[_ H]]; [reflexivity|congruence].
Qed.

(** X8. A call never starts WSL when WSL is not available to the executor,
    when the caller passes [use_wsl=False], or when neither the caller nor
    the executor asks for it: it starts exactly one process, PowerShell
    with the command translated if its leading word is in the table. *)
Theorem native_call_starts_one_powershell env self w cmd wd t cap uw :
  _wsl_available self = false \/ uw = Some false
  \/ (uw = None /\ use_wsl self = false) ->
  exists c r self' w',
    backend_command false cmd = Ok c
    /\ execute env self w cmd wd t cap uw = Some (Ok r, self', w')
    /\ spawned (events w')
       = (spawned (events w) ++ [["powershell.exe"; "-Command"; c]])%list.
Proof.
  intros H. apply native_route. unfold resolve_use_wsl.
  destruct H as [H|[->|[-> H]]]; [rewrite H| |rewrite H]; cbn;
    try reflexivity.
  destruct uw as [[]|]; [reflexivity..|]. now destruct (use_wsl self).
Qed.

Lemma native_call_starts_one_powershell_witness :
  exists r self' w',
    execute (machine (ending "" "" 0) (ending "" "" 0)) wsl_executor fresh
      "mkdir demo" None None true (Some false) = Some (Ok r, self', w')
    /\ spawned (events w')
       = [["powershell.exe"; "-Command";
           "New-Item -ItemType Directory " ++ quoted "demo" ++ " -Force"]].
Proof.
  destruct (native_call_starts_one_powershell
              (machine (ending "" "" 0) (ending "" "" 0)) wsl_executor fresh
              "mkdir demo" None None true (Some false))
    as (c & r & s' & w' & Hc & H & Hsp).
  - right. left. reflexivity.
  - exists r, s', w'. split; [exact H|]. injection Hc as <-. exact Hsp.
Defined.

(** X9. An executor as [__init__] builds it prefers WSL only if the probe
    found WSL, and starts with an empty history. On a machine without
    [wsl] on the path, every call of such an executor starts PowerShell and
    nothing else, also when the configuration or the caller asks for WSL. *)
Theorem init_never_routes_to_missing_wsl env config :
  let self := __init__ env config in
  (use_wsl self = true -> _wsl_available self = true)
  /\ execution_history self = []
  /\ (which env "wsl" = false ->
      forall w cmd wd t cap uw,
      exists c r self' w',
        backend_command false cmd = Ok c
        /\ execute env self w cmd wd t cap uw = Some (Ok r, self', w')
        /\ spawned (events w')
           = (spawned (events w)
              ++ [["powershell.exe"; "-Command"; c]])%list).
Proof.
  cbv zeta. split; [|split; [reflexivity|]].
  - unfold __init__. cbn [use_wsl _wsl_available].
    destruct (match cfg_use_wsl _ with Some b => b | None => false end);
      destruct (_detect_wsl env); cbn; congruence.
  - intros Hw w cmd wd t cap uw. apply native_route.
    unfold resolve_use_wsl, __init__, _detect_wsl. rewrite Hw. cbn.
    destruct uw as [[]|]; try reflexivity.
    now destruct (match cfg_use_wsl _ with Some b => b | None => false end).
Qed.

Lemma init_never_routes_to_missing_wsl_witness :
  exists r self' w',
    execute no_backend (__init__ no_backend (Some (mkConfig None (Some true))))
      fresh "ls" None None true (Some true) = Some (Ok r, self', w')
    /\ spawned (events w') = [["powershell.exe"; "-Command"; "Get-ChildItem"]].
Proof.
  destruct (proj2 (proj2 (init_never_routes_to_missing_wsl no_backend
                            (Some (mkConfig None (Some true)))))
              eq_refl fresh "ls" None None true (Some true))
    as (c & r & s' & w' & Hc & H & Hsp).
  exists r, s', w'. split; [exact H|]. injection Hc as <-. exact Hsp.
Defined.

(** X10. A call changes nothing of the executor but its history, and the
    history only grows at its end: the entries it had stay where they were,
    and at most the returned dictionary is added after them. *)
Theorem execute_only_appends env self w cmd wd t cap uw r self' w' :
  execute env self w cmd wd t cap uw = Some (Ok r, self', w') ->
  timeout self' = timeout self
  /\ use_wsl self' = use_wsl self
  /\ _wsl_available self' = _wsl_available self
  /\ (execution_history self' = execution_history self
      \/ execution_history self' = (execution_history self ++ [r])%list)
  /\ firstn (List.length (execution_history self)) (execution_history self')
     = execution_history self.
Proof.
  intros H.
  destruct (execute_well_formed env self w cmd wd t cap uw)
    as (o & Ho & r0 & s0 & w0 & n & m & -> & _ & _ & _ & _ & _ & _ & _ & _
        & Hh).
  rewrite H in Ho. injection Ho as <- <- <-.
  destruct Hh as [(-> & _) | -> ].
  - repeat split; try reflexivity; [now left | apply firstn_all].
  - cbn [set_history timeout use_wsl _wsl_available execution_history].
    repeat split; try reflexivity; [now right|].
    rewrite firstn_app, Nat.sub_diag, firstn_all. cbn [firstn].
    apply app_nil_r.
Qed.

Lemma execute_only_appends_witness :
  exists r self' w',
    execute (machine (ending "" "" 0) (ending "a.txt" "" 0))
      (mkExecutor 5 false false
         [failed_result "old" (Exception "x") 0 1])
      fresh "ls" None None true None = Some (Ok r, self', w')
    /\ execution_history self'
       = [failed_result "old" (Exception "x") 0 1; r].
Proof.
  eexists _, _, _. split; [reflexivity|].
  destruct (execute_only_appends
              (machine (ending "" "" 0) (ending "a.txt" "" 0))
              (mkExecutor 5 false false
                 [failed_result "old" (Exception "x") 0 1])
              fresh "ls" None None true None _ _ _ eq_refl)
    as (_ & _ & _ & [H|H] & _); [discriminate H | exact H].
Defined.

(** For a positive count the two readings of [get_recent_executions]
    agree. *)
Lemma recent_executions_positive (self : CommandExecutor) (count : Z) :
  (0 < count)%Z ->
  get_recent_executions_int self count
  = get_recent_executions self (Z.to_nat count).
Proof.
  intros Hc.
  unfold get_recent_executions_int, get_recent_executions, slice_from.
  assert (Hlt : (- count <? 0)%Z = true) by (apply Z.ltb_lt; lia).
  rewrite Hlt. destruct (Z.to_nat count) as [|k] eqn:Ek; [lia|].
  f_equal. lia.
Qed.

(** X11. [get_recent_executions(count)] returns the last [count] entries of
    the history, all of them when there are fewer, for a positive [count];
    for a [count] of zero it returns the whole history, not an empty list. *)
Theorem recent_executions_are_the_last_ones (self : CommandExecutor)
    (count : Z) :
  ((0 < count)%Z ->
     get_recent_executions_int self count
     = get_recent_executions self (Z.to_nat count)
     /\ List.length (get_recent_executions_int self count)
        = Nat.min (Z.to_nat count) (List.length (execution_history self))
     /\ exists older,
          execution_history self
          = (older ++ get_recent_executions_int self count)%list)
  /\ get_recent_executions_int self 0 = execution_history self.
Proof.
  split.
  - intros Hc. rewrite (recent_executions_positive _ _ Hc).
    split; [reflexivity|]. unfold get_recent_executions.
    destruct (Z.to_nat count) as [|k] eqn:Ek; [lia|]. split.
    + rewrite length_skipn. lia.
    + eexists. symmetry. apply firstn_skipn.
  - unfold get_recent_executions_int, slice_from. cbn.
    replace (Z.min 0 (Z.of_nat (List.length (execution_history self))))
      with 0%Z by lia.
    reflexivity.
Qed.

Lemma recent_executions_are_the_last_ones_witness :
  get_recent_executions_int
    (mkExecutor 5 false false
       [failed_result "a" (Exception "x") 0 1;
        failed_result "b" (Exception "x") 2 3;
        failed_result "c" (Exception "x") 4 5]) 2
  = [failed_result "b" (Exception "x") 2 3;
     failed_result "c" (Exception "x") 4 5].
Proof.
  rewrite (proj1 (proj1 (recent_executions_are_the_last_ones
                           (mkExecutor 5 false false
                              [failed_result "a" (Exception "x") 0 1;
                               failed_result "b" (Exception "x") 2 3;
                               failed_result "c" (Exception "x") 4 5]) 2)
                    eq_refl)).
  reflexivity.
Defined.

(** X12. After a call, a returned dictionary whose exit code is not -1 is
    the most recent execution: [get_recent_executions(1)] returns exactly
    it. *)
Theorem completed_call_is_the_most_recent
    env self w cmd wd t cap uw r self' w' :
  execute env self w cmd wd t cap uw = Some (Ok r, self', w') ->
  exit_code r <> (-1)%Z ->
  get_recent_executions_int self' 1 = [r]
  /\ get_recent_executions self' 1 = [r].
Proof.
  intros H Hrc.
  destruct (execute_well_formed env self w cmd wd t cap uw)
    as (o & Ho & r0 & s0 & w0 & n & m & -> & _ & _ & _ & _ & _ & _ & _ & _
        & Hh).
  rewrite H in Ho. injection Ho as <- <- <-.
  destruct Hh as [(_ & Hx & _) | -> ]; [contradiction|].
  assert (E : get_recent_executions
                (set_history self (execution_history self ++ [r])%list) 1
              = [r]).
  { unfold get_recent_executions. cbn [set_history execution_history].
    rewrite length_app. cbn [List.length].
    replace (List.length (execution_history self) + 1 - 1)%nat
      with (List.length (execution_history self) + 0)%nat by lia.
    now rewrite skipn_app, Nat.add_0_r, skipn_all, Nat.sub_diag. }
  split; [|exact E].
  rewrite (recent_executions_positive _ 1 eq_refl). exact E.
Qed.

Lemma completed_call_is_the_most_recent_witness :
  exists r self' w',
    execute (machine (ending "" "" 0) (ending "a.txt" "" 0)) native_executor
      fresh "ls" None None true None = Some (Ok r, self', w')
    /\ get_recent_executions_int self' 1 = [r].
Proof.
  eexists _, _, _. split; [reflexivity|].
  apply (completed_call_is_the_most_recent
           (machine (ending "" "" 0) (ending "a.txt" "" 0)) native_executor
           fresh "ls" None None true None _ _ _ eq_refl).
  discriminate.
Defined.

(** X13. A call kills no child unless one ran out of time: if every child
    that can be started ends within the timeout of the call, the events of
    the call hold no kill. *)
Theorem child_is_killed_only_on_timeout
    env self w cmd wd t cap uw r self' w' :
  (forall argv p, Popen env argv wd cap = Started p ->
                  communicate p (timeout_or t (timeout self))
                  <> TimeoutExpired) ->
  execute env self w cmd wd t cap uw = Some (Ok r, self', w') ->
  exists evs, events w' = (events w ++ evs)%list /\ ~ In Kill evs.
Proof.
  intros Hno H.
  destruct (execute_events env self w cmd wd t cap uw)
    as (o & evs & Ho & _ & Hev & _ & Hk).
  rewrite H in Ho. injection Ho as <-. cbn [snd] in Hev.
  exists evs. split; [exact Hev|].
  intros Hin. destruct (Hk Hin) as (argv & p & _ & Hp & Hc).
  exact (Hno argv p Hp Hc).
Qed.

Lemma child_is_killed_only_on_timeout_witness :
  exists r self' w' evs,
    execute (uniform (ending "a.txt" "" 0)) native_executor
      fresh "ls" None None true None = Some (Ok r, self', w')
    /\ events w' = evs /\ ~ In Kill evs.
Proof.
  assert (Hno : forall argv p,
            Popen (uniform (ending "a.txt" "" 0)) argv None true = Started p ->
            communicate p (timeout_or None (timeout native_executor))
            <> TimeoutExpired)
    by (intros argv p [= <-]; discriminate).
  eexists _, _, _. 
  destruct (child_is_killed_only_on_timeout
              (uniform (ending "a.txt" "" 0)) native_executor fresh "ls"
              None None true None _ _ _ Hno eq_refl) as (evs & Hev & Hk).
  exists evs. split; [reflexivity|]. split; [exact Hev|exact Hk].
Defined.

(** X14. On the WSL backend the command is handed to [bash] as typed, also
    when its leading word is in the translation table: if the child ends
    with code zero, or with an error text that carries no fallback
    signature, the call starts that one process only and records its
    result. *)
Theorem wsl_runs_the_command_untranslated
    env self w cmd wd t cap uw p out err rc :
  resolve_use_wsl self uw = true ->
  Popen env ["wsl"; "bash"; "-lc"; cmd] wd cap = Started p ->
  communicate p (timeout_or t (timeout self)) = Exited out err rc ->
  rc = 0%Z \/ _should_fallback_to_powershell err = false ->
  exists r w',
    execute env self w cmd wd t cap uw
    = Some (Ok r, set_history self (execution_history self ++ [r])%list, w')
    /\ r = completed_result cmd out err rc (clock env (ticks w))
             (clock env (S (ticks w)))
    /\ events w'
       = (events w
          ++ [Spawn ["wsl"; "bash"; "-lc"; cmd] wd cap;
              Wait (Some (timeout_or t (timeout self)))])%list.
Proof.
  intros Hb Hp Hcomm Hok. unfold execute.
  rewrite (execute_wsl _ _ _ _ _ _ _ _ _ Hb). cbv zeta.
  change (popen_cmd true cmd) with ["wsl"; "bash"; "-lc"; cmd].
  rewrite Hp. unfold wait_for. rewrite Hcomm.
  assert (Hf : negb (rc =? 0)%Z && _should_fallback_to_powershell err
               = false).
  { destruct Hok as [ -> | -> ]; [reflexivity|apply andb_false_r]. }
  rewrite Hf. cbn [record_result now]. eexists _, _.
  split; [reflexivity|]. split; [reflexivity|].
  cbn [events emit]. now rewrite <- app_assoc.
Qed.

Lemma wsl_runs_the_command_untranslated_witness :
  exists r self' w',
    execute (machine (ending "a.txt" "" 0) (ending "" "" 1)) wsl_executor
      fresh "ls -la" None None true None = Some (Ok r, self', w')
    /\ spawned (events w') = [["wsl"; "bash"; "-lc"; "ls -la"]].
Proof.
  destruct (wsl_runs_the_command_untranslated
              (machine (ending "a.txt" "" 0) (ending "" "" 1)) wsl_executor
              fresh "ls -la" None None true None (ending "a.txt" "" 0)
              (Some "a.txt") (Some "") 0 eq_refl eq_refl eq_refl
              (or_introl eq_refl))
    as (r & w' & H & _ & Hev).
  eexists _, _, _. split; [exact H|]. rewrite Hev. reflexivity.
Defined.

End ExecutorProperties.

(* ================================================================== *)
(** ** More about the translator and the preview *)

Module TranslatorProperties.
Import Py PyFacts StringFacts CommandExecutor TranslatorFacts.

(** The leading-word test looks at the first word and nothing else. *)
Lemma is_linux_command_words (command cmd : string) (args : list string) :
  split (strip command) = cmd :: args ->
  _is_linux_command command = Ok (existsb (String.eqb cmd) linux_commands).
Proof.
  intros E. unfold _is_linux_command. rewrite E.
  destruct (strip command) as [|c s]; [discriminate E|].
  cbn [truthy_str]. now rewrite index_0_cons.
Qed.

Lemma is_linux_command_no_words (command : string) :
  split (strip command) = [] -> _is_linux_command command = Ok false.
Proof.
  intros E. unfold _is_linux_command.
  destruct (truthy_str (strip command)) eqn:Ht; [|reflexivity].
  now apply split_strip_nonempty in Ht.
Qed.

(** For a leading word in the table the translation is made of the words
    alone. *)
Lemma translate_chain_mapped (c1 c2 cmd : string) (args : list string) :
  existsb (String.eqb cmd) linux_commands = true ->
  translate_chain c1 cmd args = translate_chain c2 cmd args.
Proof.
  intros H. cbn [existsb linux_commands] in H.
  repeat (apply orb_true_iff in H; destruct H as [H|H];
          [apply String.eqb_eq in H; subst cmd; reflexivity|]).
  discriminate H.
Qed.

(** X15. For a command whose leading word is in the translation table, the
    translation depends on the words of the command only: leading, trailing
    and repeated whitespace make no difference. *)
Theorem translation_depends_on_words_only (c1 c2 : string) :
  split (strip c1) = split (strip c2) ->
  _is_linux_command c1 = Ok true ->
  _translate_to_windows c1 = _translate_to_windows c2.
Proof.
  intros E H. destruct (split (strip c1)) as [|cmd args] eqn:E1.
  - rewrite (is_linux_command_no_words _ E1) in H. discriminate H.
  - rewrite (is_linux_command_words _ _ _ E1) in H. injection H as H.
    rewrite (translate_words _ _ _ E1), (translate_words c2 cmd args)
      by now symmetry.
    now apply translate_chain_mapped.
Qed.

Lemma translation_depends_on_words_only_witness :
  _translate_to_windows "  cp   a    b " = _translate_to_windows "cp a b".
Proof.
  apply (translation_depends_on_words_only "  cp   a    b " "cp a b");
    reflexivity.
Defined.

(** X16. The entries that take no argument (ls, pwd, clear, ps, df, whoami,
    hostname, date) drop whatever follows the leading word: flags and paths
    do not reach the translation. *)
Theorem argument_free_entries_drop_arguments
    (command cmd out : string) (args : list string) :
  split (strip command) = cmd :: args ->
  In (cmd, out) argument_free ->
  _translate_to_windows command = Ok out.
Proof.
  intros E Hin. rewrite (translate_words _ _ _ E).
  unfold argument_free in Hin. cbn [In] in Hin.
  repeat (destruct Hin as [Hin|Hin];
          [injection Hin as <- <-; reflexivity|]).
  destruct Hin.
Qed.

Lemma argument_free_entries_drop_arguments_witness :
  _translate_to_windows "ls -la /tmp" = Ok "Get-ChildItem".
Proof.
  apply (argument_free_entries_drop_arguments "ls -la /tmp" "ls"
           "Get-ChildItem" ["-la"; "/tmp"]); [reflexivity|].
  simpl. tauto.
Defined.

(** X17. The entries cat, touch, mkdir, rm, kill, find and wc read their
    first argument and ignore the others: two commands with the same
    leading word and first argument have the same translation. For [rm]
    the first argument is used as the target also when it is a flag. *)
Theorem only_the_first_argument_is_read
    (c1 c2 cmd a : string) (rest1 rest2 : list string) :
  In cmd first_argument_only ->
  split (strip c1) = cmd :: a :: rest1 ->
  split (strip c2) = cmd :: a :: rest2 ->
  _translate_to_windows c1 = _translate_to_windows c2.
Proof.
  intros Hin E1 E2.
  rewrite (translate_words _ _ _ E1), (translate_words _ _ _ E2).
  unfold first_argument_only in Hin. cbn [In] in Hin.
  repeat (destruct Hin as [<-|Hin];
          [unfold translate_chain;
           cbn [String.eqb Ascii.eqb Bool.eqb truthy_list];
           now rewrite !index_0_cons|]).
  destruct Hin.
Qed.

Lemma only_the_first_argument_is_read_witness :
  _translate_to_windows "rm -rf build"
  = Ok ("Remove-Item " ++ quoted "-rf" ++ " -Force").
Proof.
  rewrite (only_the_first_argument_is_read "rm -rf build" "rm -rf" "rm"
             "-rf" ["build"] []); [reflexivity|simpl; tauto| |];
    reflexivity.
Defined.

(** X18. [preview_command] describes exactly the commands the translator
    knows: a blank command is "Empty command" and not safe; any other
    command is reported safe, with the table's text when its leading word
    is translatable and the generic text naming that word otherwise. *)
Theorem preview_describes_the_translatable_commands (command : string) :
  (split (strip command) = [] ->
     preview_command command = mkPreview command "Empty command" false)
  /\ forall cmd args,
       split (strip command) = cmd :: args ->
       safe (preview_command command) = true
       /\ pv_command (preview_command command) = command
       /\ (_is_linux_command command = Ok true ->
           exists d, In (cmd, d) preview_descriptions
                     /\ pv_description (preview_command command) = d)
       /\ (_is_linux_command command = Ok false ->
           pv_description (preview_command command)
           = "Runs the command: " ++ cmd).
Proof.
  unfold preview_command. split; [now intros ->|].
  intros cmd args E. rewrite E, (is_linux_command_words _ _ _ E).
  cbn [safe pv_command pv_description].
  split; [reflexivity|]. split; [reflexivity|]. split; intros [= H].
  - cbn [existsb linux_commands] in H.
    repeat (apply orb_true_iff in H; destruct H as [H|H];
            [apply String.eqb_eq in H; subst cmd;
             eexists; split; [|reflexivity]; simpl; tauto|]).
    discriminate H.
  - cbn [existsb linux_commands] in H.
    repeat (apply orb_false_iff in H; destruct H as [? H]).
    unfold preview_descriptions. cbn [dict_get].
    repeat match goal with
           | E : (cmd =? ?s) = false |- _ => rewrite E; clear E
           end.
    reflexivity.
Qed.

Lemma preview_describes_the_translatable_commands_witness :
  pv_description (preview_command "git status")
  = "Runs the command: git"
  /\ safe (preview_command "rm -rf /") = true.
Proof.
  split.
  - apply (proj2 (preview_describes_the_translatable_commands "git status")
             "git" ["status"] eq_refl).
    reflexivity.
  - apply (proj2 (preview_describes_the_translatable_commands "rm -rf /")
             "rm" ["-rf"; "/"] eq_refl).
Defined.

End TranslatorProperties.

(* ================================================================== *)
(** ** The fallback signatures *)

Module FallbackProperties.
Import Py PyFacts StringFacts CommandExecutor.

Lemma truthy_lower (s : string) : truthy_str (lower s) = truthy_str s.
Proof. now destruct s. Qed.

Lemma truthy_wrap (a s b : string) :
  truthy_str s = true -> truthy_str (a ++ s ++ b) = true.
Proof. destruct a; [|reflexivity]. now destruct s. Qed.

(** X19. The test for a fallback signature never fires on a missing or
    empty error text, does not depend on letter case, and is not misled by
    other output: if an error text carries a signature, so does every text
    that contains it. *)
Theorem fallback_signature_detection :
  _should_fallback_to_powershell None = false
  /\ _should_fallback_to_powershell (Some "") = false
  /\ (forall s, _should_fallback_to_powershell (Some (lower s))
                = _should_fallback_to_powershell (Some s))
  /\ (forall a s b,
        _should_fallback_to_powershell (Some s) = true ->
        _should_fallback_to_powershell (Some (a ++ s ++ b)) = true).
Proof.
  split; [reflexivity|]. split; [reflexivity|]. split.
  - intros s. unfold _should_fallback_to_powershell. cbn [or_empty].
    now rewrite truthy_lower, lower_idem.
  - intros a s b. unfold _should_fallback_to_powershell. cbn [or_empty].
    destruct (truthy_str s) eqn:Hs; cbn [negb]; [|discriminate].
    rewrite (truthy_wrap a s b Hs). cbn [negb]. rewrite !lower_app.
    apply existsb_mono. intros tok. apply contains_wrap.
Qed.

Lemma fallback_signature_detection_witness :
  _should_fallback_to_powershell
    (Some "wsl: Bash: Not Found (exit 127)") = true.
Proof.
  pose proof fallback_signature_detection as (_ & _ & Hcase & Hwrap).
  rewrite <- Hcase.
  apply (Hwrap "wsl: " "bash: not found" " (exit 127)"). reflexivity.
Defined.

End FallbackProperties.

(* ================================================================== *)
(** ** Words, stripping and lines *)

Module TextFacts.
Import Py PyFacts StringFacts.

Lemma append_nil_r (s : string) : s ++ "" = s.
Proof. induction s as [|c s IH]; simpl; [reflexivity|now rewrite IH]. Qed.

Lemma append_assoc (a b c : string) : (a ++ b) ++ c = a ++ (b ++ c).
Proof. induction a as [|x a IH]; simpl; [reflexivity|now rewrite IH]. Qed.

Lemma no_space_app (a b : string) :
  no_space (a ++ b) = no_space a && no_space b.
Proof.
  induction a as [|c a IH]; simpl; [reflexivity|].
  now rewrite IH, andb_assoc.
Qed.

(** The words [split] yields are not empty and hold no whitespace. *)
Lemma split_from_words (s cur w : string) :
  no_space cur = true ->
  In w (split_from cur s) -> w <> "" /\ no_space w = true.
Proof.
  revert cur. induction s as [|c s IH]; intros cur Hcur; simpl.
  - destruct cur; [intros []|].
    intros [<-|[]]. split; [discriminate|exact Hcur].
  - destruct (isspace c) eqn:Hc.
    + destruct cur as [|d cur]; [now apply IH|].
      intros [<-|H]; [split; [discriminate|exact Hcur]|].
      now apply (IH "").
    + apply IH. rewrite no_space_app, Hcur. simpl. now rewrite Hc.
Qed.

Lemma split_words (s w : string) :
  In w (split s) -> w <> "" /\ no_space w = true.
Proof. now apply split_from_words. Qed.

(** Whitespace in front makes no difference to the words. *)
Lemma split_lstrip (s : string) : split (lstrip s) = split s.
Proof.
  unfold split. induction s as [|c s IH]; simpl; [reflexivity|].
  destruct (isspace c) eqn:Hc; [exact IH|].
  simpl. now rewrite Hc.
Qed.

(** Nor does whitespace at the end. *)
Lemma split_from_trailing (t ws cur : string) :
  all_space ws = true -> split_from cur (t ++ ws) = split_from cur t.
Proof.
  intros Hws. revert cur. induction t as [|c t IH]; intros cur; simpl.
  - induction ws as [|d ws IHws]; simpl; [reflexivity|].
    simpl in Hws. apply andb_true_iff in Hws. destruct Hws as [Hd Hws].
    rewrite Hd. destruct cur as [|x cur].
    + now apply IHws.
    + f_equal. specialize (IHws Hws). clear - IHws Hws.
      induction ws as [|e ws IH]; simpl; [reflexivity|].
      simpl in Hws. apply andb_true_iff in Hws. destruct Hws as [He Hws].
      rewrite He. now apply blank_split in Hws.
  - destruct (isspace c); [|apply IH].
    destruct cur; now rewrite IH.
Qed.

Lemma lstrip_decompose (t : string) :
  exists ws, t = ws ++ lstrip t /\ all_space ws = true.
Proof.
  induction t as [|c t (ws & Hws & Ha)]; simpl; [now exists ""|].
  destruct (isspace c) eqn:Hc.
  - exists (String c ws). simpl. rewrite Hc, Ha. split; [|reflexivity].
    now rewrite <- Hws.
  - now exists "".
Qed.

Lemma list_of_append (a b : string) :
  list_ascii_of_string (a ++ b)
  = (list_ascii_of_string a ++ list_ascii_of_string b)%list.
Proof. induction a as [|c a IH]; simpl; [reflexivity|now rewrite IH]. Qed.

Lemma string_of_app (x y : list ascii) :
  string_of_list_ascii (x ++ y)%list
  = string_of_list_ascii x ++ string_of_list_ascii y.
Proof. induction x as [|c x IH]; simpl; [reflexivity|now rewrite IH]. Qed.

Lemma rev_string_app (a b : string) :
  rev_string (a ++ b) = rev_string b ++ rev_string a.
Proof.
  unfold rev_string. now rewrite list_of_append, rev_app_distr, string_of_app.
Qed.

Lemma rev_string_involutive (s : string) : rev_string (rev_string s) = s.
Proof.
  unfold rev_string.
  now rewrite list_ascii_of_string_of_list_ascii, rev_involutive,
    string_of_list_ascii_of_string.
Qed.

Lemma all_space_forallb (s : string) :
  all_space s = forallb isspace (list_ascii_of_string s).
Proof. induction s as [|c s IH]; simpl; [reflexivity|now rewrite IH]. Qed.

Lemma all_space_rev (s : string) :
  all_space s = true -> all_space (rev_string s) = true.
Proof.
  rewrite !all_space_forallb. unfold rev_string.
  rewrite list_ascii_of_string_of_list_ascii, !forallb_forall.
  intros H c Hc. apply H. now apply in_rev.
Qed.

(** A string is what [rstrip] leaves of it, followed by whitespace. *)
Lemma rstrip_decompose (s : string) :
  exists ws, s = rstrip s ++ ws /\ all_space ws = true.
Proof.
  destruct (lstrip_decompose (rev_string s)) as (ws & Hws & Ha).
  exists (rev_string ws). split; [|now apply all_space_rev].
  unfold rstrip. rewrite <- rev_string_app, <- Hws.
  symmetry. apply rev_string_involutive.
Qed.

(** [s.strip().split()] and [s.split()] are the same words. *)
Lemma split_strip (s : string) : split (strip s) = split s.
Proof.
  unfold strip. rewrite split_lstrip.
  destruct (rstrip_decompose s) as (ws & Hws & Ha).
  rewrite Hws at 2. unfold split. symmetry. now apply split_from_trailing.
Qed.

(** Reading a line that holds no line break. *)
Lemma splitlines_from_line (x rest cur : string) :
  CommandHistory.no_linebreak x = true ->
  splitlines_from cur (x ++ rest) = splitlines_from (cur ++ x) rest.
Proof.
  revert cur. induction x as [|c x IH]; intros cur Hx; simpl.
  - now rewrite append_nil_r.
  - simpl in Hx. apply andb_true_iff in Hx. destruct Hx as [Hc Hx].
    apply negb_true_iff in Hc. rewrite Hc, (IH _ Hx).
    now rewrite append_assoc.
Qed.

Lemma splitlines_from_newline (rest cur : string) :
  splitlines_from cur (CommandHistory.newline ++ rest)
  = cur :: splitlines_from "" rest.
Proof. now destruct rest. Qed.

(** Lines joined by line feeds are read back as they were, provided none
    holds a line break and the last one is not empty. *)
Lemma splitlines_join (l : list string) :
  (forall x, In x l -> CommandHistory.no_linebreak x = true) ->
  last l "x" <> "" ->
  splitlines (join CommandHistory.newline l) = l.
Proof.
  unfold splitlines, join. induction l as [|x l IH]; intros Hl Hlast;
    [reflexivity|].
  destruct l as [|y l].
  - cbn [concat]. rewrite <- (append_nil_r x) at 1.
    rewrite splitlines_from_line by (apply Hl; now left).
    cbn. destruct x; [now contradict Hlast|reflexivity].
  - change (concat CommandHistory.newline (x :: y :: l))
      with (x ++ CommandHistory.newline
              ++ concat CommandHistory.newline (y :: l)).
    rewrite splitlines_from_line by (apply Hl; now left).
    rewrite splitlines_from_newline. cbn [append]. f_equal.
    apply IH; [intros z Hz; apply Hl; now right|exact Hlast].
Qed.

End TextFacts.

(* ================================================================== *)
(** ** The line parser and the command history *)

Module InputProperties.
Import Py PyFacts StringFacts TextFacts.

(** X20. The loop of [start] hands [_parse_input] a stripped line that is
    not empty. For such a line the parsed command is its first word, which
    is not empty and holds no whitespace, the arguments are the other
    words, the raw text is the stripped line, and the command counts as
    built in exactly when that first word is one of the seven built-in
    names. *)
Theorem parse_of_a_typed_line (user_input : string) :
  truthy_str (strip user_input) = true ->
  let p := CLIFramework._parse_input (strip user_input) in
  CLIFramework.raw p = strip user_input
  /\ split user_input = CLIFramework.command p :: CLIFramework.args p
  /\ CLIFramework.command p <> ""
  /\ no_space (CLIFramework.command p) = true
  /\ CLIFramework.is_builtin p
     = existsb (String.eqb (CLIFramework.command p)) CLIFramework.builtins.
Proof.
  intros Ht. cbv zeta. unfold CLIFramework._parse_input.
  pose proof (split_strip_nonempty _ Ht) as Hne.
  pose proof (split_strip (strip user_input)) as E1.
  pose proof (split_strip user_input) as E2.
  destruct (split (strip user_input)) as [|cmd args] eqn:E;
    [congruence|].
  cbn [CLIFramework.raw CLIFramework.command CLIFramework.args
       CLIFramework.is_builtin].
  split; [reflexivity|]. split; [now symmetry|].
  destruct (split_words (strip user_input) cmd) as [H1 H2].
  { rewrite E. now left. }
  now repeat split.
Qed.

Lemma parse_of_a_typed_line_witness :
  CLIFramework._parse_input (strip "  rm  -rf   build ")
  = CLIFramework.mkParsed "rm  -rf   build" "rm" ["-rf"; "build"] false.
Proof.
  pose proof (parse_of_a_typed_line "  rm  -rf   build " eq_refl)
    as (H1 & H2 & _ & _ & H5).
  destruct (CLIFramework._parse_input (strip "  rm  -rf   build "))
    as [r c a b].
  cbn [CLIFramework.raw CLIFramework.command CLIFramework.args
       CLIFramework.is_builtin] in H1, H2, H5.
  injection H2 as <- <-. subst r b. reflexivity.
Defined.

Lemma slice_last_short {A} (l : list A) (m : Z) :
  (0 <= m)%Z -> (Z.of_nat (List.length l) <= m)%Z ->
  slice_from l (- m) = l.
Proof.
  intros H0 Hm. unfold slice_from.
  destruct (- m <? 0)%Z eqn:E.
  - replace (Z.to_nat (Z.max (Z.of_nat (List.length l) + - m) 0))
      with 0%nat by lia.
    reflexivity.
  - apply Z.ltb_ge in E.
    replace (Z.to_nat (Z.min (- m) (Z.of_nat (List.length l))))
      with 0%nat by lia.
    reflexivity.
Qed.

Lemma slice_zero {A} (l : list A) : slice_from l 0 = l.
Proof.
  unfold slice_from. cbn.
  replace (Z.to_nat (Z.min 0 (Z.of_nat (List.length l)))) with 0%nat by lia.
  reflexivity.
Qed.

Lemma slice_last_long {A} (l : list A) (m : Z) :
  (1 <= m)%Z ->
  slice_from l (- m) = skipn (List.length l - Z.to_nat m) l.
Proof.
  intros Hm. unfold slice_from.
  assert (E : (- m <? 0)%Z = true) by (apply Z.ltb_lt; lia).
  rewrite E. f_equal. lia.
Qed.

(** The commands kept by [add]: all of them, or the last [max_history]. *)
Lemma add_commands (self : CommandHistory.CommandHistory) (c : string)
    (f : CommandHistory.File) :
  (0 <= CommandHistory.max_history self)%Z ->
  let all := (CommandHistory.commands self ++ [c])%list in
  CommandHistory.commands (fst (CommandHistory.add self c f))
  = skipn (if (CommandHistory.max_history self =? 0)%Z then 0
           else List.length all
                - Z.to_nat (CommandHistory.max_history self)) all.
Proof.
  intros H0. cbv zeta. unfold CommandHistory.add.
  cbn [fst CommandHistory.commands].
  set (all := (CommandHistory.commands self ++ [c])%list).
  destruct (CommandHistory.max_history self =? 0)%Z eqn:Ez.
  - apply Z.eqb_eq in Ez. rewrite Ez.
    destruct (0 <? Z.of_nat (List.length all))%Z; [|reflexivity].
    unfold slice_from. cbn.
    replace (Z.to_nat (Z.min 0 (Z.of_nat (List.length all)))) with 0%nat
      by lia.
    reflexivity.
  - apply Z.eqb_neq in Ez.
    destruct (CommandHistory.max_history self
              <? Z.of_nat (List.length all))%Z eqn:El.
    + apply slice_last_long. lia.
    + apply Z.ltb_ge in El.
      replace (List.length all
               - Z.to_nat (CommandHistory.max_history self))%nat
        with 0%nat by lia.
      reflexivity.
Qed.

Lemma add_drops (self : CommandHistory.CommandHistory) (c : string)
    (f : CommandHistory.File) :
  (0 <= CommandHistory.max_history self)%Z ->
  CommandHistory.commands (fst (CommandHistory.add self c f))
  = skipn (CommandHistory.dropped_by_add self) (CommandHistory.commands self ++ [c])%list
  /\ (CommandHistory.dropped_by_add self <= List.length (CommandHistory.commands self))%nat.
Proof.
  intros H0. pose proof (add_commands self c f H0) as E. cbv zeta in E.
  rewrite length_app in E. cbn [List.length] in E.
  replace (List.length (CommandHistory.commands self) + 1)%nat
    with (S (List.length (CommandHistory.commands self))) in E by lia.
  split; [exact E|]. unfold CommandHistory.dropped_by_add.
  destruct (CommandHistory.max_history self =? 0)%Z eqn:Ez; [lia|].
  apply Z.eqb_neq in Ez. lia.
Qed.

(** The command added is the newest of those kept. *)
Lemma add_keeps_the_command (self : CommandHistory.CommandHistory)
    (c : string) (f : CommandHistory.File) :
  (0 <= CommandHistory.max_history self)%Z ->
  CommandHistory.commands (fst (CommandHistory.add self c f))
  = (skipn (CommandHistory.dropped_by_add self) (CommandHistory.commands self) ++ [c])%list.
Proof.
  intros H0. destruct (add_drops self c f H0) as [E Hk].
  rewrite E, skipn_app.
  replace (CommandHistory.dropped_by_add self
           - List.length (CommandHistory.commands self))%nat
    with 0%nat by lia.
  reflexivity.
Qed.

(** A file that can be written holds the commands kept. *)
Lemma add_saves (self : CommandHistory.CommandHistory) (c : string)
    (f : CommandHistory.File) :
  CommandHistory.writable f = true ->
  CommandHistory.content (snd (CommandHistory.add self c f))
  = Some (join CommandHistory.newline
            (CommandHistory.commands (fst (CommandHistory.add self c f)))).
Proof.
  intros Hw. unfold CommandHistory.add. cbn [fst snd].
  unfold CommandHistory._save_history. now rewrite Hw.
Qed.

(** X21. [add] puts the command at the end of the history and, for a
    [max_history] of one or more, keeps the history within that bound by
    dropping the oldest commands; a [max_history] of zero drops nothing at
    all. When the file can be written it then holds the commands kept,
    joined by line feeds. *)
Theorem add_keeps_the_newest_commands
    (self : CommandHistory.CommandHistory) (c : string)
    (f : CommandHistory.File) :
  (0 <= CommandHistory.max_history self)%Z ->
  let h := fst (CommandHistory.add self c f) in
  let f' := snd (CommandHistory.add self c f) in
  (exists dropped,
     (CommandHistory.commands self ++ [c])%list
     = (dropped ++ CommandHistory.commands h)%list)
  /\ (exists older, CommandHistory.commands h = (older ++ [c])%list)
  /\ ((1 <= CommandHistory.max_history self)%Z ->
      (Z.of_nat (List.length (CommandHistory.commands h))
       <= CommandHistory.max_history self)%Z)
  /\ (CommandHistory.max_history self = 0%Z ->
      CommandHistory.commands h
      = (CommandHistory.commands self ++ [c])%list)
  /\ (CommandHistory.writable f = true ->
      CommandHistory.content f'
      = Some (join CommandHistory.newline (CommandHistory.commands h))).
Proof.
  intros H0. cbv zeta. destruct (add_drops self c f H0) as [E Hk].
  split.
  { exists (firstn (CommandHistory.dropped_by_add self)
              (CommandHistory.commands self ++ [c])%list).
    rewrite E. symmetry. apply firstn_skipn. }
  split.
  { exists (skipn (CommandHistory.dropped_by_add self) (CommandHistory.commands self)).
    now apply add_keeps_the_command. }
  split.
  { intros H1. rewrite E, length_skipn, length_app. cbn [List.length].
    unfold CommandHistory.dropped_by_add.
    destruct (CommandHistory.max_history self =? 0)%Z eqn:Ez;
      [apply Z.eqb_eq in Ez; lia|lia]. }
  split.
  { intros Hz. rewrite E. unfold CommandHistory.dropped_by_add. now rewrite Hz. }
  apply add_saves.
Qed.

Lemma add_keeps_the_newest_commands_witness :
  (0 <= 2)%Z
  /\ (Z.of_nat
        (List.length
           (CommandHistory.commands
              (fst (CommandHistory.add
                      (CommandHistory.mkHistory ".osiris_history" 2
                         ["ls"; "pwd"])
                      "date" (CommandHistory.mkFile None true true)))))
      <= 2)%Z.
Proof.
  split; [lia|].
  destruct (add_keeps_the_newest_commands
              (CommandHistory.mkHistory ".osiris_history" 2 ["ls"; "pwd"])
              "date" (CommandHistory.mkFile None true true))
    as (_ & _ & H & _); [cbn; lia|].
  apply H. cbn. lia.
Defined.

(** X22. A history that was saved is loaded back as it was: after [add]
    has written the file, a history opened on that file with the same
    [max_history] holds the same commands, provided the file can be written
    and read, no command holds a line break, the command added is not
    empty and [max_history] is not negative. *)
Theorem saved_history_is_loaded_back
    (self : CommandHistory.CommandHistory) (c : string)
    (f : CommandHistory.File) :
  (0 <= CommandHistory.max_history self)%Z ->
  CommandHistory.writable f = true ->
  CommandHistory.readable f = true ->
  (forall x, In x (CommandHistory.commands self ++ [c])%list ->
             CommandHistory.no_linebreak x = true) ->
  c <> "" ->
  let h := fst (CommandHistory.add self c f) in
  let f' := snd (CommandHistory.add self c f) in
  CommandHistory.commands
    (CommandHistory.__init__ (CommandHistory.history_file h)
       (CommandHistory.max_history h) f')
  = CommandHistory.commands h.
Proof.
  intros H0 Hw Hr Hnl Hc. cbv zeta.
  destruct (add_drops self c f H0) as [E Hk].
  pose proof (add_keeps_the_command self c f H0) as Ho.
  pose proof (add_saves self c f Hw) as Hf.
  unfold CommandHistory.__init__, CommandHistory._load_history.
  cbn [CommandHistory.commands]. rewrite Hf.
  assert (Hr' : CommandHistory.readable
                  (snd (CommandHistory.add self c f)) = true).
  { unfold CommandHistory.add. cbn [snd].
    unfold CommandHistory._save_history. now rewrite Hw. }
  rewrite Hr'.
  assert (Hm : CommandHistory.max_history (fst (CommandHistory.add self c f))
               = CommandHistory.max_history self) by reflexivity.
  rewrite Hm.
  set (kept := CommandHistory.commands (fst (CommandHistory.add self c f)))
    in *.
  rewrite splitlines_join.
  - destruct (Z.eq_dec (CommandHistory.max_history self) 0) as [Ez|Ez].
    + rewrite Ez. apply slice_zero.
    + apply slice_last_short; [exact H0|].
      rewrite E, length_skipn, length_app. cbn [List.length].
      unfold CommandHistory.dropped_by_add.
      destruct (CommandHistory.max_history self =? 0)%Z eqn:Eb;
        [apply Z.eqb_eq in Eb; lia|lia].
  - intros x Hx. apply Hnl. rewrite E in Hx.
    rewrite <- (firstn_skipn (CommandHistory.dropped_by_add self)
                  (CommandHistory.commands self ++ [c])%list).
    apply in_or_app. now right.
  - rewrite Ho, last_last. exact Hc.
Qed.

Lemma saved_history_is_loaded_back_witness :
  CommandHistory.commands
    (CommandHistory.__init__ ".osiris_history" 2
       (snd (CommandHistory.add
               (CommandHistory.mkHistory ".osiris_history" 2 ["ls"; "pwd"])
               "rm x" (CommandHistory.mkFile None true true))))
  = ["pwd"; "rm x"].
Proof.
  refine (eq_trans
            (saved_history_is_loaded_back
               (CommandHistory.mkHistory ".osiris_history" 2 ["ls"; "pwd"])
               "rm x" (CommandHistory.mkFile None true true) _ eq_refl
               eq_refl _ _) eq_refl).
  - cbn. lia.
  - intros x [<-|[<-|[<-|[]]]]; reflexivity.
  - discriminate.
Defined.

End InputProperties.

(* ================================================================== *)
(** ** Command R and the system monitor *)

Module HelperProperties.
Import Py PyFacts StringFacts TextFacts CommandExecutor TranslatorFacts
  TranslatorProperties.

Lemma format_mkdir (name : string) :
  format_name "mkdir {name}" name = "mkdir " ++ name.
Proof. cbn. now rewrite append_nil_r. Qed.

Lemma format_rm (name : string) :
  format_name "rm {name}" name = "rm " ++ name.
Proof. cbn. now rewrite append_nil_r. Qed.

(** The name taken from the instruction is one word, or the default. *)
Lemma extract_name_is_a_word (text prefix default : string) :
  default <> "" -> no_space default = true ->
  CommandR._extract_name text prefix default <> ""
  /\ no_space (CommandR._extract_name text prefix default) = true.
Proof.
  intros Hd Hs. unfold CommandR._extract_name.
  destruct (truthy_str _); cbn [negb]; [|now split].
  destruct (split _) as [|w ws] eqn:E; [now split|].
  apply (split_words (strip (drop (String.length prefix) text))).
  rewrite E. now left.
Qed.

Lemma leading_word_is_linux (word rest : string) :
  existsb (String.eqb word) linux_commands = true ->
  split (word ++ " " ++ rest) = word :: split rest ->
  _is_linux_command (word ++ " " ++ rest) = Ok true.
Proof.
  intros Hw Hs.
  rewrite (is_linux_command_words _ word (split rest)); [now rewrite Hw|].
  now rewrite split_strip.
Qed.

(** X23. A suggestion found by pattern never fails and is always one of
    four plain commands: [ls], [pwd], or [mkdir] or [rm] followed by a
    single name, which is a word of the instruction or the entry's default.
    Its confidence is 0.8 and its leading word is in the translation
    table. *)
Theorem pattern_suggestions_are_plain_commands (en : option bool)
    (text : string) :
  exists r,
    CommandR._pattern_match (CommandR.__init__ en) text = Ok r
    /\ forall s, r = Some s ->
         CommandR.confidence s = (8 # 10)%Q
         /\ (CommandR.command s = "ls" \/ CommandR.command s = "pwd"
             \/ exists name,
                  name <> "" /\ no_space name = true
                  /\ (CommandR.command s = "mkdir " ++ name
                      \/ CommandR.command s = "rm " ++ name))
         /\ _is_linux_command (CommandR.command s) = Ok true.
Proof.
  unfold CommandR._pattern_match, CommandR.__init__.
  cbn [CommandR.examples CommandR.builtin_examples CommandR._pattern_match_in
       CommandR.match_patterns CommandR.patterns CommandR.template
       CommandR.default_name CommandR.ex_command CommandR.ex_explanation
       bind].
  rewrite !format_mkdir, !format_rm.
  assert (Hmk : forall pat,
            let name := CommandR._extract_name text pat "new_folder" in
            name <> "" /\ no_space name = true
            /\ _is_linux_command ("mkdir " ++ name) = Ok true).
  { intros pat name.
    destruct (extract_name_is_a_word text pat "new_folder") as [H1 H2];
      [discriminate|reflexivity|].
    split; [exact H1|]. split; [exact H2|].
    now apply (leading_word_is_linux "mkdir" name). }
  assert (Hrm : forall pat,
            let name := CommandR._extract_name text pat "folder_to_delete" in
            name <> "" /\ no_space name = true
            /\ _is_linux_command ("rm " ++ name) = Ok true).
  { intros pat name.
    destruct (extract_name_is_a_word text pat "folder_to_delete")
      as [H1 H2]; [discriminate|reflexivity|].
    split; [exact H1|]. split; [exact H2|].
    now apply (leading_word_is_linux "rm" name). }
  repeat match goal with
         | |- context [if startswith text ?p then _ else _] =>
             destruct (startswith text p); cbn [bind]
         end;
    eexists; (split; [reflexivity|]); intros s Hs;
    try discriminate Hs; injection Hs as <-;
    cbn [CommandR.confidence CommandR.command];
    (split; [reflexivity|]);
    try (split; [now left | reflexivity]);
    try (split; [right; now left | reflexivity]);
    try (match goal with
         | |- context [CommandR._extract_name text ?p "new_folder"] =>
             destruct (Hmk p) as (H1 & H2 & H3); split; [|exact H3];
             right; right; eexists; split; [exact H1|];
             split; [exact H2|]; now left
         end);
    match goal with
    | |- context [CommandR._extract_name text ?p "folder_to_delete"] =>
        destruct (Hrm p) as (H1 & H2 & H3); split; [|exact H3];
        right; right; eexists; split; [exact H1|];
        split; [exact H2|]; now right
    end.
Qed.

Lemma pattern_suggestions_are_plain_commands_witness :
  CommandR._pattern_match (CommandR.__init__ None) "make a folder  my docs"
  = Ok (Some (CommandR.mkSuggestion "mkdir my" "Creates a new directory."
                (8 # 10)))
  /\ _is_linux_command "mkdir my" = Ok true.
Proof.
  split; [reflexivity|].
  destruct (pattern_suggestions_are_plain_commands None
              "make a folder  my docs") as (r & Hr & H).
  injection Hr as <-.
  apply (H (CommandR.mkSuggestion "mkdir my" "Creates a new directory."
              (8 # 10)) eq_refl).
Defined.

(** X24. [suggest] answers nothing when the model is switched off or the
    instruction is blank; a pattern that matches decides, whatever the
    local model would say; and a suggestion that does come from the local
    model has a command that is not empty and a confidence of 0.7. *)
Theorem suggest_asks_the_model_last (env : Machine.Env)
    (self : CommandR.CommandRModel) (instruction : string) :
  (CommandR.enabled self = false ->
     CommandR.suggest env self instruction = Ok None)
  /\ (strip instruction = "" ->
      CommandR.suggest env self instruction = Ok None)
  /\ (forall s,
        CommandR.enabled self = true -> strip instruction <> "" ->
        CommandR._pattern_match self (lower (strip instruction))
        = Ok (Some s) ->
        CommandR.suggest env self instruction = Ok (Some s))
  /\ (forall s,
        CommandR._pattern_match self (lower (strip instruction)) = Ok None ->
        CommandR.suggest env self instruction = Ok (Some s) ->
        CommandR.command s <> ""
        /\ CommandR.confidence s = (7 # 10)%Q).
Proof.
  unfold CommandR.suggest. repeat split.
  - now intros ->.
  - intros ->. now destruct (CommandR.enabled self).
  - intros s -> Hne Hp. cbn [negb].
    destruct (strip instruction); [congruence|].
    cbn [lower truthy_str negb]. cbn [lower] in Hp. now rewrite Hp.
  - revert H0. destruct (CommandR.enabled self); [|discriminate].
    cbn [negb]. destruct (truthy_str _); [|discriminate].
    cbn [negb]. rewrite H. cbn [bind]. unfold CommandR._rag_suggest.
    destruct (Machine.ollama env _) as [[cmd expl]|]; [|discriminate].
    destruct cmd; cbn [truthy_str negb]; [discriminate|].
    intros [= <-]. discriminate.
  - revert H0. destruct (CommandR.enabled self); [|discriminate].
    cbn [negb]. destruct (truthy_str _); [|discriminate].
    cbn [negb]. rewrite H. cbn [bind]. unfold CommandR._rag_suggest.
    destruct (Machine.ollama env _) as [[cmd expl]|]; [|discriminate].
    destruct (truthy_str cmd); cbn [negb]; [|discriminate].
    now intros [= <-].
Qed.

Lemma suggest_asks_the_model_last_witness :
  CommandR.suggest
    (Machine.plain CommandExecutor.no_backend None (fun _ => "")
       (Some ("rm -rf /", "")))
    (CommandR.__init__ (Some false)) "delete everything" = Ok None.
Proof.
  apply (proj1 (suggest_asks_the_model_last _ _ _)). reflexivity.
Defined.

(** X25. [check_resource_pressure] on given metrics samples nothing and
    flags a resource exactly when its usage is above its threshold, a usage
    equal to the threshold not being pressure; it gives one warning for each
    resource flagged, so none when nothing is flagged. Without metrics, and
    [psutil] failing, it reports no pressure at all, with the one warning
    that the metrics could not be read. *)
Theorem pressure_follows_the_thresholds (env : Machine.Env)
    (self : SystemMonitor.SystemMonitor) (m : SystemMonitor.Metrics)
    (w : Machine.World) :
  let p := fst (SystemMonitor.check_resource_pressure env self (Some m) w) in
  snd (SystemMonitor.check_resource_pressure env self (Some m) w) = w
  /\ (SystemMonitor.cpu_pressure p = true <->
      (SystemMonitor.cpu_high_threshold self
       < SystemMonitor.cpu_percent m)%Q)
  /\ (SystemMonitor.memory_pressure p = true <->
      (SystemMonitor.memory_high_threshold self
       < SystemMonitor.memory_percent m)%Q)
  /\ (SystemMonitor.disk_pressure p = true <->
      (SystemMonitor.disk_high_threshold self
       < SystemMonitor.disk_percent m)%Q)
  /\ List.length (SystemMonitor.warnings p)
     = ((if SystemMonitor.cpu_pressure p then 1 else 0)
        + (if SystemMonitor.memory_pressure p then 1 else 0)
        + (if SystemMonitor.disk_pressure p then 1 else 0))%nat
  /\ (Machine.psutil env (Machine.samples w) = None ->
      fst (SystemMonitor.check_resource_pressure env self None w)
      = SystemMonitor.mkPressure false false false
          ["Could not get system metrics"]).
Proof.
  assert (Hgt : forall a b, SystemMonitor.gt a b = true <-> (b < a)%Q).
  { intros a b. unfold SystemMonitor.gt. rewrite negb_true_iff.
    rewrite <- not_true_iff_false, Qle_bool_iff. split.
    - apply Qnot_le_lt.
    - apply Qlt_not_le. }
  cbv zeta. unfold SystemMonitor.check_resource_pressure.
  cbn [fst snd SystemMonitor.cpu_pressure SystemMonitor.memory_pressure
       SystemMonitor.disk_pressure SystemMonitor.warnings].
  split; [reflexivity|]. split; [apply Hgt|]. split; [apply Hgt|].
  split; [apply Hgt|]. split.
  - destruct (SystemMonitor.gt (SystemMonitor.cpu_percent m) _);
      destruct (SystemMonitor.gt (SystemMonitor.memory_percent m) _);
      destruct (SystemMonitor.gt (SystemMonitor.disk_percent m) _);
      reflexivity.
  - intros Hn. unfold SystemMonitor.get_current_metrics. now rewrite Hn.
Qed.

Lemma pressure_follows_the_thresholds_witness :
  fst (SystemMonitor.check_resource_pressure
         (Machine.plain CommandExecutor.no_backend None (fun _ => "") None)
         (SystemMonitor.__init__ None) None Machine.fresh)
  = SystemMonitor.mkPressure false false false
      ["Could not get system metrics"].
Proof.
  apply (pressure_follows_the_thresholds
           (Machine.plain CommandExecutor.no_backend None (fun _ => "") None)
           (SystemMonitor.__init__ None)
           (SystemMonitor.mkMetrics 0 0 0 0 0 0 0 0 0) Machine.fresh).
  reflexivity.
Defined.

End HelperProperties.

(* ================================================================== *)
(** ** The shell *)

Module ShellProperties.
Import Py PyFacts StringFacts TextFacts CommandExecutor ExecutorFacts
  ExecutorProperties Machine CLIFramework OsirisTeamShell.

Lemma quiet_refl w : quiet w w.
Proof. now split. Qed.

Lemma quiet_trans w1 w2 w3 : quiet w1 w2 -> quiet w2 w3 -> quiet w1 w3.
Proof. intros [H1 H2] [H3 H4]. split; congruence. Qed.

Lemma quiet_print out w : quiet w (print out w).
Proof. now split. Qed.

Lemma quiet_metrics env w :
  quiet w (snd (SystemMonitor.get_current_metrics env w)).
Proof.
  unfold SystemMonitor.get_current_metrics.
  destruct (psutil env (samples w)); now split.
Qed.

Lemma quiet_pressure env mon m w :
  quiet w (snd (SystemMonitor.check_resource_pressure env mon m w)).
Proof.
  unfold SystemMonitor.check_resource_pressure. destruct m as [m|].
  - now split.
  - pose proof (quiet_metrics env w) as H.
    destruct (SystemMonitor.get_current_metrics env w) as [[m|] w1];
      exact H.
Qed.

Lemma quiet_show_status env sh w : quiet w (_show_status env sh w).
Proof.
  unfold _show_status. pose proof (quiet_metrics env w) as H.
  destruct (SystemMonitor.get_current_metrics env w) as [[m|] w1];
    cbn [snd] in H; [|exact H].
  cbn [SystemMonitor.check_resource_pressure].
  destruct (truthy_list _); exact H.
Qed.

Lemma quiet_show_metrics env sh w : quiet w (_show_metrics env sh w).
Proof.
  unfold _show_metrics. pose proof (quiet_metrics env w) as H.
  now destruct (SystemMonitor.get_current_metrics env w) as [[m|] w1].
Qed.

Lemma quiet_welcome env sh w : quiet w (_display_welcome env sh w).
Proof.
  unfold _display_welcome. pose proof (quiet_metrics env w) as H.
  destruct (SystemMonitor.get_current_metrics env w) as [m w1].
  cbn [snd] in H. unfold SystemMonitor.format_metrics_display.
  destruct m as [m|].
  - cbn [SystemMonitor.check_resource_pressure]. exact H.
  - pose proof (quiet_metrics env w1) as H1.
    destruct (SystemMonitor.get_current_metrics env w1) as [[m|] w2];
      cbn [snd] in H1;
      [cbn [SystemMonitor.check_resource_pressure]|];
      exact (quiet_trans _ _ _ H H1).
Qed.

(** Running a command the gate allows starts processes for that command
    only, and always returns. *)
Lemma execute_allowed os gate ex ew cmd uw :
  SafetyGate.allowed (SafetyGate.evaluate_command gate cmd) = true ->
  exists r ex' ew' evs,
    execute os ex ew cmd None None true uw = Some (Ok r, ex', ew')
    /\ events ew' = (events ew ++ evs)%list
    /\ Forall (started_for gate cmd) (spawned evs).
Proof.
  intros Ha.
  destruct (execute_events os ex ew cmd None None true uw)
    as (o & evs & Ho & Hwf & Hev & (c & Hc & Hs) & _).
  destruct Hwf as (r & s' & w' & n & m & -> & _).
  exists r, s', w', evs. split; [exact Ho|]. split; [exact Hev|].
  assert (Hw : started_for gate cmd (popen_cmd true cmd))
    by (split; [exact Ha|now left]).
  assert (Hn : started_for gate cmd (popen_cmd false c))
    by (split; [exact Ha|right; now exists c]).
  destruct Hs as [[-> _]|[[->| ->] _]];
    repeat (apply Forall_cons; [assumption|]); apply Forall_nil.
Qed.

(** What [_handle_rag_command] does to the world: it starts a process only
    for a suggestion that the user confirmed and the gate allows, on the
    native backend. *)
Lemma rag_step env sh w args next :
  exists flow sh' w' c evs,
    _handle_rag_command env sh w args next = Some (flow, sh', w', c)
    /\ events (exec w') = (events (exec w) ++ evs)%list
    /\ Forall
         (fun argv =>
            exists s answer,
              CommandR.suggest env (command_r sh)
                (strip (lower (join " " args))) = Ok (Some s)
              /\ next = Some (Typed answer)
              /\ In (lower (strip answer)) ["y"; "yes"]
              /\ started_for (safety_gate sh) (CommandR.command s) argv)
         (spawned evs)
    /\ safety_gate sh' = safety_gate sh
    /\ command_r sh' = command_r sh
    /\ history sh' = history sh
    /\ cli sh' = cli sh
    /\ file w' = file w
    /\ (spawned evs <> [] ->
        exists line s c',
          next = Some (Typed line)
          /\ In (lower (strip line)) ["y"; "yes"]
          /\ CommandR.suggest env (command_r sh)
               (strip (lower (join " " args))) = Ok (Some s)
          /\ SafetyGate.allowed
               (SafetyGate.evaluate_command (safety_gate sh)
                  (CommandR.command s)) = true
          /\ backend_command false (CommandR.command s) = Ok c'
          /\ spawned evs = [["powershell.exe"; "-Command"; c']]).
Proof.
  unfold _handle_rag_command.
  assert (Hnil : forall (flow : Flow) sh0 w0 (c : bool),
            events (exec w0) = events (exec w) ->
            safety_gate sh0 = safety_gate sh ->
            command_r sh0 = command_r sh -> history sh0 = history sh ->
            cli sh0 = cli sh -> file w0 = file w ->
            exists flow' sh' w' c' evs,
              Some (flow, sh0, w0, c) = Some (flow', sh', w', c')
              /\ events (exec w') = (events (exec w) ++ evs)%list
              /\ Forall
                   (fun argv =>
                      exists s answer,
                        CommandR.suggest env (command_r sh)
                          (strip (lower (join " " args))) = Ok (Some s)
                        /\ next = Some (Typed answer)
                        /\ In (lower (strip answer)) ["y"; "yes"]
                        /\ started_for (safety_gate sh) (CommandR.command s)
                             argv)
                   (spawned evs)
              /\ safety_gate sh' = safety_gate sh
              /\ command_r sh' = command_r sh
              /\ history sh' = history sh
              /\ cli sh' = cli sh
              /\ file w' = file w
              /\ (spawned evs <> [] ->
                  exists line s c'',
                    next = Some (Typed line)
                    /\ In (lower (strip line)) ["y"; "yes"]
                    /\ CommandR.suggest env (command_r sh)
                         (strip (lower (join " " args))) = Ok (Some s)
                    /\ SafetyGate.allowed
                         (SafetyGate.evaluate_command (safety_gate sh)
                            (CommandR.command s)) = true
                    /\ backend_command false (CommandR.command s) = Ok c''
                    /\ spawned evs = [["powershell.exe"; "-Command"; c'']])).
  { intros flow sh0 w0 c H1 H2 H3 H4 H5 H6. exists flow, sh0, w0, c, [].
    rewrite app_nil_r. repeat split; try assumption; try constructor.
    intros H. now contradict H. }
  destruct (truthy_list args); cbn [negb]; [|now apply Hnil].
  destruct (CommandR.suggest env (command_r sh) _) as [[s|]|e] eqn:Es;
    [|now apply Hnil|now apply Hnil].
  destruct next as [[line|]|]; [|now apply Hnil|].
  - destruct (existsb (String.eqb (lower (strip line))) ["y"; "yes"])
      eqn:Ey; cbn [negb]; [|now apply Hnil].
    assert (Hyes : In (lower (strip line)) ["y"; "yes"]).
    { apply existsb_exists in Ey. destruct Ey as (x & Hx & Hxe).
      apply String.eqb_eq in Hxe. now subst x. }
    destruct (SafetyGate.allowed
                (SafetyGate.evaluate_command (safety_gate sh)
                   (CommandR.command s))) eqn:Ha; cbn [negb];
      [|now apply Hnil].
    match goal with
    | |- context [execute (os env) (executor sh) (exec ?w1) ?cmd None None
                    true (Some false)] =>
        destruct (native_route (os env) (executor sh) (exec w1) cmd None
                    None true (Some false) eq_refl)
          as (c' & r & ex' & ew' & Hc & He & Hsp);
        destruct (execute_allowed (os env) (safety_gate sh) (executor sh)
                    (exec w1) cmd (Some false) Ha)
          as (r2 & ex2 & ew2 & evs & He2 & Hev & Hall)
    end.
    rewrite He in He2. injection He2 as <- <- <-. rewrite He.
    eexists _, _, _, _, evs. split; [reflexivity|].
    cbn [print set_exec exec file set_executor safety_gate command_r history
         cli] in Hev, Hsp |- *.
    split; [exact Hev|]. split.
    { revert Hall. apply Forall_impl. intros argv Hargv.
      now exists s, line. }
    repeat (split; [reflexivity|]).
    intros _. exists line, s, c'.
    split; [reflexivity|]. split; [exact Hyes|].
    split; [reflexivity|]. split; [exact Ha|]. split; [exact Hc|].
    rewrite Hev, spawned_app in Hsp.
    now apply app_inv_head in Hsp.
  - cbn [existsb String.eqb Ascii.eqb Bool.eqb orb negb]. now apply Hnil.
Qed.

(** What one turn of the loop of [run] does: the line is saved to the
    history first; processes are started only for the command the turn is
    asked to run, and only if the gate allows it; the gate and the model
    are left as they are. *)
Lemma process_command_step env sh w parsed next :
  exists flow sh' w' c evs,
    process_command env sh w parsed next = Some (flow, sh', w', c)
    /\ events (exec w') = (events (exec w) ++ evs)%list
    /\ Forall
         (fun argv =>
            exists cmd,
              requested_by env (command_r sh) parsed next cmd
              /\ started_for (safety_gate sh) cmd argv)
         (spawned evs)
    /\ safety_gate sh' = safety_gate sh
    /\ command_r sh' = command_r sh
    /\ history sh'
       = fst (CommandHistory.add (history sh) (raw parsed) (file w))
    /\ file w'
       = snd (CommandHistory.add (history sh) (raw parsed) (file w)).
Proof.
  unfold process_command.
  destruct (CommandHistory.add (history sh) (raw parsed) (file w))
    as [h f] eqn:Eadd. cbn [fst snd].
  assert (Hnil : forall (flow : Flow) sh0 w0 (c : bool),
            events (exec w0) = events (exec w) ->
            safety_gate sh0 = safety_gate sh ->
            command_r sh0 = command_r sh -> history sh0 = h ->
            file w0 = f ->
            exists flow' sh' w' c' evs,
              Some (flow, sh0, w0, c) = Some (flow', sh', w', c')
              /\ events (exec w') = (events (exec w) ++ evs)%list
              /\ Forall
                   (fun argv =>
                      exists cmd,
                        requested_by env (command_r sh) parsed next cmd
                        /\ started_for (safety_gate sh) cmd argv)
                   (spawned evs)
              /\ safety_gate sh' = safety_gate sh
              /\ command_r sh' = command_r sh
              /\ history sh' = h /\ file w' = f).
  { intros flow sh0 w0 c H1 H2 H3 H4 H5. exists flow, sh0, w0, c, [].
    rewrite app_nil_r. repeat split; try assumption. constructor. }
  destruct (is_builtin parsed) eqn:Eb.
  - destruct (existsb (String.eqb (command parsed)) ["exit"; "quit"; "help"]).
    + destruct (handle_builtin _ _ _) as [[b c] out]. now apply Hnil.
    + unfold _handle_special_command.
      destruct (command parsed =? "team"); [now apply Hnil|].
      destruct (command parsed =? "status").
      { destruct (quiet_show_status env (set_history sh h) (set_file w f))
          as [H1 H2]. now apply Hnil. }
      destruct (command parsed =? "metrics").
      { destruct (quiet_show_metrics env (set_history sh h) (set_file w f))
          as [H1 H2]. now apply Hnil. }
      destruct (command parsed =? "r") eqn:Er; [|now apply Hnil].
      apply String.eqb_eq in Er.
      destruct (rag_step env (set_history sh h) (set_file w f) (args parsed)
                  next)
        as (flow & sh' & w' & c & evs & -> & Hev & Hall & Hg & Hm & Hh & _
            & Hf & _).
      exists flow, sh', w', c, evs. split; [reflexivity|].
      split; [exact Hev|]. split; [|now repeat split].
      revert Hall. apply Forall_impl.
      intros argv (s & answer & Hs & Hn & Hy & Hst).
      exists (CommandR.command s). split; [|exact Hst].
      right. split; [exact Er|]. now exists s, answer.
  - destruct (SafetyGate.allowed
                (SafetyGate.evaluate_command (safety_gate (set_history sh h))
                   (raw parsed))) eqn:Ha; cbn [negb]; [|now apply Hnil].
    match goal with
    | |- context [SystemMonitor.get_current_metrics env ?w1] =>
        pose proof (quiet_metrics env w1) as Hq1;
        destruct (SystemMonitor.get_current_metrics env w1) as [m w2]
    end.
    cbn [snd] in Hq1.
    match goal with
    | |- context [SystemMonitor.check_resource_pressure env ?mon m w2] =>
        pose proof (quiet_pressure env mon m w2) as Hq2;
        destruct (SystemMonitor.check_resource_pressure env mon m w2)
          as [pr w3]
    end.
    cbn [snd] in Hq2.
    destruct Hq1 as [Hq1 Hf1], Hq2 as [Hq2 Hf2].
    cbn [print set_file exec file] in Hq1, Hf1.
    match goal with
    | |- context [execute (os env) ?ex (exec ?w4) ?cmd None None true None] =>
        assert (Hw4 : events (exec w4) = events (exec w)
                      /\ file w4 = f)
          by (destruct (_ || _); cbn [print exec file];
              split; congruence);
        destruct (execute_allowed (os env) (safety_gate sh) ex (exec w4)
                    cmd None Ha)
          as (r & ex' & ew' & evs & -> & Hev & Hall)
    end.
    destruct Hw4 as [Hw4 Hf4].
    eexists _, _, _, _, evs. split; [reflexivity|].
    cbn [print set_exec exec file set_executor safety_gate command_r
         history].
    rewrite Hev, Hw4. split; [reflexivity|]. split; [|now repeat split].
    revert Hall. apply Forall_impl. intros argv Hst.
    exists (raw parsed). split; [now left|exact Hst].
Qed.

(** What was started for a line of the inputs still to come was started for
    a line of all the inputs. *)
Lemma started_in_session_later env gate model pre inputs argv :
  started_in_session env gate model inputs argv ->
  started_in_session env gate model (pre ++ inputs)%list argv.
Proof.
  intros (before & line & after & cmd & -> & Hr & Hs).
  exists (pre ++ before)%list, line, after, cmd.
  split; [now rewrite app_assoc|]. now split.
Qed.

(** All that the loop starts are processes for lines of its inputs that ask
    for a command the gate allows; the gate and the model are left as they
    are. *)
Lemma loop_invariant env (n : nat) :
  forall inputs sh w,
    (List.length inputs <= n)%nat ->
    exists ending sh' w' evs,
      loop env inputs sh w = Some (ending, sh', w')
      /\ events (exec w') = (events (exec w) ++ evs)%list
      /\ Forall (started_in_session env (safety_gate sh) (command_r sh)
                   inputs) (spawned evs)
      /\ safety_gate sh' = safety_gate sh
      /\ command_r sh' = command_r sh.
Proof.
  assert (Hstop : forall (e : Ending) inputs sh0 w0 sh w,
            events (exec w0) = events (exec w) ->
            safety_gate sh0 = safety_gate sh ->
            command_r sh0 = command_r sh ->
            exists ending sh' w' evs,
              Some (e, sh0, w0) = Some (ending, sh', w')
              /\ events (exec w') = (events (exec w) ++ evs)%list
              /\ Forall (started_in_session env (safety_gate sh)
                           (command_r sh) inputs) (spawned evs)
              /\ safety_gate sh' = safety_gate sh
              /\ command_r sh' = command_r sh).
  { intros e inputs sh0 w0 sh w H1 H2 H3. exists e, sh0, w0, [].
    rewrite app_nil_r. repeat split; try assumption. constructor. }
  assert (Hlater : forall pre inputs sh w,
            (exists ending sh' w' evs,
               loop env inputs sh w = Some (ending, sh', w')
               /\ events (exec w') = (events (exec w) ++ evs)%list
               /\ Forall (started_in_session env (safety_gate sh)
                            (command_r sh) inputs) (spawned evs)
               /\ safety_gate sh' = safety_gate sh
               /\ command_r sh' = command_r sh) ->
            exists ending sh' w' evs,
              loop env inputs sh w = Some (ending, sh', w')
              /\ events (exec w') = (events (exec w) ++ evs)%list
              /\ Forall (started_in_session env (safety_gate sh)
                           (command_r sh) (pre ++ inputs)%list) (spawned evs)
              /\ safety_gate sh' = safety_gate sh
              /\ command_r sh' = command_r sh).
  { intros pre inputs sh w (e & sh' & w' & evs & H & Hev & Hall & Hg & Hm).
    exists e, sh', w', evs. repeat split; try assumption.
    revert Hall. apply Forall_impl. intros argv.
    apply started_in_session_later. }
  induction n as [|n IH]; intros inputs sh w Hn.
  - destruct inputs; [|cbn in Hn; lia]. cbn [loop].
    destruct (running (cli sh)); now apply Hstop.
  - destruct inputs as [|a rest]; cbn [loop].
    { destruct (running (cli sh)); now apply Hstop. }
    cbn [List.length] in Hn.
    destruct (running (cli sh)); cbn [negb]; [|now apply Hstop].
    destruct a as [user_input|].
    2: { destruct (Hlater [Interrupt] rest sh (print [InterruptHint] w)
                     (IH rest sh (print [InterruptHint] w) ltac:(lia)))
           as (e & sh' & w' & evs & -> & Hev & Hall & Hg & Hm).
         now exists e, sh', w', evs. }
    destruct (negb (truthy_str user_input) || (strip user_input =? "")).
    { apply (Hlater [Typed user_input] rest sh w). apply IH. lia. }
    assert (Hgo : forall pre rest0,
              (List.length rest0 <= n)%nat ->
              (Typed user_input :: rest = pre ++ rest0)%list ->
              exists ending sh' w' evs,
                match process_command env sh w
                        (_parse_input (strip user_input)) (hd_error rest)
                with
                | None => None
                | Some (Leave how, sh1, w1, _) => Some (how, sh1, w1)
                | Some (Continue, sh1, w1, _) => loop env rest0 sh1 w1
                end = Some (ending, sh', w')
                /\ events (exec w') = (events (exec w) ++ evs)%list
                /\ Forall (started_in_session env (safety_gate sh)
                             (command_r sh) (Typed user_input :: rest))
                     (spawned evs)
                /\ safety_gate sh' = safety_gate sh
                /\ command_r sh' = command_r sh).
    { intros pre rest0 Hr Hpre.
      destruct (process_command_step env sh w
                  (_parse_input (strip user_input)) (hd_error rest))
        as (flow & sh1 & w1 & c & evs1 & -> & Hev1 & Hall1 & Hg1 & Hm1 & _).
      assert (Hall1' : Forall (started_in_session env (safety_gate sh)
                                 (command_r sh) (Typed user_input :: rest))
                         (spawned evs1)).
      { revert Hall1. apply Forall_impl. intros argv (cmd & Hrq & Hst).
        now exists [], user_input, rest, cmd. }
      destruct flow as [|how].
      - destruct (Hlater pre rest0 sh1 w1 (IH rest0 sh1 w1 Hr))
          as (e & sh' & w' & evs2 & -> & Hev2 & Hall2 & Hg2 & Hm2).
        rewrite <- Hpre, Hg1, Hm1 in Hall2.
        exists e, sh', w', (evs1 ++ evs2)%list. split; [reflexivity|].
        split; [now rewrite Hev2, Hev1, app_assoc|].
        split; [|split; congruence].
        rewrite spawned_app. apply Forall_app. now split.
      - exists how, sh1, w1, evs1. now repeat split. }
    destruct rest as [|next rest'].
    + apply (Hgo [Typed user_input] []); [cbn; lia|reflexivity].
    + cbn [List.length] in Hn. cbn [hd_error] in Hgo.
      destruct (process_command_step env sh w
                  (_parse_input (strip user_input)) (Some next))
        as (flow & sh1 & w1 & c & evs1 & Hp & _).
      destruct flow as [|how]; [destruct c|].
      * specialize (Hgo [Typed user_input; next] rest' ltac:(lia) eq_refl).
        now rewrite Hp in Hgo |- *.
      * specialize (Hgo [Typed user_input] (next :: rest')
                      ltac:(cbn; lia) eq_refl).
        now rewrite Hp in Hgo |- *.
      * specialize (Hgo [Typed user_input] (next :: rest')
                      ltac:(cbn; lia) eq_refl).
        now rewrite Hp in Hgo |- *.
Qed.

(** X26. A command that the gate blocks never reaches the executor: the
    turn shows the block reason and nothing else, starts no process, reads
    neither clock nor monitor, and leaves the executor and its history as
    they were; the loop goes on. *)
Theorem blocked_command_never_reaches_the_executor
    env sh w parsed next :
  is_builtin parsed = false ->
  SafetyGate.allowed
    (SafetyGate.evaluate_command (safety_gate sh) (raw parsed)) = false ->
  exists sh' w',
    process_command env sh w parsed next = Some (Continue, sh', w', false)
    /\ executor sh' = executor sh
    /\ exec w' = exec w
    /\ samples w' = samples w
    /\ console w'
       = (console w
          ++ [ErrorMessage
                ("BLOCKED: "
                 ++ SafetyGate.reason
                      (SafetyGate.evaluate_command (safety_gate sh)
                         (raw parsed)))])%list.
Proof.
  intros Hb Ha. unfold process_command.
  destruct (CommandHistory.add (history sh) (raw parsed) (file w))
    as [h f]. rewrite Hb.
  cbn [set_history safety_gate]. rewrite Ha. cbn [negb].
  eexists _, _. split; [reflexivity|]. now repeat split.
Qed.

Lemma blocked_command_never_reaches_the_executor_witness :
  exists sh' w',
    process_command sample_env sample_shell Machine.fresh
      (_parse_input "rm -rf /") None = Some (Continue, sh', w', false)
    /\ exec w' = CommandExecutor.fresh
    /\ console w' = [ErrorMessage "BLOCKED: Attempting to delete root directory"].
Proof.
  destruct (blocked_command_never_reaches_the_executor sample_env
              sample_shell Machine.fresh (_parse_input "rm -rf /") None
              eq_refl eq_refl)
    as (sh' & w' & H & _ & He & _ & Hc).
  exists sh', w'. split; [exact H|]. split; [exact He|exact Hc].
Defined.

(** X27. Every process started during a session of [run] goes back to a
    line the user typed in that session: a line that is not a built-in and
    that the safety gate allows, the process being that very line handed to
    WSL or its translation handed to PowerShell; or an [r] line, the process
    being what [execute] starts for the suggestion Command R made for it,
    which the user confirmed with "y" or "yes" in the line typed next and
    which the gate allows. The gate itself is never changed. *)
Theorem every_process_started_was_allowed
    env inputs sh w ending sh' w' :
  run env inputs sh w = Some (ending, sh', w') ->
  exists evs,
    events (exec w') = (events (exec w) ++ evs)%list
    /\ Forall (started_in_session env (safety_gate sh) (command_r sh) inputs)
         (spawned evs)
    /\ safety_gate sh' = safety_gate sh.
Proof.
  unfold run. intros H.
  destruct (quiet_welcome env sh w) as [Hq _].
  match type of H with
  | loop env inputs ?sh1 ?w1 = _ =>
      destruct (loop_invariant env (List.length inputs) inputs sh1 w1
                  (le_n _))
        as (e & sh2 & w2 & evs & H2 & Hev & Hall & Hg & _)
  end.
  rewrite H in H2. injection H2 as <- <- <-.
  exists evs. cbn [print exec set_cli safety_gate command_r] in Hev, Hall, Hg.
  rewrite Hq in Hev. now repeat split.
Qed.

Lemma every_process_started_was_allowed_witness :
  exists ending sh' w' evs,
    run sample_env [Typed "rm -rf /"; Typed "ls -la"] sample_shell
      Machine.fresh = Some (ending, sh', w')
    /\ events (exec w') = evs
    /\ Forall (started_in_session sample_env (SafetyGate.__init__ None)
                 (CommandR.__init__ None)
                 [Typed "rm -rf /"; Typed "ls -la"])
         (spawned evs).
Proof.
  destruct (run sample_env [Typed "rm -rf /"; Typed "ls -la"] sample_shell
              Machine.fresh) as [[[ending sh'] w']|] eqn:E.
  - destruct (every_process_started_was_allowed sample_env
                [Typed "rm -rf /"; Typed "ls -la"] sample_shell
                Machine.fresh ending sh' w' E)
      as (evs & Hev & Hall & _).
    exists ending, sh', w', evs. split; [reflexivity|].
    split; [exact Hev|exact Hall].
  - vm_compute in E. discriminate E.
Defined.

(** X28. [exit] and [quit] end the session at once: the line is saved to
    the history, "Goodbye" is shown, the prompt loop stops, and nothing
    typed afterwards is read or run. *)
Theorem exit_ends_the_session env line rest sh w :
  line = "exit" \/ line = "quit" ->
  running (cli sh) = true ->
  let added := CommandHistory.add (history sh) line (file w) in
  loop env (Typed line :: rest) sh w
  = Some (Finished,
          set_cli (OsirisTeamShell.set_history sh (fst added))
            (set_running (cli sh) false),
          print [Goodbye] (set_file w (snd added))).
Proof.
  intros Hl Hr. cbv zeta.
  assert (Hp : process_command env sh w (_parse_input (strip line)) None
               = Some (Continue,
                       set_cli (OsirisTeamShell.set_history sh
                                  (fst (CommandHistory.add (history sh) line
                                          (file w))))
                         (set_running (cli sh) false),
                       print [Goodbye]
                         (set_file w
                            (snd (CommandHistory.add (history sh) line
                                    (file w)))),
                       false)
               /\ forall next,
                    process_command env sh w (_parse_input (strip line))
                      (Some next)
                    = process_command env sh w (_parse_input (strip line))
                        None).
  { destruct Hl as [->| ->]; vm_compute strip; unfold process_command;
      cbn [_parse_input split split_from isspace raw command args
           is_builtin];
      destruct (CommandHistory.add (history sh) _ (file w)) as [h f];
      split; reflexivity. }
  destruct Hp as [Hp Hnext].
  assert (Hblank : negb (truthy_str line) || (strip line =? "") = false)
    by (destruct Hl as [->| ->]; reflexivity).
  cbn [loop]. rewrite Hr, Hblank. cbn [negb].
  destruct rest as [|next rest']; [|rewrite Hnext]; rewrite Hp;
    now destruct rest' || reflexivity.
Qed.

Lemma exit_ends_the_session_witness :
  loop sample_env [Typed "exit"; Typed "rm -rf /"; Typed "ls"] sample_shell
    Machine.fresh
  = loop sample_env [Typed "exit"] sample_shell Machine.fresh.
Proof.
  rewrite !(exit_ends_the_session sample_env "exit" _ sample_shell
              Machine.fresh (or_introl eq_refl) eq_refl).
  reflexivity.
Defined.

(** X29. The [r] command starts a process only for a suggestion of
    Command R that the user confirmed with "y" or "yes" and that the
    safety gate allows, and then it starts exactly one, on the native
    backend; it changes neither the gate nor the command history. *)
Theorem suggestion_runs_only_when_confirmed_and_allowed
    env sh w args next flow sh' w' c :
  _handle_rag_command env sh w args next = Some (flow, sh', w', c) ->
  spawned (events (exec w')) <> spawned (events (exec w)) ->
  exists line s c',
    next = Some (Typed line)
    /\ In (lower (strip line)) ["y"; "yes"]
    /\ CommandR.suggest env (command_r sh) (strip (lower (join " " args)))
       = Ok (Some s)
    /\ SafetyGate.allowed
         (SafetyGate.evaluate_command (safety_gate sh) (CommandR.command s))
       = true
    /\ backend_command false (CommandR.command s) = Ok c'
    /\ spawned (events (exec w'))
       = (spawned (events (exec w))
          ++ [["powershell.exe"; "-Command"; c']])%list
    /\ safety_gate sh' = safety_gate sh
    /\ history sh' = history sh.
Proof.
  intros H Hne.
  destruct (rag_step env sh w args next)
    as (flow0 & sh0 & w0 & c0 & evs & H0 & Hev & _ & Hg & _ & Hh & _ & _
        & Hs).
  rewrite H in H0. injection H0 as <- <- <- <-.
  rewrite Hev, spawned_app in Hne |- *.
  destruct Hs as (line & s & c' & H1 & H2 & H3 & H4 & H5 & H6).
  { intros E. apply Hne. rewrite E. apply app_nil_r. }
  exists line, s, c'. rewrite H6. now repeat split.
Qed.

Lemma suggestion_runs_only_when_confirmed_and_allowed_witness :
  exists flow sh' w' c,
    _handle_rag_command sample_env sample_shell Machine.fresh
      ["make"; "a"; "folder"; "demo"] (Some (Typed " Y "))
    = Some (flow, sh', w', c)
    /\ spawned (events (exec w'))
       = [["powershell.exe"; "-Command";
           "New-Item -ItemType Directory " ++ quoted "demo" ++ " -Force"]].
Proof.
  eexists _, _, _, _. split; [reflexivity|].
  destruct (suggestion_runs_only_when_confirmed_and_allowed sample_env
              sample_shell Machine.fresh ["make"; "a"; "folder"; "demo"]
              (Some (Typed " Y ")) _ _ _ _ eq_refl)
    as (line & s & c' & _ & _ & Hs & _ & Hc & Hsp & _).
  - discriminate.
  - injection Hs as <-. vm_compute in Hc. injection Hc as <-. exact Hsp.
Defined.

(** X30. Whichever way the body of the loop of [run] hands back control
    for a line (the command ran, the gate blocked it, it was a built-in, or
    the turn left the loop), the command history of the shell is the one
    [add] made before anything else was done with the line; with a
    [max_history] that is not negative, the line is its newest entry. So a
    blocked command is in the history too. *)
Theorem every_line_is_saved_first
    env sh w parsed next flow sh' w' c :
  process_command env sh w parsed next = Some (flow, sh', w', c) ->
  history sh' = fst (CommandHistory.add (history sh) (raw parsed) (file w))
  /\ ((0 <= CommandHistory.max_history (history sh))%Z ->
      exists older,
        CommandHistory.commands (history sh')
        = (older ++ [raw parsed])%list).
Proof.
  intros H.
  destruct (process_command_step env sh w parsed next)
    as (flow0 & sh0 & w0 & c0 & evs & H0 & _ & _ & _ & _ & Hh & _).
  rewrite H in H0. injection H0 as <- <- <- <-.
  split; [exact Hh|]. intros Hm. rewrite Hh.
  rewrite (InputProperties.add_keeps_the_command _ _ _ Hm).
  now eexists.
Qed.

Lemma every_line_is_saved_first_witness :
  exists flow sh' w' c,
    process_command sample_env sample_shell Machine.fresh
      (_parse_input "rm -rf /") None = Some (flow, sh', w', c)
    /\ flow = Continue
    /\ CommandHistory.commands (history sh') = ["rm -rf /"].
Proof.
  eexists _, _, _, _. split; [reflexivity|]. split; [reflexivity|].
  rewrite (proj1 (every_line_is_saved_first sample_env sample_shell
                    Machine.fresh (_parse_input "rm -rf /") None _ _ _ _
                    eq_refl)).
  reflexivity.
Defined.

End ShellProperties.
